(** * LiteX vendor toolchain adapters: constraint bookkeeping, text emitters,
      build orchestration and the Efinix PLL helper.

    Shallow embedding of
      - litex/build/anlogic/anlogic.py       (module [Anlogic])
      - litex/build/microsemi/libero_soc.py  (module [Microsemi])
      - litex/build/osfpga/osfpga.py         (module [OSFPGA])
      - litex/build/quicklogic/symbiflow.py  (module [QuickLogic])
      - litex/soc/cores/clock/efinix.py      (module [Efinix])

    Conventions of the embedding.
      - A finite Python [float] is modelled by the rational it denotes
        ([Q]); [==] and [!=] on floats are [Qeq_bool] and its negation.
        The float arithmetic of [add_period_constraint] rounds to
        binary64 ([b64]), and overflows as it does.
      - A Python [str] is a Rocq [string] (a sequence of bytes).
      - A migen [Signal] is identified by its [duid]: migen hashes a signal
        by its duid and compares signals by object identity, and every
        object gets a fresh duid.
      - A [dict] is an association list in insertion order with distinct
        keys; a [set] is a duplicate-free list whose order stands for the
        (unspecified) iteration order of the set.
      - Everything a Python process can observe or change besides its
        arguments lives in a [World]; effectful code is a computation
        [M A := World -> World * (exn + A)]: an exception keeps the world
        as it was when it was raised. *)

From Stdlib Require Import QArith Qround Qabs String Ascii.
From stdpp Require Import base list strings sorting pretty.

(* ================================================================== *)
(** * Python runtime                                                    *)
(* ================================================================== *)

Module Py.

(** Exceptions the modelled code raises. [Raised] stands for any
    exception thrown by an external collaborator (the platform object). *)
Inductive exn :=
| ValueError (msg : string)
| OSError (msg : string)
| FileNotFoundError (path : string)
| NotADirectoryError (path : string)
| NotImplementedError
| AssertionError
| IndexError
| TypeError
| SystemExit
| ZeroDivisionError
| OverflowError
| Raised (msg : string).

(** ** Strings *)

Definition nl  : string := String "010"%char EmptyString.
Definition tab : string := String "009"%char EmptyString.
Definition dq  : string := String "034"%char EmptyString.

(** [sep.join(l)] *)
Definition join (sep : string) (l : list string) : string := String.concat sep l.

(** [str(n)] for a non-negative [int] *)
Definition str_nat (n : nat) : string := pretty n.

(** [needle in hay] *)
Fixpoint contains (needle hay : string) : bool :=
  String.prefix needle hay ||
  match hay with
  | EmptyString => false
  | String _ hay' => contains needle hay'
  end.

(** [s.endswith(suffix)] *)
Definition endswith (s suffix : string) : bool :=
  bool_decide (String.substring (String.length s - String.length suffix)
                                (String.length suffix) s = suffix)
  && bool_decide (String.length suffix <= String.length s).

(** [s[-2:]] *)
Fixpoint last2 (s : string) : string :=
  match s with
  | EmptyString => EmptyString
  | String _ s' =>
      match s' with
      | String _ (String _ _) => last2 s'
      | _ => s
      end
  end.

(** [s.startswith(p)] *)
Definition startswith (s p : string) : bool := String.prefix p s.

Definition upper_ascii (c : ascii) : ascii :=
  let n := nat_of_ascii c in
  if (97 <=? n) && (n <=? 122) then ascii_of_nat (n - 32) else c.

(** [s.upper()] on ASCII text *)
Fixpoint upper (s : string) : string :=
  match s with
  | EmptyString => EmptyString
  | String c s' => String (upper_ascii c) (upper s')
  end.

(** [s.split(sep)] for a one-character separator: never returns [[]]. *)
Fixpoint split_go (sep : ascii) (acc : string) (s : string) : list string :=
  match s with
  | EmptyString => [String.rev acc]
  | String c s' =>
      if Ascii.eqb c sep then String.rev acc :: split_go sep EmptyString s'
      else split_go sep (String c acc) s'
  end.

Definition split (sep : ascii) (s : string) : list string :=
  split_go sep EmptyString s.

(** ** Floats *)

(** A finite [float] is the rational it denotes; the results of float
    arithmetic are rounded to binary64 by [b64]. Negative zero is the
    same rational as zero; infinities and NaN are no values here: an
    operation whose result is infinite has no result. *)

(** [math.floor(x)] *)
Definition floor (x : Q) : Z := Qfloor x.

(** Round half to even, as [format] does on the exact value. *)
Definition round_half_even (x : Q) : Z :=
  let f := Qfloor x in
  match (x - inject_Z f ?= 1 # 2)%Q with
  | Lt => f
  | Gt => (f + 1)%Z
  | Eq => if Z.even f then f else (f + 1)%Z
  end.

(** [2.0**e] *)
Definition pow2 (e : Z) : Q := Qpower 2 e.

(** The exponent of the binary64 numbers next to [x > 0]: they are the
    multiples of [2**e] of at most 53 bits; [-1074] is the exponent of
    the subnormal numbers. *)
Definition b64_exp (x : Q) : Z :=
  let e := (Z.log2 (Qnum x) - Z.log2 (Zpos (Qden x)) - 52)%Z in
  let e := if Qle_bool (pow2 52) (x / pow2 e) then e else (e - 1)%Z in
  Z.max e (-1074).

(** The binary64 number nearest to [x], ties to the even one, in lowest
    terms: the float a decimal literal denotes, and the result of a
    float operation whose exact result is [x]. [None] where the nearest
    number is an infinity ([2**1024] or beyond, after rounding). *)
Definition b64 (x : Q) : option Q :=
  if Qeq_bool x 0 then Some 0%Q
  else
    let e := b64_exp (Qabs x) in
    let m := round_half_even (Qabs x / pow2 e) in
    let y := Qred (inject_Z m * pow2 e) in
    if Qle_bool (pow2 1024) y then None
    else Some (if Qle_bool 0 x then y else Qred (- y)).

Definition two_digits (n : Z) : string :=
  (if (n <? 10)%Z then "0" else EmptyString) +:+ pretty n.

(** ["{:.2f}".format(x)] *)
Definition format_2f (x : Q) : string :=
  let n := Z.abs (round_half_even (x * 100)) in
  (if Qle_bool 0 x then EmptyString else "-")
  +:+ pretty (n / 100)%Z +:+ "." +:+ two_digits (n mod 100)%Z.

(** [str(x)] of a float is the shortest decimal that reads back as the
    same binary64 value; it is not a function this development
    computes, so the code is parameterised by it. *)
Class FloatRepr := { str_float : Q -> string }.

(** ** Containers *)

Section Dict.
Context {K V : Type} `{EqDecision K}.

(** [d.get(k)] / [k in d] / [d[k]] *)
Fixpoint dict_get (k : K) (d : list (K * V)) : option V :=
  match d with
  | [] => None
  | (k', v) :: d' => if decide (k = k') then Some v else dict_get k d'
  end.

(** [d[k] = v]: an existing key keeps its position. *)
Fixpoint dict_set (k : K) (v : V) (d : list (K * V)) : list (K * V) :=
  match d with
  | [] => [(k, v)]
  | (k', v') :: d' =>
      if decide (k = k') then (k, v) :: d' else (k', v') :: dict_set k v d'
  end.

(** [x in s] *)
Definition set_mem (x : K) (s : list K) : bool := bool_decide (x ∈ s).

(** [s.add(x)] *)
Definition set_add (x : K) (s : list K) : list K :=
  if set_mem x s then s else s ++ [x].
End Dict.

Section Sorted.
Context {A : Type}.
Variable lt : A -> A -> bool.

(** Insert [x] in front of the first element strictly greater than
    it, that is behind every element with an equal key: equal keys keep
    the order they came in. *)
Fixpoint insert_last (x : A) (l : list A) : list A :=
  match l with
  | [] => [x]
  | y :: l' => if lt x y then x :: y :: l' else y :: insert_last x l'
  end.

(** [sorted(l, key=...)]: a stable sort; [lt a b] compares the keys. *)
Definition sorted (l : list A) : list A :=
  fold_left (fun acc x => insert_last x acc) l [].

(** [x] comes no later than [y]. *)
Definition no_later (x y : A) : Prop := lt y x = false.
End Sorted.

(** ** Effects *)

(** A computation over a mutable state [S] that returns or raises; the
    state changes made before an exception stay. *)
Definition SM (S A : Type) : Type := S -> S * (exn + A).

Definition ret {S A} (a : A) : SM S A := fun s => (s, inr a).
Definition raise {S A} (e : exn) : SM S A := fun s => (s, inl e).
Definition bind {S A B} (m : SM S A) (k : A -> SM S B) : SM S B :=
  fun s => match m s with
           | (s', inr a) => k a s'
           | (s', inl e) => (s', inl e)
           end.
(** An already computed outcome, raised or returned. *)
Definition lift {S A} (r : exn + A) : SM S A := fun s => (s, r).
Definition gets {S A} (f : S -> A) : SM S A := fun s => (s, inr (f s)).
Definition modify {S} (f : S -> S) : SM S unit := fun s => (f s, inr tt).

Notation "x <- m ;; k" := (bind m (fun x => k))
  (at level 63, m at next level, right associativity).
Notation "m ;;; k" := (bind m (fun _ => k))
  (at level 63, right associativity).

(** [m], run from [s], returns in a state and with a value that satisfy
    [Q], or raises in a state and with an exception that satisfy [E]. *)
Definition wp {S A} (m : SM S A) (Q : S -> A -> Prop) (E : S -> exn -> Prop)
    (s : S) : Prop :=
  match m s with
  | (s', inr a) => Q s' a
  | (s', inl e) => E s' e
  end.

(** [for a in l: t = f(t, a)], stopping at the first exception. *)
Fixpoint foldM {S T A} (f : T -> A -> SM S T) (l : list A) (t : T) : SM S T :=
  match l with
  | [] => ret t
  | a :: l' => t' <- f t a ;; foldM f l' t'
  end.

(** [[f(c) for c in l]]: the first failure aborts. *)
Fixpoint map_exn {A B} (f : A -> exn + B) (l : list A) : exn + list B :=
  match l with
  | [] => inr []
  | x :: l' =>
      match f x with
      | inl e => inl e
      | inr y => match map_exn f l' with
                 | inl e => inl e
                 | inr ys => inr (y :: ys)
                 end
      end
  end.

End Py.
Export Py.

(* ================================================================== *)
(** * The process environment                                           *)
(* ================================================================== *)

Module Os.

(** What a build can observe or change outside its arguments. *)
Record World := mkWorld {
  cwd          : string;                    (* current working directory *)
  dirs         : list string;               (* existing directories *)
  files        : list (string * string);    (* file path -> contents *)
  sources      : list (string * string * string);  (* platform.sources *)
  sig_attr     : list (nat * string);       (* (duid, a) : a in signal.attr *)
  search_path  : list string;               (* executables [which] finds *)
  exit_status  : list string -> Z;          (* status a command exits with *)
  spawned      : list (list string);        (* subprocess calls so far *)
  now          : string;                    (* formatted current time *)
  sys_platform : string;                    (* sys.platform *)
  git_revision : string                     (* tools.get_litex_git_revision() *)
}.

Definition set_cwd (d : string) (w : World) : World :=
  mkWorld d (dirs w) (files w) (sources w) (sig_attr w) (search_path w)
          (exit_status w) (spawned w) (now w) (sys_platform w) (git_revision w).
Definition set_dirs (ds : list string) (w : World) : World :=
  mkWorld (cwd w) ds (files w) (sources w) (sig_attr w) (search_path w)
          (exit_status w) (spawned w) (now w) (sys_platform w) (git_revision w).
Definition set_files (fs : list (string * string)) (w : World) : World :=
  mkWorld (cwd w) (dirs w) fs (sources w) (sig_attr w) (search_path w)
          (exit_status w) (spawned w) (now w) (sys_platform w) (git_revision w).
Definition set_sources (ss : list (string * string * string)) (w : World) : World :=
  mkWorld (cwd w) (dirs w) (files w) ss (sig_attr w) (search_path w)
          (exit_status w) (spawned w) (now w) (sys_platform w) (git_revision w).
Definition set_sig_attr (sa : list (nat * string)) (w : World) : World :=
  mkWorld (cwd w) (dirs w) (files w) (sources w) sa (search_path w)
          (exit_status w) (spawned w) (now w) (sys_platform w) (git_revision w).
Definition set_spawned (sp : list (list string)) (w : World) : World :=
  mkWorld (cwd w) (dirs w) (files w) (sources w) (sig_attr w) (search_path w)
          (exit_status w) sp (now w) (sys_platform w) (git_revision w).

(** Computations that read and change the world and may raise. *)
Definition M (A : Type) : Type := SM World A.

(** ** Paths and the file system *)

(** The path [p] names when the current directory is [d]. *)
Definition resolve (d p : string) : string :=
  if startswith p "/" then p else d +:+ "/" +:+ p.

Definition getcwd : M string := gets cwd.

(** [os.makedirs(p, exist_ok=True)] *)
Definition makedirs (p : string) : M unit :=
  modify (fun w => set_dirs (set_add (resolve (cwd w) p) (dirs w)) w).

(** [os.chdir(p)] *)
Definition chdir (p : string) : M unit :=
  fun w => let d := resolve (cwd w) p in
           if set_mem d (dirs w) then (set_cwd d w, inr tt)
           else (w, inl (FileNotFoundError p)).

(** [os.path.exists(p)] *)
Definition path_exists (p : string) : M bool :=
  gets (fun w => let d := resolve (cwd w) p in
                 set_mem d (dirs w) || set_mem d (files w).*1).

Definition below (d p : string) : bool :=
  bool_decide (p = d) || startswith p (d +:+ "/").

(** [shutil.rmtree(p)] *)
Definition rmtree (p : string) : M unit :=
  fun w => let d := resolve (cwd w) p in
           if set_mem d (dirs w) then
             (set_files (filter (fun f => negb (below d f.1)) (files w))
                (set_dirs (filter (fun x => negb (below d x)) (dirs w)) w),
              inr tt)
           else if set_mem d (files w).*1 then (w, inl (NotADirectoryError p))
           else (w, inl (FileNotFoundError p)).

(** The entry of directory [d] that the path [p] is, if it is one. *)
Definition entry_of (d p : string) : option string :=
  let pre := d +:+ "/" in
  if startswith p pre then
    let name := String.substring (String.length pre)
                                 (String.length p - String.length pre) p in
    if contains "/" name || bool_decide (name = EmptyString) then None
    else Some name
  else None.

(** [os.listdir(p)] *)
Definition listdir (p : string) : M (list string) :=
  fun w => let d := resolve (cwd w) p in
           if set_mem d (dirs w) then
             (w, inr (omap (entry_of d) ((files w).*1 ++ dirs w)))
           else (w, inl (FileNotFoundError p)).

(** [with open(name, "w") as f: f.write(text)] *)
Definition write_file (name text : string) : M unit :=
  modify (fun w => set_files (dict_set (resolve (cwd w) name) text (files w)) w).

(** Contents of the file [name] names from the current directory. *)
Definition read_file (w : World) (name : string) : option string :=
  dict_get (resolve (cwd w) name) (files w).

(** ** Processes *)

(** [shutil.which(exe) is not None] *)
Definition which (exe : string) : M bool :=
  gets (fun w => set_mem exe (search_path w)).

(** [subprocess.call(argv)]: the exit status of the child; spawning a
    program that is not on the search path raises. *)
Definition subprocess_call (argv : list string) : M Z :=
  fun w => match argv with
           | [] => (w, inl IndexError)
           | exe :: _ =>
               if set_mem exe (search_path w)
               then (set_spawned (spawned w ++ [argv]) w, inr (exit_status w argv))
               else (w, inl (FileNotFoundError exe))
           end.

End Os.
Export Os.

(* ================================================================== *)
(** * migen and the generic platform (external collaborators)           *)
(* ================================================================== *)

Module Platform.

(** A migen signal, identified by the unique id migen assigns to it. *)
Record Signal := mkSignal { duid : nat }.

#[export] Instance Signal_eq_dec : EqDecision Signal.
Proof. solve_decision. Defined.

(** [vns.get_name] of the namespace the verilog conversion returns. *)
Definition Namespace := Signal -> string.

(** [signal.attr.add(a)] *)
Definition attr_add (s : Signal) (a : string) : M unit :=
  modify (fun w => set_sig_attr (set_add (duid s, a) (sig_attr w)) w).

(** Modelled from the spec: the constraint classes of
    litex/build/generic_platform.py, which is not among the sources,
    "the closed set of constraint-attribute kinds (pin location, IO
    standard, misc/pull)", each with the attribute the adapters read
    ([identifiers], [name], [misc]). [Other] stands for an object of any
    further class. [Pins(pin)] of the pin location of one assignment is
    [Pins [pin]]. *)
Inductive Constraint :=
| Pins (identifiers : list string)
| IOStandard (name : string)
| Misc (misc : string)
| Other (kind : string).

(** One row of the resolved signal table:
    [(name, pins, others, resource)]. *)
Definition NamedSC : Type := string * list string * list Constraint * string.

(** One row of [platform.sources]: [(path, language, library)]. *)
Definition SourceFile : Type := string * string * string.

(** The platform object as the toolchains use it. Its class
    (litex/build/generic_platform.py) is not among the sources, so what
    its methods do is a parameter: the outcome they have. *)
Record Platform := mkPlatform {
  device                : string;
  devicename            : string;
  verilog_include_paths : list string;
  (* fragment.get_fragment() and platform.finalize(fragment) *)
  finalize              : option exn;
  (* platform.get_verilog(...): the text and its namespace *)
  get_verilog           : exn + (string * Namespace);
  (* platform.resolve_signals(ns): named_sc, named_pc *)
  resolve_signals       : exn + (list NamedSC * list string);
  (* the row platform.add_source(filename) registers when called in
     the directory given first *)
  source_entry          : string -> string -> SourceFile
}.

Definition do_finalize (p : Platform) : M unit :=
  match finalize p with
  | None => ret tt
  | Some e => raise e
  end.

(** Modelled from the spec: [platform.add_source] of
    litex/build/generic_platform.py, which is not among the sources.
    "SourceFile: (path, language tag, library tag) ... appended to a
    per-build ordered list by the platform". *)
Definition add_source (p : Platform) (filename : string) : M unit :=
  modify (fun w => set_sources (sources w ++ [source_entry p (cwd w) filename]) w).

(** Modelled from the spec: [tools.write_to_file] of litex/build/tools.py,
    which is not among the sources: each emitter "writes exactly one file
    with a fixed, predictable name". *)
Definition write_to_file (name text : string) : M unit := write_file name text.

End Platform.
Export Platform.

(* ================================================================== *)
(** * Constraint bookkeeping shared by the adapters                     *)
(* ================================================================== *)

Module Constraints.

(** [math.floor(period*1e3)/1e3]: round to lowest picosecond.
    [period] is the float the caller passes, a decimal as Python reads
    it. The product and the quotient are binary64 operations;
    [math.floor] of an infinite product raises [OverflowError]. The
    integer [math.floor] returns is a float's integral part, so its
    conversion back to float for the division is exact. *)
Definition round_ps (period : Q) : exn + Q :=
  match b64 period ≫= (fun x => b64 (x * 1000)) with
  | None => inl OverflowError
  | Some y =>
      match b64 (inject_Z (floor y) / 1000) with
      | Some r => inr r
      | None => inl OverflowError
      end
  end.

(** ["Clock already constrained to {:.2f}ns, new constraint to {:.2f}ns"
     .format(old, new)] *)
Definition conflict_msg (old new : Q) : string :=
  "Clock already constrained to " +:+ format_2f old
  +:+ "ns, new constraint to " +:+ format_2f new +:+ "ns".

(** [clk in clocks and period != clocks[clk]]: the recorded period that
    the new one disagrees with. *)
Definition conflicting (clocks : list (Signal * Q)) (clk : Signal) (period : Q)
  : option Q :=
  match dict_get clk clocks with
  | Some old => if negb (Qeq_bool period old) then Some old else None
  | None => None
  end.

(** [lambda x: x[0].duid] as an order on dict items. *)
Definition by_duid (x y : Signal * Q) : bool := duid x.1 <? duid y.1.

(** [lambda x: (x[0].duid, x[1].duid)] as an order on pairs: tuples
    compare lexicographically. *)
Definition by_duid_pair (x y : Signal * Signal) : bool :=
  (duid x.1 <? duid y.1)
  || ((duid x.1 =? duid y.1) && (duid x.2 <? duid y.2)).

End Constraints.
Export Constraints.

(* ================================================================== *)
(** * Anlogic / Tang Dinasty  (litex/build/anlogic/anlogic.py)          *)
(* ================================================================== *)

Module Anlogic.

(** ** Constraints (.adc and .sdc) *)

(** [(f"{name}[{i}]", p, other) for i, p in enumerate(pins)] *)
Definition indexed (name : string) (pins : list string) (other : list Constraint)
  : list (string * string * list Constraint) :=
  imap (fun i p => (name +:+ "[" +:+ str_nat i +:+ "]", p, other)) pins.

Fixpoint flat_sc (named_sc : list NamedSC)
  : exn + list (string * string * list Constraint) :=
  match named_sc with
  | [] => inr []
  | (name, pins, other, resource) :: rest =>
      match (if 1 <? length pins then inr (indexed name pins other)
             else match pins with
                  | p :: _ => inr [(name, p, other)]
                  | [] => inl IndexError          (* pins[0] *)
                  end) with
      | inl e => inl e
      | inr rows =>
          match flat_sc rest with
          | inl e => inl e
          | inr rows' => inr (rows ++ rows')
          end
      end
  end.

Definition adc_constraint (c : Constraint) : string :=
  match c with
  | IOStandard name => " IOSTANDARD = " +:+ name +:+ "; "
  | _ => EmptyString
  end.

Definition adc_line (row : string * string * list Constraint) : string :=
  let '(name, pin, other) := row in
  "set_pin_assignment {" +:+ name +:+ "} { LOCATION = " +:+ pin +:+ "; "
  +:+ String.concat EmptyString (adc_constraint <$> other)
  +:+ "}}".

(** The text [_build_adc] writes. *)
Definition adc_text (named_sc : list NamedSC) (named_pc : list string)
  : exn + string :=
  match flat_sc named_sc with
  | inl e => inl e
  | inr rows => inr (join nl ((adc_line <$> rows) ++ named_pc))
  end.

Definition _build_adc (named_sc : list NamedSC) (named_pc : list string) : M unit :=
  text <- lift (adc_text named_sc named_pc) ;;
  write_file "top.adc" text.

Definition sdc_line `{FloatRepr} (vns : Namespace) (item : Signal * Q) : string :=
  let '(clk, period) := item in
  "create_clock -name " +:+ vns clk +:+ " -period " +:+ str_float period
  +:+ " [get_ports {" +:+ vns clk +:+ "}]".

(** The text [_build_sdc] writes. *)
Definition sdc_text `{FloatRepr} (clocks : list (Signal * Q)) (vns : Namespace)
  : string :=
  join nl (sdc_line vns <$> sorted by_duid clocks).

Definition _build_sdc `{FloatRepr} (clocks : list (Signal * Q)) (vns : Namespace)
  : M unit :=
  write_file "top.sdc" (sdc_text clocks vns).

(** ** Script *)

Definition attr (name val : string) : string :=
  "                    <Attr Name=" +:+ dq +:+ name +:+ dq
  +:+ " Val=" +:+ dq +:+ val +:+ dq +:+ "/>".

Definition file_entry (path belong order : string) : list string :=
  [ "            <File Path=" +:+ dq +:+ path +:+ dq +:+ ">";
    "                <FileInfo>";
    attr "UsedInSyn" "true";
    attr "UsedInP&R" "true";
    attr "BelongTo" belong;
    attr "CompileOrder" order;
    "               </FileInfo>";
    "            </File>" ].

(** The text [_build_al] writes; [date] is
    [datetime.datetime.now().strftime("%Y-%m-%d %H:%M:%S")]. *)
Definition al_text (date name family device : string) (files : list SourceFile)
  : string :=
  join nl
    ([ "<?xml version=" +:+ dq +:+ "1.0" +:+ dq +:+ " encoding=" +:+ dq +:+ "UTF-8" +:+ dq +:+ "?>";
       "<Project Version=" +:+ dq +:+ "1" +:+ dq +:+ " Path=" +:+ dq +:+ "..." +:+ dq +:+ ">";
       "    <Project_Created_Time>" +:+ date +:+ "</Project_Created_Time>";
       "    <TD_Version>5.0.28716</TD_Version>";
       "    <UCode>00000000</UCode>";
       "    <Name>" +:+ name +:+ "</Name>";
       "    <HardWare>";
       "        <Family>" +:+ family +:+ "</Family>";
       "        <Device>" +:+ device +:+ "</Device>";
       "    </HardWare>";
       "    <Source_Files>";
       "        <Verilog>" ]
     ++ concat ((fun '(f, typ, lib) => file_entry f "design_1" "1") <$> files)
     ++ [ "        </Verilog>";
          "        <ADC_FILE>" ]
     ++ file_entry "top.adc" "constrain_1" "1"
     ++ [ "        </ADC_FILE>";
          "        <SDC_FILE>" ]
     ++ file_entry "top.sdc" "constrain_1" "2"
     ++ [ "        </SDC_FILE>";
          "    </Source_Files>";
          "   <FileSets>";
          "        <FileSet Name=" +:+ dq +:+ "constrain_1" +:+ dq +:+ " Type=" +:+ dq +:+ "ConstrainFiles" +:+ dq +:+ ">";
          "        </FileSet>";
          "        <FileSet Name=" +:+ dq +:+ "design_1" +:+ dq +:+ " Type=" +:+ dq +:+ "DesignFiles" +:+ dq +:+ ">";
          "        </FileSet>";
          "    </FileSets>";
          "    <TOP_MODULE>";
          "        <LABEL></LABEL>";
          "        <MODULE>" +:+ name +:+ "</MODULE>";
          "        <CREATEINDEX>auto</CREATEINDEX>";
          "    </TOP_MODULE>";
          "    <Property>";
          "    </Property>";
          "    <Device_Settings>";
          "    </Device_Settings>";
          "    <Configurations>";
          "    </Configurations>";
          "    <Project_Settings>";
          "        <Step_Last_Change>" +:+ date +:+ "</Step_Last_Change>";
          "        <Current_Step>0</Current_Step>";
          "        <Step_Status>true</Step_Status>";
          "    </Project_Settings>";
          "</Project>" ]).

Definition _build_al (name family device : string) (files : list SourceFile)
  : M unit :=
  date <- gets now ;;
  write_file (name +:+ ".al") (al_text date name family device files).

(** The text [_build_tcl] writes. *)
Definition tcl_text (name architecture package : string) : string :=
  join nl
    [ "import_device " +:+ architecture +:+ ".db -package " +:+ package;
      "open_project " +:+ name +:+ ".al";
      "elaborate -top " +:+ name;
      "read_adc top.adc";
      "optimize_rtl";
      "read_sdc top.sdc";
      "optimize_gate";
      "legalize_phy_inst";
      "place";
      "route";
      "bitgen -bit " +:+ dq +:+ name +:+ ".bit" +:+ dq
        +:+ " -version 0X00 -g ucode:000000000000000000000000" ].

Definition _build_tcl (name architecture package : string) : M unit :=
  write_file "run.tcl" (tcl_text name architecture package).

(** ** TangDinastyToolchain *)

Definition devices : list (string * (string * string * string)) :=
  [ ("EG4S20BG256", ("eagle_s20", "EG4", "BG256")) ].

Definition parse_device (device : string) : exn + (string * string * string) :=
  match dict_get device devices with
  | None => inl (ValueError ("Invalid device " +:+ device))
  | Some r => inr r
  end.

Record TangDinastyToolchain := mk { clocks : list (Signal * Q) }.

Definition __init__ : TangDinastyToolchain := mk [].

Definition not_found_msg : string :=
  "Unable to find Tang Dinasty toolchain, please:" +:+ nl
  +:+ "- Add  Tang Dinasty toolchain to your $PATH.".

Definition failed_msg : string :=
  "Error occured during Tang Dinasty's script execution.".

Definition build `{FloatRepr} (self : TangDinastyToolchain) (platform : Platform)
    (build_dir build_name : string) (run : bool) : M Namespace :=
  (* Create build directory. *)
  cwd <- getcwd ;;
  makedirs build_dir ;;;
  chdir build_dir ;;;
  (* Finalize design. *)
  do_finalize platform ;;;
  (* Generate verilog. *)
  v_output <- lift (get_verilog platform) ;;
  named <- lift (resolve_signals platform) ;;
  let v_file := build_name +:+ ".v" in
  write_file v_file v_output.1 ;;;
  add_source platform v_file ;;;
  (* Generate constraints file. *)
  _build_adc named.1 named.2 ;;;
  _build_sdc (clocks self) v_output.2 ;;;
  parsed <- lift (parse_device (device platform)) ;;
  let '(architecture, family, package) := parsed in
  (* Generate project file (.al). *)
  srcs <- gets sources ;;
  _build_al build_name family (device platform) srcs ;;;
  (* Generate build script (.tcl). *)
  _build_tcl build_name architecture package ;;;
  (* Run. *)
  (if run then
     found <- which "td" ;;
     (if negb found then raise (OSError not_found_msg) else ret tt) ;;;
     status <- subprocess_call ["td"; "run.tcl"] ;;
     (if negb (status =? 0)%Z then raise (OSError failed_msg) else ret tt)
   else ret tt) ;;;
  chdir cwd ;;;
  ret v_output.2.

Definition add_period_constraint (self : TangDinastyToolchain)
    (clk : Signal) (period : Q) : M TangDinastyToolchain :=
  attr_add clk "keep" ;;;
  period <- lift (round_ps period) ;;   (* round to lowest picosecond *)
  match conflicting (clocks self) clk period with
  | Some old => raise (ValueError (conflict_msg old period))
  | None => ret (mk (dict_set clk period (clocks self)))
  end.

End Anlogic.

(* ================================================================== *)
(** * Microsemi / Libero SoC  (litex/build/microsemi/libero_soc.py)     *)
(* ================================================================== *)

Module Microsemi.

(** [str(signal)], which [str.format] applies to a [Signal] argument: the
    rendering migen gives the object; the namespace is not consulted. *)
Class SignalRepr := { str_signal : Signal -> string }.

(** ** Helpers *)

Definition tcl_name (name : string) : string := "{" +:+ name +:+ "}".

(** ** IO Constraints (.pdc) *)

Definition _format_io_constraint (c : Constraint) : exn + string :=
  match c with
  | Pins identifiers =>
      match identifiers with
      | i :: _ => inr ("-pin_name " +:+ i +:+ " ")
      | [] => inl IndexError
      end
  | IOStandard name => inr ("-io_std " +:+ name +:+ " ")
  | Misc misc => inr ("-RES_PULL " +:+ misc +:+ " ")
  | Other _ => inl NotImplementedError
  end.

Definition _format_io_pdc (signame pin : string) (others : list Constraint)
  : exn + string :=
  match map_exn _format_io_constraint (Pins [pin] :: others) with
  | inl e => inl e
  | inr fmt_c =>
      inr ("set_io " +:+ "-port_name " +:+ tcl_name signame +:+ " "
           +:+ String.concat EmptyString fmt_c
           +:+ "-fixed true "
           +:+ nl)
  end.

(** The entries one row of the signal table yields. *)
Definition io_pdc_row (row : NamedSC) : exn + list string :=
  let '(sig, pins, others, resname) := row in
  if 1 <? length pins then
    map_exn (fun ip : nat * string =>
               _format_io_pdc (sig +:+ "[" +:+ str_nat ip.1 +:+ "]") ip.2 others)
            (imap pair pins)
  else match pins with
       | p :: _ => match _format_io_pdc sig p others with
                   | inl e => inl e
                   | inr r => inr [r]
                   end
       | [] => inl IndexError
       end.

(** The text [_build_io_pdc] writes. *)
Definition io_pdc_text (named_sc : list NamedSC) (named_pc : list string)
    (additional_io_constraints : list string) : exn + string :=
  match map_exn io_pdc_row named_sc with
  | inl e => inl e
  | inr rows => inr (String.concat EmptyString (concat rows)
                     +:+ join nl additional_io_constraints)
  end.

Definition _build_io_pdc (named_sc : list NamedSC) (named_pc : list string)
    (build_name : string) (additional_io_constraints : list string) : M unit :=
  pdc <- lift (io_pdc_text named_sc named_pc additional_io_constraints) ;;
  write_to_file (build_name +:+ "_io.pdc") pdc.

(** ** Placement Constraints (.pdc) *)

Definition _build_fp_pdc (build_name : string)
    (additional_fp_constraints : list string) : M unit :=
  write_to_file (build_name +:+ "_fp.pdc") (join nl additional_fp_constraints).

(** ** Project (.tcl) *)

(** [die, package, speed = device.split("-")] *)
Definition split_device (device : string) : exn + (string * string * string) :=
  match split "-" device with
  | [die; package; speed] => inr (die, package, speed)
  | l => inl (ValueError
                (if length l <? 3
                 then "not enough values to unpack (expected 3, got "
                      +:+ str_nat (length l) +:+ ")"
                 else "too many values to unpack (expected 3)"))
  end.

(** The text [_build_tcl] writes; [listing] is [os.listdir(build_dir)]. *)
Definition tcl_text (die package speed : string) (sources : list SourceFile)
    (listing : list string) (build_name : string) : string :=
  join nl
    ([ join " "
         [ "new_project";
           "-location {./impl}";
           "-name " +:+ tcl_name build_name;
           "-project_description {}";
           "-block_mode 0";
           "-standalone_peripheral_initialization 0";
           "-instantiate_in_smartdesign 1";
           "-ondemand_build_dh 0";
           "-use_enhanced_constraint_flow 1";
           "-hdl {VERILOG}";
           "-family {PolarFire}";
           "-die {}";
           "-package {}";
           "-speed {}";
           "-die_voltage {}";
           "-part_range {}";
           "-adv_options {}" ];
       join " "
         [ "set_device";
           "-family {PolarFire}";
           "-die " +:+ tcl_name die;
           "-package " +:+ tcl_name package;
           "-speed " +:+ tcl_name ("-" +:+ speed);
           "-die_voltage {1.0}";
           "-part_range {EXT}";
           "-adv_options {IO_DEFT_STD:LVCMOS 1.8V}";
           "-adv_options {RESTRICTPROBEPINS:1}";
           "-adv_options {RESTRICTSPIPINS:0}";
           "-adv_options {TEMPR:EXT}";
           "-adv_options {UNUSED_MSS_IO_RESISTOR_PULL:None}";
           "-adv_options {VCCI_1.2_VOLTR:EXT}";
           "-adv_options {VCCI_1.5_VOLTR:EXT}";
           "-adv_options {VCCI_1.8_VOLTR:EXT}";
           "-adv_options {VCCI_2.5_VOLTR:EXT}";
           "-adv_options {VCCI_3.3_VOLTR:EXT}";
           "-adv_options {VOLTR:EXT} " ] ]
     (* Add sources *)
     ++ ((fun '(filename, language, library) =>
            "import_files -hdl_source " +:+ "{" +:+ filename +:+ "}") <$> sources)
     (* Set top level *)
     ++ [ "set_root -module " +:+ tcl_name build_name ]
     (* Copy init files *)
     ++ ((fun file => "file copy -- " +:+ file +:+ " impl/synthesis")
           <$> filter (fun file => endswith file ".init") listing)
     ++ [ (* Import io constraints *)
          "import_files -io_pdc " +:+ tcl_name (build_name +:+ "_io.pdc");
          (* Import floorplanner constraints *)
          "import_files -fp_pdc " +:+ tcl_name (build_name +:+ "_fp.pdc");
          (* Import timing constraints *)
          "import_files -convert_EDN_to_HDL 0 -sdc " +:+ tcl_name (build_name +:+ ".sdc");
          (* Associate constraints with tools *)
          join " "
            [ "organize_tool_files";
              "-tool {SYNTHESIZE}";
              "-file impl/constraint/" +:+ build_name +:+ ".sdc";
              "-module " +:+ build_name;
              "-input_type {constraint}" ];
          join " "
            [ "organize_tool_files";
              "-tool {PLACEROUTE}";
              "-file impl/constraint/io/" +:+ build_name +:+ "_io.pdc";
              "-file impl/constraint/fp/" +:+ build_name +:+ "_fp.pdc";
              "-file impl/constraint/" +:+ build_name +:+ ".sdc";
              "-module " +:+ build_name;
              "-input_type {constraint}" ];
          join " "
            [ "organize_tool_files";
              "-tool {VERIFYTIMING}";
              "-file impl/constraint/" +:+ build_name +:+ ".sdc";
              "-module " +:+ build_name;
              "-input_type {constraint}" ];
          "run_tool -name {CONSTRAINT_MANAGEMENT}";
          "run_tool -name {SYNTHESIZE}";
          "run_tool -name {PLACEROUTE}";
          "run_tool -name {GENERATEPROGRAMMINGDATA}";
          "run_tool -name {GENERATEPROGRAMMINGFILE}" ]).

Definition _build_tcl (platform : Platform) (sources : list SourceFile)
    (build_dir build_name : string) : M unit :=
  parts <- lift (split_device (device platform)) ;;
  let '(die, package, speed) := parts in
  listing <- listdir build_dir ;;
  write_to_file (build_name +:+ ".tcl")
                (tcl_text die package speed sources listing build_name).

(** ** Timing Constraints (.sdc) *)

(** ["create_clock -name {clk} -period " + str(period)
     + " [get_nets {clk}]".format(clk=vns.get_name(clk))]: [format]
    applies to the last literal only. *)
Definition create_clock_line `{FloatRepr} (vns : Namespace) (item : Signal * Q)
  : string :=
  let '(clk, period) := item in
  "create_clock -name {clk} -period " +:+ str_float period
  +:+ " [get_nets " +:+ vns clk +:+ "]".

Definition clock_groups_line `{SignalRepr} (pair : Signal * Signal) : string :=
  let '(from_, to) := pair in
  "set_clock_groups "
  +:+ "-group [get_clocks -include_generated_clocks -of [get_nets " +:+ str_signal from_ +:+ "]] "
  +:+ "-group [get_clocks -include_generated_clocks -of [get_nets " +:+ str_signal to +:+ "]] "
  +:+ "-asynchronous".

(** The text [_build_timing_sdc] writes. *)
Definition timing_sdc_text `{FloatRepr} `{SignalRepr} (vns : Namespace)
    (clocks : list (Signal * Q)) (false_paths : list (Signal * Signal))
    (additional_timing_constraints : list string) : string :=
  join nl ((create_clock_line vns <$> sorted by_duid clocks)
           ++ (clock_groups_line <$> sorted by_duid_pair false_paths)
           ++ additional_timing_constraints).

Definition _build_timing_sdc `{FloatRepr} `{SignalRepr} (vns : Namespace)
    (clocks : list (Signal * Q)) (false_paths : list (Signal * Signal))
    (build_name : string) (additional_timing_constraints : list string) : M unit :=
  write_to_file (build_name +:+ ".sdc")
    (timing_sdc_text vns clocks false_paths additional_timing_constraints).

(** ** Script *)

Definition is_windows (platform_name : string) : bool :=
  bool_decide (platform_name ∈ ["win32"; "cygwin"]).

Definition script_ext (platform_name : string) : string :=
  if is_windows platform_name then ".bat" else ".sh".

Definition script_contents (platform_name revision : string) : string :=
  if is_windows platform_name
  then "@echo off" +:+ nl +:+ "REM Autogenerated by LiteX / git: " +:+ revision +:+ nl +:+ nl
  else "# Autogenerated by LiteX / git: " +:+ revision +:+ nl.

Definition _build_script (build_name device : string) : M string :=
  plat <- gets sys_platform ;;
  rev <- gets git_revision ;;
  let script_file := "build_" +:+ build_name +:+ script_ext plat in
  write_to_file script_file (script_contents plat rev) ;;;
  ret script_file.

Definition failed_msg : string := "Subprocess failed".

Definition _run_script (script : string) : M unit :=
  plat <- gets sys_platform ;;
  let shell := if is_windows plat then ["cmd"; "/c"] else ["bash"] in
  status <- subprocess_call (shell ++ [script]) ;;
  if negb (status =? 0)%Z then raise (OSError failed_msg) else ret tt.

(** ** MicrosemiLiberoSoCPolarfireToolchain *)

Record MicrosemiLiberoSoCPolarfireToolchain := mk {
  clocks                        : list (Signal * Q);
  false_paths                   : list (Signal * Signal);
  additional_io_constraints     : list string;
  additional_fp_constraints     : list string;
  additional_timing_constraints : list string
}.

Definition __init__ : MicrosemiLiberoSoCPolarfireToolchain := mk [] [] [] [] [].

Definition build `{FloatRepr} `{SignalRepr}
    (self : MicrosemiLiberoSoCPolarfireToolchain) (platform : Platform)
    (build_dir build_name : string) (run : bool) : M Namespace :=
  (* Create build directory *)
  makedirs build_dir ;;;
  cwd <- getcwd ;;
  chdir build_dir ;;;
  (* Finalize design *)
  do_finalize platform ;;;
  (* Generate verilog *)
  v_output <- lift (get_verilog platform) ;;
  named <- lift (resolve_signals platform) ;;
  let top_file := build_name +:+ ".v" in
  write_file top_file v_output.1 ;;;
  add_source platform top_file ;;;
  (* Generate design script file (.tcl) *)
  srcs <- gets sources ;;
  _build_tcl platform srcs build_dir build_name ;;;
  (* Generate design io constraints file (.pdc) *)
  _build_io_pdc named.1 named.2 build_name (additional_io_constraints self) ;;;
  (* Generate design placement constraints file (.pdc) *)
  _build_fp_pdc build_name (additional_fp_constraints self) ;;;
  (* Generate design timing constraints file (.sdc) *)
  _build_timing_sdc v_output.2 (clocks self) (false_paths self) build_name
                    (additional_timing_constraints self) ;;;
  (* Generate build script *)
  script <- _build_script build_name (device platform) ;;
  (* Run *)
  (if run then
     (* Delete previous impl *)
     ex <- path_exists "impl" ;;
     (if ex then rmtree "impl" else ret tt) ;;;
     _run_script script
   else ret tt) ;;;
  chdir cwd ;;;
  ret v_output.2.

Definition add_period_constraint (self : MicrosemiLiberoSoCPolarfireToolchain)
    (clk : Signal) (period : Q) : M MicrosemiLiberoSoCPolarfireToolchain :=
  match conflicting (clocks self) clk period with
  | Some old => raise (ValueError (conflict_msg old period))
  | None => ret (mk (dict_set clk period (clocks self)) (false_paths self)
                    (additional_io_constraints self)
                    (additional_fp_constraints self)
                    (additional_timing_constraints self))
  end.

Definition add_false_path_constraint (self : MicrosemiLiberoSoCPolarfireToolchain)
    (from_ to : Signal) : M MicrosemiLiberoSoCPolarfireToolchain :=
  if negb (set_mem (to, from_) (false_paths self))
  then ret (mk (clocks self) (set_add (from_, to) (false_paths self))
               (additional_io_constraints self)
               (additional_fp_constraints self)
               (additional_timing_constraints self))
  else ret self.

End Microsemi.

(* ================================================================== *)
(** * OSFPGA  (litex/build/osfpga/osfpga.py)                            *)
(* ================================================================== *)

Module OSFPGA.

(** ** Timing Constraints (.sdc) *)

Definition sdc_line `{FloatRepr} (vns : Namespace) (item : Signal * Q) : string :=
  let '(clk, period) := item in
  "create_clock -name " +:+ vns clk +:+ " -period " +:+ str_float period
  +:+ " [get_ports {" +:+ vns clk +:+ "}]".

(** The text [_build_sdc] writes. *)
Definition sdc_text `{FloatRepr} (clocks : list (Signal * Q)) (vns : Namespace)
  : string :=
  join nl (sdc_line vns <$> sorted by_duid clocks).

Definition _build_sdc `{FloatRepr} (clocks : list (Signal * Q)) (vns : Namespace)
    (build_name : string) : M unit :=
  write_file (build_name +:+ ".sdc") (sdc_text clocks vns).

(** ** Script *)

(** The text [_build_tcl] writes. *)
Definition tcl_text (name device : string) (files : list SourceFile)
    (build_name : string) (include_paths : list string) : string :=
  join nl
    ([ "create_design " +:+ build_name;
       "target_device " +:+ upper device;
       "add_include_path ./" ]
     ++ ((fun include_path => "add_include_path " +:+ include_path) <$> include_paths)
     (* Add Sources. *)
     ++ ((fun '(f, typ, lib) => "add_design_file " +:+ f) <$> files)
     (* Set Top Module. *)
     ++ [ "set_top_module " +:+ build_name ]
     ++ [ "add_constraint_file " +:+ build_name +:+ ".sdc";
          "synth";
          "packing";
          "place";
          "route";
          "sta";
          "power";
          "bitstream" ]).

Definition _build_tcl (name device : string) (files : list SourceFile)
    (build_name : string) (include_paths : list string) : M unit :=
  write_file "build.tcl" (tcl_text name device files build_name include_paths).

(** ** OSFPGAToolchain *)

Record OSFPGAToolchain := mk {
  toolchain : string;
  clocks    : list (Signal * Q)
}.

Definition __init__ (toolchain : string) : OSFPGAToolchain := mk toolchain [].

Definition not_found_msg (toolchain_sh : string) : string :=
  "Unable to find " +:+ upper toolchain_sh +:+ " toolchain, please:" +:+ nl
  +:+ "- Add " +:+ upper toolchain_sh +:+ " toolchain to your $PATH.".

Definition failed_msg (toolchain_sh : string) : string :=
  "Error occured during " +:+ upper toolchain_sh +:+ "'s script execution.".

Definition build `{FloatRepr} (self : OSFPGAToolchain) (platform : Platform)
    (build_dir build_name : string) (run : bool) : M Namespace :=
  (* Create build directory. *)
  cwd <- getcwd ;;
  makedirs build_dir ;;;
  chdir build_dir ;;;
  (* Finalize design *)
  do_finalize platform ;;;
  (* Generate verilog *)
  v_output <- lift (get_verilog platform) ;;
  named <- lift (resolve_signals platform) ;;
  let v_file := build_name +:+ ".v" in
  write_file v_file v_output.1 ;;;
  add_source platform v_file ;;;
  (* Generate constraints file. IOs: TODO. *)
  (* Timings (.sdc) *)
  _build_sdc (clocks self) v_output.2 build_name ;;;
  (* Generate build script (.tcl) *)
  srcs <- gets sources ;;
  _build_tcl (devicename platform) (device platform) srcs build_name
             (verilog_include_paths platform) ;;;
  (* Run *)
  (if run then
     let toolchain_sh := toolchain self in
     found <- which toolchain_sh ;;
     (if negb found then raise (OSError (not_found_msg toolchain_sh)) else ret tt) ;;;
     status <- subprocess_call [toolchain_sh; "--batch"; "--script"; "build.tcl"] ;;
     (if negb (status =? 0)%Z then raise (OSError (failed_msg toolchain_sh))
      else ret tt)
   else ret tt) ;;;
  chdir cwd ;;;
  ret v_output.2.

Definition add_period_constraint (self : OSFPGAToolchain)
    (clk : Signal) (period : Q) : M OSFPGAToolchain :=
  attr_add clk "keep" ;;;
  period <- lift (round_ps period) ;;   (* round to lowest picosecond *)
  match conflicting (clocks self) clk period with
  | Some old => raise (ValueError (conflict_msg old period))
  | None => ret (mk (toolchain self) (dict_set clk period (clocks self)))
  end.

End OSFPGA.

(* ================================================================== *)
(** * QuickLogic / Symbiflow  (litex/build/quicklogic/symbiflow.py)     *)
(* ================================================================== *)

Module QuickLogic.

(** ** IO Constraints (.pcf) *)

(** [f"set_io {signame} {Pins(pin).identifiers[0]}\n"], where
    [Pins(pin).identifiers] is [[pin]]. *)
Definition _format_io_pcf (signame pin : string) (others : list Constraint)
  : string :=
  "set_io " +:+ signame +:+ " " +:+ pin +:+ nl.

(** The entries one row of the signal table yields. *)
Definition io_pcf_row (row : NamedSC) : exn + list string :=
  let '(sig, pins, others, resname) := row in
  if 1 <? length pins then
    inr (imap (fun i p => _format_io_pcf (sig +:+ "(" +:+ str_nat i +:+ ")") p others)
              pins)
  else match pins with
       | p :: _ => inr [_format_io_pcf sig p others]
       | [] => inl IndexError
       end.

(** The text [_build_io_pcf] writes. *)
Definition io_pcf_text (named_sc : list NamedSC) (named_pc : list string)
  : exn + string :=
  match map_exn io_pcf_row named_sc with
  | inl e => inl e
  | inr rows => inr (String.concat EmptyString (concat rows))
  end.

Definition _build_io_pcf (named_sc : list NamedSC) (named_pc : list string)
    (build_name : string) : M unit :=
  pcf <- lift (io_pcf_text named_sc named_pc) ;;
  write_to_file (build_name +:+ ".pcf") pcf.

(** ** Build Makefile *)

(** [{"ql-eos-s3": "PU64"}.get(device)], formatted. *)
Definition part_of (device : string) : string :=
  match dict_get device [("ql-eos-s3", "PU64")] with
  | Some part => part
  | None => "None"
  end.

(** The text [_build_makefile] writes. *)
Definition makefile_text (device build_name : string) : string :=
  join nl
    [ "mkfile_path := $(abspath $(lastword $(MAKEFILE_LIST)))";
      "current_dir := $(patsubst %/,%,$(dir $(mkfile_path)))";
      "TOP_F=" +:+ build_name;
      "all: " +:+ build_name +:+ "_bit.h " +:+ build_name +:+ ".bin build/"
        +:+ build_name +:+ ".bit";
      "build/" +:+ build_name +:+ ".bit:";
      tab +:+ "ql_symbiflow -compile -d " +:+ device +:+ " -P " +:+ part_of device
        +:+ " -v " +:+ (build_name +:+ ".v") +:+ " -t " +:+ build_name
        +:+ " -p " +:+ (build_name +:+ ".pcf");
      build_name +:+ "_bit.h: build/" +:+ build_name +:+ ".bit";
      tab +:+ "(cd build; TOP_F=$(TOP_F) symbiflow_write_bitheader)";
      build_name +:+ ".bin: build/" +:+ build_name +:+ ".bit";
      tab +:+ "(cd build; TOP_F=$(TOP_F) symbiflow_write_binary)" ].

Definition _build_makefile (platform : Platform) (sources : list SourceFile)
    (build_dir build_name : string) : M unit :=
  write_to_file "Makefile" (makefile_text (device platform) build_name).

Definition not_found_msg : string :=
  "Unable to find QuickLogic Symbiflow toolchain, please:" +:+ nl
  +:+ "- Add QuickLogic Symbiflow toolchain to your $PATH.".

Definition failed_msg : string :=
  "Error occured during QuickLogic Symbiflow's script execution.".

Definition _run_make : M unit :=
  let make_cmd := ["make"; "-j1"] in
  found <- which "ql_symbiflow" ;;
  (if negb found then raise (OSError not_found_msg) else ret tt) ;;;
  status <- subprocess_call make_cmd ;;
  if negb (status =? 0)%Z then raise (OSError failed_msg) else ret tt.

(** ** SymbiflowToolchain *)

Record SymbiflowToolchain := mk {
  clocks      : list (Signal * Q);
  false_paths : list (Signal * Signal)
}.

Definition __init__ : SymbiflowToolchain := mk [] [].

Definition build (self : SymbiflowToolchain) (platform : Platform)
    (build_dir build_name : string) (run : bool) : M Namespace :=
  (* Create build directory. *)
  makedirs build_dir ;;;
  cwd <- getcwd ;;
  chdir build_dir ;;;
  (* Finalize design. *)
  do_finalize platform ;;;
  (* Generate verilog. *)
  v_output <- lift (get_verilog platform) ;;
  named <- lift (resolve_signals platform) ;;
  let top_file := build_name +:+ ".v" in
  write_file top_file v_output.1 ;;;
  add_source platform top_file ;;;
  (* Generate .pcf IO constraints file. *)
  _build_io_pcf named.1 named.2 build_name ;;;
  (* Generate Makefie. *)
  srcs <- gets sources ;;
  _build_makefile platform srcs build_dir build_name ;;;
  (* Run. *)
  (if run then _run_make else ret tt) ;;;
  chdir cwd ;;;
  ret v_output.2.

End QuickLogic.

(* ================================================================== *)
(** * Efinix PLL  (litex/soc/cores/clock/efinix.py)                     *)
(* ================================================================== *)

Module Efinix.

(** The three classes of the file. *)
Inductive PLLClass := EFINIXPLL_ | TITANIUMPLL | TRIONPLL.

(** The class attribute [nclkouts_max]. *)
Definition nclkouts_max (c : PLLClass) : nat :=
  match c with
  | EFINIXPLL_ => 3
  | TITANIUMPLL => 5
  | TRIONPLL => 3
  end.

(** One entry of [block["clk_out"]]: [[clk_out_name, freq, phase, margin]]. *)
Definition ClkOut : Type := string * Q * Q * Q.

(** The interface-writer block of a PLL, reduced to the keys this file
    sets at creation and in [create_clkout]. *)
Record Block := mkBlock {
  b_name    : string;
  b_version : string;
  clk_out   : list ClkOut
}.

(** The platform and toolchain objects as the PLL uses them. Their code
    (litex/build/efinix) is not among the sources, so what their methods
    do is a parameter. [request] is the outcome of
    [platform.add_extension] and [platform.request] for a resource name:
    nothing, or the message of the exception they raise. [get_block] is
    the position in [ifacewriter.blocks] of the block that
    [ifacewriter.get_block(name)] returns, [None] when it returns
    [None]. *)
Record EfxPlatform := mkEfx {
  additional_sdc_commands : list string;
  excluded_ios            : list string;
  blocks                  : list Block;        (* ifacewriter.blocks *)
  iface_ios               : list string;       (* interface signals *)
  request                 : string -> option string;
  get_block               : string -> list Block -> option nat
}.

(** [platform.add_iface_io(name)] is code of the Efinix platform too.
    It is a method on the signals of the platform: what it makes of
    the interface signals and of the excluded signals, [(iface_ios,
    excluded_ios)], is a parameter; the blocks of the interface writer
    and the timing commands are not its matter. *)
Class IfaceIO := {
  add_iface_io : string -> list string * list string -> list string * list string
}.

(** The PLL object. [comb] and [specials] list the statements added to
    the module, by the name of the resource they drive. *)
Record PLL := mkPLL {
  cls      : PLLClass;
  type     : string;
  nclkouts : nat;
  name     : string;
  comb     : list string;
  specials : list string
}.

(** The objects a method call can change. *)
Record State := mkState { self : PLL; platform : EfxPlatform }.

Definition E (A : Type) : Type := SM State A.

Definition set_self (f : PLL -> PLL) : E unit :=
  modify (fun s => mkState (f (self s)) (platform s)).
Definition set_platform (f : EfxPlatform -> EfxPlatform) : E unit :=
  modify (fun s => mkState (self s) (f (platform s))).

(** [EFINIXPLL.__init__(self, platform, n, version)] for an object of
    class [c]; [quit()] raises [SystemExit]. *)
Definition __init__ `{IfaceIO} (c : PLLClass) (p : EfxPlatform) (n : nat)
    (version : string) : EfxPlatform * (exn + PLL) :=
  match (if bool_decide (version = "V1_V2") then inr "TRIONPLL"
         else if bool_decide (version = "V3") then inr "TITANIUMPLL"
         else inl SystemExit) with
  | inl e => (p, inl e)
  | inr ty =>
      let name := "pll" +:+ str_nat n in
      (* Create PLL block. *)
      let block := mkBlock name version [] in
      (* Connect PLL's rstn/locked. *)
      let ios := add_iface_io (name +:+ "_locked")
                   (add_iface_io (name +:+ "_rstn") (iface_ios p, excluded_ios p)) in
      (mkEfx (additional_sdc_commands p) ios.2 (blocks p ++ [block]) ios.1
             (request p) (get_block p),
       inr (mkPLL c ty 0 name [name +:+ "_rstn"; name +:+ "_locked"] []))
  end.

(** [TITANIUMPLL(platform, n)] and [TRIONPLL(platform, n)] *)
Definition new_TITANIUMPLL `{IfaceIO} (p : EfxPlatform) (n : nat) :=
  __init__ TITANIUMPLL p n "V3".
Definition new_TRIONPLL `{IfaceIO} (p : EfxPlatform) (n : nat) :=
  __init__ TRIONPLL p n "V1_V2".

(** [block = ifacewriter.get_block(name); block["clk_out"].append(entry)]:
    the block is changed where it is; subscripting [None] is a
    [TypeError]. *)
Definition append_clk_out (p : EfxPlatform) (name : string) (entry : ClkOut)
  : exn + list Block :=
  match get_block p name (blocks p) with
  | Some i =>
      match blocks p !! i with
      | Some b =>
          inr (<[i := mkBlock (b_name b) (b_version b) (clk_out b ++ [entry])]> (blocks p))
      | None => inl TypeError
      end
  | None => inl TypeError
  end.

Definition create_clkout `{FloatRepr} (cd : option string) (freq phase margin : Q)
    (name_arg : string) (with_reset : bool) : E unit :=
  s <- gets self ;;
  (* assert self.nclkouts < self.nclkouts_max *)
  (if nclkouts s <? nclkouts_max (cls s) then ret tt else raise AssertionError) ;;;
  let clk_out_name :=
    if bool_decide (name_arg = EmptyString)
    then name s +:+ "_clkout" +:+ str_nat (nclkouts s) else name_arg in
  period <- (if Qeq_bool freq 0 then raise ZeroDivisionError
             else ret (1000000000 / freq)%Q) ;;
  set_platform (fun p =>
    mkEfx (additional_sdc_commands p
             ++ ["create_clock -period " +:+ str_float period +:+ " " +:+ clk_out_name])
          (excluded_ios p) (blocks p) (iface_ios p) (request p) (get_block p)) ;;;
  (match cd with
   | Some cd_name =>
       p <- gets platform ;;
       (* platform.add_extension(...); platform.request(clk_out_name) *)
       (match request p clk_out_name with
        | Some msg => raise (Raised msg)
        | None => ret tt
        end) ;;;
       set_self (fun s => mkPLL (cls s) (type s) (nclkouts s) (name s)
                            (comb s ++ [clk_out_name])
                            (if with_reset then specials s ++ [cd_name]
                             else specials s)) ;;;
       set_platform (fun p =>
         mkEfx (additional_sdc_commands p) (excluded_ios p ++ [clk_out_name])
               (blocks p) (iface_ios p) (request p) (get_block p))
   | None => ret tt
   end) ;;;
  (* create_clkout_log(...) only logs *)
  s <- gets self ;;
  let nc := nclkouts s in
  set_self (fun s => mkPLL (cls s) (type s) (nclkouts s + 1) (name s)
                       (comb s) (specials s)) ;;;
  p <- gets platform ;;
  bs <- lift (append_clk_out p (name s) (clk_out_name, freq, phase, margin)) ;;
  set_platform (fun p =>
    mkEfx (additional_sdc_commands p) (excluded_ios p) bs (iface_ios p) (request p)
          (get_block p)).

(** One [create_clkout] call with its arguments. *)
Record Call := mkCall {
  c_cd : option string; c_freq : Q; c_phase : Q; c_margin : Q;
  c_name : string; c_with_reset : bool
}.

Definition call `{FloatRepr} (c : Call) : E unit :=
  create_clkout (c_cd c) (c_freq c) (c_phase c) (c_margin c) (c_name c)
                (c_with_reset c).

(** A client making the calls [cs] one after the other, going on after a
    call that raised; returns the outcome of each call. *)
Fixpoint calls `{FloatRepr} (cs : list Call) (s : State)
  : State * list (exn + unit) :=
  match cs with
  | [] => (s, [])
  | c :: cs' =>
      let '(s1, r) := call c s in
      let '(s2, rs) := calls cs' s1 in
      (s2, r :: rs)
  end.

(** The calls that returned normally. *)
Definition returned (r : exn + unit) : bool :=
  match r with inr _ => true | inl _ => false end.

Definition completed (rs : list (exn + unit)) : nat :=
  length (filter (fun r => returned r) rs).

End Efinix.

(* ================================================================== *)
(** * Vocabulary of the properties                                      *)
(* ================================================================== *)

Module Props.

(** The bytes an emitter leaves in the file [name] (seen from the
    directory it ran in), or the exception it raised. *)
Definition emitted {A} (m : M A) (name : string) (w : World) : exn + option string :=
  match m w with
  | (w', inr _) => inr (read_file w' name)
  | (_, inl e) => inl e
  end.

(** The text by which an emitted entry can show an attribute. *)
Definition attr_value (c : Constraint) : string :=
  match c with
  | Pins identifiers => join " " identifiers
  | IOStandard name => name
  | Misc misc => misc
  | Other kind => kind
  end.

(** The entry [e] carries the attribute [c]. *)
Definition carries (e : string) (c : Constraint) : bool := contains (attr_value c) e.

(** The electrical attributes of a signal: IO standard and pull
    resistor. *)
Definition formattable (c : Constraint) : bool :=
  match c with
  | IOStandard _ | Misc _ => true
  | _ => false
  end.

(** [Microsemi._format_io_constraint] on those. *)
Definition io_attr_text (c : Constraint) : string :=
  match c with
  | IOStandard name => "-io_std " +:+ name +:+ " "
  | Misc misc => "-RES_PULL " +:+ misc +:+ " "
  | _ => EmptyString
  end.

(** The entries one row of the signal table yields in the Anlogic
    [.adc] file. *)
Definition adc_entries (row : NamedSC) : exn + list string :=
  match Anlogic.flat_sc [row] with
  | inl e => inl e
  | inr rows => inr (Anlogic.adc_line <$> rows)
  end.

(** The stored false-path pairs that stand for the unordered pair
    [{a, b}]. *)
Definition stored_for (a b : Signal) (false_paths : list (Signal * Signal)) : nat :=
  length (filter (fun p => p = (a, b) \/ p = (b, a)) false_paths).

(** At most one direction of every unordered pair. *)
Definition one_direction (l : list (Signal * Signal)) : Prop :=
  forall a b, (a, b) ∈ l -> (b, a) ∈ l -> a = b.

(** The state of a false-path set that calls of
    [add_false_path_constraint] keep: no pair twice, in either direction. *)
Definition canonical (false_paths : list (Signal * Signal)) : Prop :=
  NoDup false_paths /\ one_direction false_paths.

(** A world as a process sees it when it starts: the current directory
    is an absolute path of an existing directory. *)
Definition well_formed (w : World) : Prop :=
  startswith (cwd w) "/" = true /\ cwd w ∈ dirs w.

(** The world after [clk.attr.add("keep")]. *)
Definition kept (clk : Signal) (w : World) : World := (attr_add clk "keep" w).1.

(** What [Microsemi.add_period_constraint] stores on success. *)
Definition microsemi_with_clock (self : Microsemi.MicrosemiLiberoSoCPolarfireToolchain)
    (clk : Signal) (p : Q) : Microsemi.MicrosemiLiberoSoCPolarfireToolchain :=
  Microsemi.mk (dict_set clk p (Microsemi.clocks self)) (Microsemi.false_paths self)
               (Microsemi.additional_io_constraints self)
               (Microsemi.additional_fp_constraints self)
               (Microsemi.additional_timing_constraints self).

(** What [Microsemi.add_false_path_constraint] stores. *)
Definition fp_add (false_paths : list (Signal * Signal)) (from_ to : Signal)
  : list (Signal * Signal) :=
  if negb (set_mem (to, from_) false_paths) then set_add (from_, to) false_paths
  else false_paths.

Definition microsemi_with_false_paths
    (self : Microsemi.MicrosemiLiberoSoCPolarfireToolchain)
    (fp : list (Signal * Signal)) : Microsemi.MicrosemiLiberoSoCPolarfireToolchain :=
  Microsemi.mk (Microsemi.clocks self) fp
               (Microsemi.additional_io_constraints self)
               (Microsemi.additional_fp_constraints self)
               (Microsemi.additional_timing_constraints self).

(** A client calling [add_false_path_constraint] for each pair of [cs]. *)
Definition add_false_paths (cs : list (Signal * Signal))
    (self : Microsemi.MicrosemiLiberoSoCPolarfireToolchain)
  : M Microsemi.MicrosemiLiberoSoCPolarfireToolchain :=
  foldM (fun t c => Microsemi.add_false_path_constraint t c.1 c.2) cs self.

(** Where a build that started in [w] with [build_dir] leaves the
    process: in the directory it started in when it returns, in the
    build directory when it raises. *)
Definition leaves_cwd {A} (w : World) (build_dir : string)
    (outcome : World * (exn + A)) : Prop :=
  match outcome with
  | (w', inr _) => cwd w' = cwd w
  | (w', inl _) => cwd w' = resolve (cwd w) build_dir
  end.

(** The steps of a build before Run raise nothing: the design
    finalizes and converts, and the emitters accept the tables. *)
Definition converts (p : Platform) (v : string * Namespace)
    (named : list NamedSC * list string) : Prop :=
  finalize p = None /\ get_verilog p = inr v /\ resolve_signals p = inr named.

Definition anlogic_ready (p : Platform) : Prop :=
  exists v named text parsed,
    converts p v named /\
    Anlogic.adc_text named.1 named.2 = inr text /\
    Anlogic.parse_device (device p) = inr parsed.

Definition osfpga_ready (p : Platform) : Prop :=
  exists v named, converts p v named.

Definition quicklogic_ready (p : Platform) : Prop :=
  exists v named text,
    converts p v named /\ QuickLogic.io_pcf_text named.1 named.2 = inr text.

Definition microsemi_ready (p : Platform)
    (self : Microsemi.MicrosemiLiberoSoCPolarfireToolchain) : Prop :=
  exists v named text parts,
    converts p v named /\
    Microsemi.split_device (device p) = inr parts /\
    Microsemi.io_pdc_text named.1 named.2
      (Microsemi.additional_io_constraints self) = inr text.

(** What a Microsemi build with run requested needs of the host: the
    shell that runs the script is on the search path, the [impl] entry
    of the build directory is not a plain file, and the start directory
    is not inside it. *)
Definition shell_of (w : World) : list string :=
  if Microsemi.is_windows (sys_platform w) then ["cmd"; "/c"] else ["bash"].

Definition microsemi_host (w : World) (build_dir : string) : Prop :=
  (if Microsemi.is_windows (sys_platform w) then "cmd" else "bash") ∈ search_path w
  /\ (resolve build_dir "impl" ∈ dirs w \/ resolve build_dir "impl" ∉ (files w).*1)
  /\ below (resolve build_dir "impl") (cwd w) = false.

(** What [Microsemi._format_io_pdc] returns for attributes it formats. *)
Definition pdc_entry (signame pin : string) (others : list Constraint) : string :=
  "set_io " +:+ "-port_name " +:+ Microsemi.tcl_name signame +:+ " "
  +:+ String.concat EmptyString (("-pin_name " +:+ pin +:+ " ") :: (io_attr_text <$> others))
  +:+ "-fixed true " +:+ nl.

(** [get_block] returns a registered block whenever one has the name. *)
Definition finds (g : string -> list Efinix.Block -> option nat) : Prop :=
  forall name bs, name ∈ Efinix.b_name <$> bs ->
    exists i, g name bs = Some i /\ i < length bs.

(** The PLL's block is registered: what [__init__] establishes. *)
Definition registered (s : Efinix.State) : Prop :=
  Efinix.name (Efinix.self s) ∈ Efinix.b_name <$> Efinix.blocks (Efinix.platform s).

(** [get_block(self.name)] returns a block in the state [s]. *)
Definition found (s : Efinix.State) : Prop :=
  exists i, Efinix.get_block (Efinix.platform s) (Efinix.name (Efinix.self s))
              (Efinix.blocks (Efinix.platform s)) = Some i
            /\ i < length (Efinix.blocks (Efinix.platform s)).

(** What no call changes: the class and the name of the PLL, the names
    of the registered blocks, and [get_block]. *)
Definition same_pll (s s' : Efinix.State) : Prop :=
  Efinix.cls (Efinix.self s') = Efinix.cls (Efinix.self s)
  /\ Efinix.name (Efinix.self s') = Efinix.name (Efinix.self s)
  /\ Efinix.b_name <$> Efinix.blocks (Efinix.platform s')
     = Efinix.b_name <$> Efinix.blocks (Efinix.platform s)
  /\ Efinix.get_block (Efinix.platform s') = Efinix.get_block (Efinix.platform s).

(** The state after a call that changed the counter by [k]. *)
Definition counted (s s' : Efinix.State) (k : nat) : Prop :=
  same_pll s s'
  /\ Efinix.nclkouts (Efinix.self s') = Efinix.nclkouts (Efinix.self s) + k.

(** A client calling [add_period_constraint] for each item of [pcs]. *)
Definition anlogic_add_periods (pcs : list (Signal * Q))
    (self : Anlogic.TangDinastyToolchain) : M Anlogic.TangDinastyToolchain :=
  foldM (fun t c => Anlogic.add_period_constraint t c.1 c.2) pcs self.

Definition osfpga_add_periods (pcs : list (Signal * Q))
    (self : OSFPGA.OSFPGAToolchain) : M OSFPGA.OSFPGAToolchain :=
  foldM (fun t c => OSFPGA.add_period_constraint t c.1 c.2) pcs self.

Definition microsemi_add_periods (pcs : list (Signal * Q))
    (self : Microsemi.MicrosemiLiberoSoCPolarfireToolchain)
  : M Microsemi.MicrosemiLiberoSoCPolarfireToolchain :=
  foldM (fun t c => Microsemi.add_period_constraint t c.1 c.2) pcs self.

(** The period has a rounded value: [round_ps] does not raise on it. *)
Definition rounds (p : Q) : Prop := exists r, round_ps p = inr r.

(** The rounded value of a period that has one. *)
Definition rounded_period (p : Q) : Q :=
  match round_ps p with inr r => r | inl _ => 0%Q end.


End Props.
Export Props.

(* ================================================================== *)
(** * Concrete inputs                                                   *)
(* ================================================================== *)

Module Examples.

(** A float rendering that agrees with Python's on multiples of 0.001 of
    ordinary size: [10.0], [100.001], [0.05]. *)
Definition str_millis (x : Q) : string :=
  let k := Z.abs (Qfloor (x * 1000)) in
  let frac := (k mod 1000)%Z in
  (if Qle_bool 0 x then EmptyString else "-") +:+ pretty (k / 1000)%Z +:+ "." +:+
  (if (frac =? 0)%Z then "0"
   else if (frac mod 100 =? 0)%Z then pretty (frac / 100)%Z
   else if (frac mod 10 =? 0)%Z then two_digits (frac / 10)%Z
   else (if (frac <? 100)%Z then "0" else EmptyString) +:+ two_digits frac).

Definition millis : FloatRepr := {| str_float := str_millis |}.

Definition by_id : Microsemi.SignalRepr :=
  {| Microsemi.str_signal := fun s => "<Signal " +:+ str_nat (duid s) +:+ ">" |}.

Definition sysclk : Signal := mkSignal 1.
Definition usbclk : Signal := mkSignal 2.

Definition names : Namespace :=
  fun s => if decide (s = sysclk) then "sysclk" else "clk" +:+ str_nat (duid s).

(** A Linux host on which the listed programs are on the search path and
    every program that runs exits with [status]. *)
Definition host (programs : list string) (status : Z) : World :=
  mkWorld "/home/user/proj" ["/home/user/proj"] [] [] [] programs
          (fun _ => status) [] "2021-06-01 12:00:00" "linux" "0123abc".

(** The same host one second later. *)
Definition host_later (programs : list string) (status : Z) : World :=
  mkWorld "/home/user/proj" ["/home/user/proj"] [] [] [] programs
          (fun _ => status) [] "2021-06-01 12:00:01" "linux" "0123abc".

Definition led : NamedSC := ("led", ["A1"], [IOStandard "LVCMOS33"], "user_led").
Definition leds : NamedSC :=
  ("led", ["A1"; "A2"; "A3"], [IOStandard "LVCMOS33"; Misc "UP"], "user_led").

(** A platform whose design finalizes and converts, for [device]. *)
Definition board (device : string) (table : list NamedSC) : Platform :=
  mkPlatform device "board" [] None (inr ("module top();", names)) (inr (table, []))
             (fun d f => (resolve d f, "verilog", "work")).

(** A platform whose design is already finalized. *)
Definition finalized_board : Platform :=
  mkPlatform "EG4S20BG256" "board" [] (Some (Raised "already finalized"))
             (inr ("module top();", names)) (inr ([led], []))
             (fun d f => (resolve d f, "verilog", "work")).

(** A [get_block] that returns the first block of that name. *)
Definition first_named (name : string) (bs : list Efinix.Block) : option nat :=
  fst <$> list_find (fun b => Efinix.b_name b = name) bs.

(** A platform on which nothing is registered yet and every request
    is granted. *)
Definition no_requests : Efinix.EfxPlatform :=
  Efinix.mkEfx [] [] [] [] (fun _ => None) first_named.

Definition clkout (mhz : Z) : Efinix.Call :=
  Efinix.mkCall (Some "sys") (inject_Z (mhz * 1000000)) 0 0 EmptyString true.

(** An [add_iface_io] that notes the signal as an interface signal and
    as an excluded one. *)
Definition noted : Efinix.IfaceIO :=
  {| Efinix.add_iface_io := fun name ios => (ios.1 ++ [name], ios.2 ++ [name]) |}.

End Examples.

(* ================================================================== *)
(** * Further properties: what they speak of                           *)
(* ================================================================== *)

Module Text.
(** [c in s] for a character. *)
Fixpoint has_char (c : ascii) (s : string) : bool :=
  match s with
  | EmptyString => false
  | String c' s' => Ascii.eqb c' c || has_char c s'
  end.
End Text.
Export Text.

Module Series.

(** The [clocks] dict after one call of [add_period_constraint] that
    compares and stores [f period], when it does not raise. *)
Definition record_period (f : Q -> Q) (clocks : list (Signal * Q)) (cp : Signal * Q)
  : option (list (Signal * Q)) :=
  match conflicting clocks cp.1 (f cp.2) with
  | Some _ => None
  | None => Some (dict_set cp.1 (f cp.2) clocks)
  end.

(** ... and after a series of calls, when none raises. *)
Fixpoint record_periods (f : Q -> Q) (pcs : list (Signal * Q))
    (clocks : list (Signal * Q)) : option (list (Signal * Q)) :=
  match pcs with
  | [] => Some clocks
  | cp :: pcs' =>
      match record_period f clocks cp with
      | Some clocks' => record_periods f pcs' clocks'
      | None => None
      end
  end.

(** The periods asked for one clock agree, as [f] sees them. *)
Definition agree (f : Q -> Q) (pcs : list (Signal * Q)) : Prop :=
  forall c p q, (c, p) ∈ pcs -> (c, q) ∈ pcs -> (f p == f q)%Q.

(** The periods asked agree with the ones already recorded. *)
Definition fits (f : Q -> Q) (pcs clocks : list (Signal * Q)) : Prop :=
  forall c p r, (c, p) ∈ pcs -> dict_get c clocks = Some r -> (f p == r)%Q.

End Series.
Export Series.

Module Rows.

(** The pins of a row of the signal table. *)
Definition pins_of (row : NamedSC) : list string := row.1.1.2.

(** The attributes of a row of the signal table. *)
Definition others_of (row : NamedSC) : list Constraint := row.1.2.

(** The row binds its signal to at least one pin. *)
Definition has_pin (row : NamedSC) : bool :=
  match pins_of row with [] => false | _ => true end.

(** An attribute [Microsemi._format_io_constraint] has a format for. *)
Definition pdc_ok (c : Constraint) : bool :=
  match c with
  | Pins [] | Other _ => false
  | _ => true
  end.

End Rows.
Export Rows.

Module Steps.
(** The world once a build has made its directory and changed into it. *)
Definition entered (build_dir : string) (w : World) : World :=
  let bd := resolve (cwd w) build_dir in
  set_cwd bd (set_dirs (set_add bd (dirs w)) w).

(** What is seen of a build that stopped with [e] once it had made and
    entered its directory: [r] is what the build returned from [w]. *)
Definition stopped {A} (build_dir : string) (e : exn) (w : World)
    (r : World * (exn + A)) : Prop :=
  r.2 = inl e
  /\ cwd r.1 = resolve (cwd w) build_dir
  /\ resolve (cwd w) build_dir ∈ dirs r.1
  /\ files r.1 = files w /\ sources r.1 = sources w /\ spawned r.1 = spawned w.

(** A relative path of plain names: no part of it is empty, [.] or
    [..]. On such a path [resolve], which does not normalise, names
    the directory the operating system does. *)
Definition plain (p : string) : bool :=
  forallb (fun part => negb (bool_decide (part ∈ [EmptyString; "."; ".."])))
          (split "/" p).
End Steps.
Export Steps.

Module Outputs.
(** [clk_out_name] of the call [c] made when the counter is [k]. *)
Definition clkout_name (pll_name : string) (c : Efinix.Call) (k : nat) : string :=
  if bool_decide (Efinix.c_name c = EmptyString)
  then pll_name +:+ "_clkout" +:+ str_nat k else Efinix.c_name c.

(** The constraint [create_clkout] appends for it. *)
Definition clkout_sdc `{FloatRepr} (pll_name : string) (c : Efinix.Call) (k : nat)
  : string :=
  "create_clock -period " +:+ str_float (1000000000 / Efinix.c_freq c)%Q
  +:+ " " +:+ clkout_name pll_name c k.

(** The calls that drive a clock domain. *)
Definition drives (c : Efinix.Call) : bool :=
  match Efinix.c_cd c with Some _ => true | None => false end.
End Outputs.
Export Outputs.

Module MoreExamples.
(** The host of [Examples.host] after an earlier Microsemi run: the build
    directory holds an [impl] directory with a file in it. *)
Definition host_with_impl (programs : list string) (status : Z) : World :=
  mkWorld "/home/user/proj"
          ["/home/user/proj"; "/home/user/proj/build"; "/home/user/proj/build/impl"]
          [("/home/user/proj/build/impl/top.log", "done")] [] [] programs
          (fun _ => status) [] "2021-06-01 12:00:00" "linux" "0123abc".
End MoreExamples.

(* ================================================================== *)
(** * Facts about the runtime                                           *)
(* ================================================================== *)

Section DictFacts.
Context {K V : Type} `{EqDecision K}.
Implicit Types (d : list (K * V)) (k : K) (v : V).

Lemma dict_get_set_eq d k v : dict_get k (dict_set k v d) = Some v.
Proof.
  induction d as [|[k' v'] d IH]; simpl.
  - by rewrite decide_True.
  - destruct (decide (k = k')) as [->|Hne]; simpl.
    + by rewrite decide_True.
    + by rewrite decide_False.
Qed.

Lemma dict_get_set_ne d k k' v :
  k ≠ k' -> dict_get k' (dict_set k v d) = dict_get k' d.
Proof.
  intros Hne. induction d as [|[k0 v0] d IH]; simpl.
  - by rewrite decide_False.
  - destruct (decide (k = k0)) as [->|Hk]; simpl.
    + by rewrite !decide_False.
    + destruct (decide (k' = k0)); auto.
Qed.

Lemma dict_get_None d k : dict_get k d = None <-> k ∉ d.*1.
Proof.
  induction d as [|[k' v'] d IH]; simpl.
  - split; [intros _; apply not_elem_of_nil | done].
  - rewrite not_elem_of_cons. destruct (decide (k = k')) as [->|Hne].
    + split; [done | intros [? _]; done].
    + rewrite IH. tauto.
Qed.

End DictFacts.

Section SetFacts.
Context {K : Type} `{EqDecision K}.
Implicit Types (s : list K) (x : K).

Lemma set_mem_true x s : set_mem x s = true <-> x ∈ s.
Proof. unfold set_mem. by rewrite bool_decide_eq_true. Qed.

Lemma set_mem_false x s : set_mem x s = false <-> x ∉ s.
Proof. unfold set_mem. by rewrite bool_decide_eq_false. Qed.

Lemma elem_of_set_add x y s : y ∈ set_add x s <-> y = x \/ y ∈ s.
Proof.
  unfold set_add. destruct (set_mem x s) eqn:Hx.
  - apply set_mem_true in Hx. split; [auto | intros [->|?]; auto].
  - rewrite elem_of_app, list_elem_of_singleton. tauto.
Qed.

Lemma set_mem_set_add x s : set_mem x (set_add x s) = true.
Proof. apply set_mem_true, elem_of_set_add. by left. Qed.

Lemma NoDup_set_add x s : NoDup s -> NoDup (set_add x s).
Proof.
  intros Hs. unfold set_add. destruct (set_mem x s) eqn:Hx; [done|].
  apply set_mem_false in Hx. apply NoDup_app. split_and!; [done| |apply NoDup_singleton].
  intros y Hy ->%list_elem_of_singleton. done.
Qed.
End SetFacts.

(** ** Rounding to the picosecond *)

Lemma Qeq_bool_true (x y : Q) : Qeq_bool x y = true <-> (x == y)%Q.
Proof. apply Qeq_bool_iff. Qed.

Lemma Qeq_bool_false (x y : Q) : Qeq_bool x y = false <-> ~ (x == y)%Q.
Proof.
  rewrite <- Qeq_bool_iff. destruct (Qeq_bool x y); split; congruence.
Qed.

(** Floats are kept in lowest terms, so that equal floats are equal
    terms. *)
Lemma b64_lowest_terms (x y : Q) : b64 x = Some y -> Qred y = y.
Proof.
  unfold b64. destruct (Qeq_bool x 0); [by intros [= <-]|].
  destruct (Qle_bool _ _); [done|].
  destruct (Qle_bool 0 x); intros [= <-]; apply Qred_complete, Qred_correct.
Qed.

Lemma round_ps_lowest_terms (p r : Q) : round_ps p = inr r -> Qred r = r.
Proof.
  unfold round_ps. destruct (b64 p ≫= _) as [y|]; [|done].
  destruct (b64 (inject_Z (floor y) / 1000)) as [r'|] eqn:Hr; [|done].
  intros [= <-]. by eapply b64_lowest_terms.
Qed.

Lemma round_ps_same (p q r r' : Q) :
  round_ps p = inr r -> round_ps q = inr r' -> (r == r')%Q -> r = r'.
Proof.
  intros Hp%round_ps_lowest_terms Hq%round_ps_lowest_terms Heq.
  rewrite <- Hp, <- Hq. by apply Qred_complete.
Qed.

(** The only exception of the rounding is the one of [math.floor]. *)
Lemma round_ps_raises (p : Q) (e : exn) : round_ps p = inl e -> e = OverflowError.
Proof.
  unfold round_ps. destruct (b64 p ≫= _) as [y|]; [|by intros [= <-]].
  destruct (b64 (inject_Z (floor y) / 1000)); [done | by intros [= <-]].
Qed.

Lemma rounded_period_eq (p r : Q) : round_ps p = inr r -> rounded_period p = r.
Proof. unfold rounded_period. by intros ->. Qed.

(** The rounding is the one of binary64 arithmetic, not of the decimal
    the period was written as: [8.2*1e3] is [8200.0] although the float
    [8.2] is below 8.2, [1.001*1e3] is below 1001, a rounded value need
    not round to itself, and a large period has no rounded value. *)
Lemma round_ps_binary64 :
  round_ps 8.2 = inr (2308094809027379 # 281474976710656)
  /\ round_ps 8.1995 = inr (4615626668101337 # 562949953421312)
  /\ round_ps 1.0015 = inr (2254051613498933 # 2251799813685248)
  /\ round_ps (2254051613498933 # 2251799813685248) = inr 1%Q
  /\ round_ps 1.001 = inr 1%Q
  /\ round_ps (inject_Z (10 ^ 306)) = inl OverflowError.
Proof. vm_compute. done. Qed.

Lemma conflicting_fresh clocks clk p :
  dict_get clk clocks = None -> conflicting clocks clk p = None.
Proof. unfold conflicting. by intros ->. Qed.

Lemma conflicting_same clocks clk p old :
  dict_get clk clocks = Some old -> (p == old)%Q -> conflicting clocks clk p = None.
Proof.
  unfold conflicting. intros -> Heq%Qeq_bool_true. by rewrite Heq.
Qed.

Lemma conflicting_differs clocks clk p old :
  dict_get clk clocks = Some old -> ~ (p == old)%Q ->
  conflicting clocks clk p = Some old.
Proof.
  unfold conflicting. intros -> Hne%Qeq_bool_false. by rewrite Hne.
Qed.

(* ================================================================== *)
(** * Period constraints                                                *)
(* ================================================================== *)

Lemma anlogic_add_period_ok self clk p r w :
  round_ps p = inr r ->
  conflicting (Anlogic.clocks self) clk r = None ->
  Anlogic.add_period_constraint self clk p w
  = (kept clk w, inr (Anlogic.mk (dict_set clk r (Anlogic.clocks self)))).
Proof.
  intros Hr Hc. unfold Anlogic.add_period_constraint, bind, lift. simpl.
  by rewrite Hr, Hc.
Qed.

Lemma anlogic_add_period_conflict self clk p r old w :
  round_ps p = inr r ->
  conflicting (Anlogic.clocks self) clk r = Some old ->
  Anlogic.add_period_constraint self clk p w
  = (kept clk w, inl (ValueError (conflict_msg old r))).
Proof.
  intros Hr Hc. unfold Anlogic.add_period_constraint, bind, lift. simpl.
  by rewrite Hr, Hc.
Qed.

Lemma anlogic_add_period_overflow self clk p e w :
  round_ps p = inl e ->
  Anlogic.add_period_constraint self clk p w = (kept clk w, inl e).
Proof.
  intros Hr. unfold Anlogic.add_period_constraint, bind, lift. simpl. by rewrite Hr.
Qed.

Lemma osfpga_add_period_ok self clk p r w :
  round_ps p = inr r ->
  conflicting (OSFPGA.clocks self) clk r = None ->
  OSFPGA.add_period_constraint self clk p w
  = (kept clk w, inr (OSFPGA.mk (OSFPGA.toolchain self)
                                (dict_set clk r (OSFPGA.clocks self)))).
Proof.
  intros Hr Hc. unfold OSFPGA.add_period_constraint, bind, lift. simpl.
  by rewrite Hr, Hc.
Qed.

Lemma osfpga_add_period_conflict self clk p r old w :
  round_ps p = inr r ->
  conflicting (OSFPGA.clocks self) clk r = Some old ->
  OSFPGA.add_period_constraint self clk p w
  = (kept clk w, inl (ValueError (conflict_msg old r))).
Proof.
  intros Hr Hc. unfold OSFPGA.add_period_constraint, bind, lift. simpl.
  by rewrite Hr, Hc.
Qed.

Lemma osfpga_add_period_overflow self clk p e w :
  round_ps p = inl e ->
  OSFPGA.add_period_constraint self clk p w = (kept clk w, inl e).
Proof.
  intros Hr. unfold OSFPGA.add_period_constraint, bind, lift. simpl. by rewrite Hr.
Qed.

Lemma microsemi_add_period_ok self clk p w :
  conflicting (Microsemi.clocks self) clk p = None ->
  Microsemi.add_period_constraint self clk p w
  = (w, inr (microsemi_with_clock self clk p)).
Proof. intros Hc. unfold Microsemi.add_period_constraint. by rewrite Hc. Qed.

Lemma microsemi_add_period_conflict self clk p old w :
  conflicting (Microsemi.clocks self) clk p = Some old ->
  Microsemi.add_period_constraint self clk p w
  = (w, inl (ValueError (conflict_msg old p))).
Proof. intros Hc. unfold Microsemi.add_period_constraint. by rewrite Hc. Qed.

(** C1, as the claim states it, fails on the Microsemi toolchain: 100.0005
    and 100.0 have the same value rounded down to 0.001 ns, the first is
    recorded as it is, and the second call raises. *)
Lemma microsemi_period_not_rounded :
  let w := Examples.host [] 0 in
  (round_ps 100.0005 = inr 100%Q /\ round_ps 100.0 = inr 100%Q) /\
  exists t1,
    Microsemi.add_period_constraint Microsemi.__init__ Examples.sysclk 100.0005 w
      = (w, inr t1) /\
    dict_get Examples.sysclk (Microsemi.clocks t1) = Some 100.0005%Q /\
    Microsemi.add_period_constraint t1 Examples.sysclk 100.0 w
      = (w, inl (ValueError
           "Clock already constrained to 100.00ns, new constraint to 100.00ns")).
Proof.
  split; [by vm_compute|].
  eexists. split; [reflexivity|]. split; reflexivity.
Qed.

(** What the Microsemi toolchain does on a clock that is not yet
    constrained: the first call records [p1] as it is given, and the
    second call is accepted exactly when [p2] equals [p1]. *)
Lemma microsemi_add_period_constraint_unrounded
    (clk : Signal) (p1 p2 : Q) (w : World)
    (tm : Microsemi.MicrosemiLiberoSoCPolarfireToolchain) :
  dict_get clk (Microsemi.clocks tm) = None ->
  exists t1,
    Microsemi.add_period_constraint tm clk p1 w = (w, inr t1) /\
    dict_get clk (Microsemi.clocks t1) = Some p1 /\
    if Qeq_bool p2 p1
    then exists t2, Microsemi.add_period_constraint t1 clk p2 w = (w, inr t2) /\
                    dict_get clk (Microsemi.clocks t2) = Some p2
    else Microsemi.add_period_constraint t1 clk p2 w
         = (w, inl (ValueError (conflict_msg p1 p2))).
Proof.
  intros Hm. eexists. split_and!.
  - by apply microsemi_add_period_ok, conflicting_fresh.
  - simpl. apply dict_get_set_eq.
  - destruct (Qeq_bool p2 p1) eqn:Heq.
    + eexists. split.
      * apply microsemi_add_period_ok. simpl.
        eapply conflicting_same; [apply dict_get_set_eq|].
        by apply Qeq_bool_true.
      * simpl. apply dict_get_set_eq.
    + apply microsemi_add_period_conflict. simpl.
      eapply conflicting_differs; [apply dict_get_set_eq|].
      by apply Qeq_bool_false.
Qed.

(** C1 (amended). On the Anlogic and OSFPGA toolchains, for a clock that
    is not yet constrained, two calls with periods whose rounded values
    are equal both succeed, and the period recorded after each is the
    first rounded value. The rounded value is the one the code computes,
    [math.floor(p*1e3)/1e3] in binary64 arithmetic. *)
Theorem add_period_constraint_same_rounded
    (clk : Signal) (p1 p2 r1 r2 : Q) (w : World)
    (ta : Anlogic.TangDinastyToolchain) (to : OSFPGA.OSFPGAToolchain) :
  round_ps p1 = inr r1 -> round_ps p2 = inr r2 -> (r1 == r2)%Q ->
  dict_get clk (Anlogic.clocks ta) = None ->
  dict_get clk (OSFPGA.clocks to) = None ->
  (exists w1 t1 w2 t2,
      Anlogic.add_period_constraint ta clk p1 w = (w1, inr t1) /\
      dict_get clk (Anlogic.clocks t1) = Some r1 /\
      Anlogic.add_period_constraint t1 clk p2 w1 = (w2, inr t2) /\
      dict_get clk (Anlogic.clocks t2) = Some r1)
  /\
  (exists w1 t1 w2 t2,
      OSFPGA.add_period_constraint to clk p1 w = (w1, inr t1) /\
      dict_get clk (OSFPGA.clocks t1) = Some r1 /\
      OSFPGA.add_period_constraint t1 clk p2 w1 = (w2, inr t2) /\
      dict_get clk (OSFPGA.clocks t2) = Some r1).
Proof.
  intros H1 H2 Heq Ha Ho.
  assert (r1 = r2) as <- by by eapply round_ps_same.
  split.
  - do 4 eexists. split_and!.
    + by apply anlogic_add_period_ok; [|apply conflicting_fresh].
    + simpl. apply dict_get_set_eq.
    + apply anlogic_add_period_ok; [exact H2|]. simpl.
      eapply conflicting_same; [apply dict_get_set_eq | reflexivity].
    + simpl. apply dict_get_set_eq.
  - do 4 eexists. split_and!.
    + by apply osfpga_add_period_ok; [|apply conflicting_fresh].
    + simpl. apply dict_get_set_eq.
    + apply osfpga_add_period_ok; [exact H2|]. simpl.
      eapply conflicting_same; [apply dict_get_set_eq | reflexivity].
    + simpl. apply dict_get_set_eq.
Qed.

Lemma add_period_constraint_same_rounded_witness :
  exists w1 t1 w2 t2,
    Anlogic.add_period_constraint Anlogic.__init__ Examples.sysclk 100.0005
      (Examples.host [] 0) = (w1, inr t1) /\
    dict_get Examples.sysclk (Anlogic.clocks t1) = Some 100%Q /\
    Anlogic.add_period_constraint t1 Examples.sysclk 100.0 w1 = (w2, inr t2) /\
    dict_get Examples.sysclk (Anlogic.clocks t2) = Some 100%Q.
Proof.
  assert (round_ps 100.0005 = inr 100%Q) as H1 by by vm_compute.
  assert (round_ps 100.0 = inr 100%Q) as H2 by by vm_compute.
  apply (add_period_constraint_same_rounded Examples.sysclk 100.0005 100.0 100 100
           (Examples.host [] 0) Anlogic.__init__ (OSFPGA.__init__ "foedag") H1 H2);
    reflexivity.
Defined.

(** C2, as the claim states it, fails on the Microsemi toolchain, which
    compares the period as it is given: with 100.0009765625 recorded, a
    call with 100.0009765625 is accepted although its rounded value,
    100.0, differs from the record. *)
Lemma microsemi_same_period_accepted :
  let w := Examples.host [] 0 in
  let tm := Microsemi.mk [(Examples.sysclk, 100.0009765625%Q)] [] [] [] [] in
  round_ps 100.0009765625 = inr 100%Q
  /\ ~ (100 == 100.0009765625)%Q
  /\ exists t,
       Microsemi.add_period_constraint tm Examples.sysclk 100.0009765625 w = (w, inr t)
       /\ dict_get Examples.sysclk (Microsemi.clocks t) = Some 100.0009765625%Q.
Proof.
  split_and!; [by vm_compute | by vm_compute |].
  eexists. split; reflexivity.
Qed.

(** C2 (amended). On the Anlogic and OSFPGA toolchains, when the clock
    has a recorded period [r] and the rounded value [p'] of the new
    period differs from it, the call raises the [ValueError] whose
    message gives [r] and [p'], each with two decimals, and returns no
    updated toolchain: the record stays [r]. *)
Theorem add_period_constraint_conflict
    (clk : Signal) (r p p' : Q) (w : World)
    (ta : Anlogic.TangDinastyToolchain) (to : OSFPGA.OSFPGAToolchain) :
  round_ps p = inr p' -> ~ (p' == r)%Q ->
  dict_get clk (Anlogic.clocks ta) = Some r ->
  dict_get clk (OSFPGA.clocks to) = Some r ->
  let msg := "Clock already constrained to " +:+ format_2f r
             +:+ "ns, new constraint to " +:+ format_2f p' +:+ "ns" in
  Anlogic.add_period_constraint ta clk p w = (kept clk w, inl (ValueError msg))
  /\ OSFPGA.add_period_constraint to clk p w = (kept clk w, inl (ValueError msg))
  /\ dict_get clk (Anlogic.clocks ta) = Some r
  /\ dict_get clk (OSFPGA.clocks to) = Some r.
Proof.
  intros Hp Hne Ha Ho msg. split_and!; [| |done..].
  - apply (anlogic_add_period_conflict _ _ _ p'); [done|].
    by eapply conflicting_differs.
  - apply (osfpga_add_period_conflict _ _ _ p'); [done|].
    by eapply conflicting_differs.
Qed.

Lemma add_period_constraint_conflict_witness :
  Anlogic.add_period_constraint (Anlogic.mk [(Examples.sysclk, 100.0%Q)])
    Examples.sysclk 100.0195 (Examples.host [] 0)
  = (kept Examples.sysclk (Examples.host [] 0),
     inl (ValueError "Clock already constrained to 100.00ns, new constraint to 100.02ns")).
Proof.
  assert (round_ps 100.0195 = inr (439888213994111 # 4398046511104)) as Hp
    by by vm_compute.
  apply (add_period_constraint_conflict Examples.sysclk 100.0 100.0195 _
           (Examples.host [] 0) (Anlogic.mk [(Examples.sysclk, 100.0%Q)])
           (OSFPGA.mk "foedag" [(Examples.sysclk, 100.0%Q)]) Hp);
    [vm_compute; discriminate | reflexivity..].
Defined.

(* ================================================================== *)
(** * False-path constraints                                            *)
(* ================================================================== *)

Lemma add_false_path_constraint_pure self a b w :
  Microsemi.add_false_path_constraint self a b w
  = (w, inr (microsemi_with_false_paths self (fp_add (Microsemi.false_paths self) a b))).
Proof.
  unfold Microsemi.add_false_path_constraint, fp_add, microsemi_with_false_paths.
  destruct (negb _); [done|]. by destruct self.
Qed.

Lemma length_le_1_of_all_equal {A} (l : list A) :
  NoDup l -> (forall x y, x ∈ l -> y ∈ l -> x = y) -> length l <= 1.
Proof.
  destruct l as [|x [|y l]]; simpl; [lia..|].
  intros Hnd Hall. exfalso.
  apply NoDup_cons in Hnd as [Hx _]. apply Hx.
  rewrite (Hall x y); [left | left | right; left].
Qed.

Lemma stored_for_le_1 a b fp : canonical fp -> stored_for a b fp <= 1.
Proof.
  intros [Hnd Hdir]. unfold stored_for.
  apply length_le_1_of_all_equal; [by apply NoDup_filter|].
  intros x y [Hx Hxin]%list_elem_of_filter [Hy Hyin]%list_elem_of_filter.
  destruct Hx as [->| ->], Hy as [->| ->]; try done.
  - by rewrite (Hdir a b).
  - by rewrite (Hdir a b).
Qed.

Lemma stored_for_ge_1 a b fp c :
  c ∈ fp -> c = (a, b) \/ c = (b, a) -> 1 <= stored_for a b fp.
Proof.
  intros Hin Hc. unfold stored_for.
  assert (c ∈ filter (fun p => p = (a, b) \/ p = (b, a)) fp) as Hf
    by by apply list_elem_of_filter.
  destruct (filter _ fp); [by apply elem_of_nil in Hf | simpl; lia].
Qed.

Lemma stored_for_0 a b fp :
  (a, b) ∉ fp -> (b, a) ∉ fp -> stored_for a b fp = 0.
Proof.
  intros Hab Hba. unfold stored_for.
  destruct (filter _ fp) as [|x l] eqn:Hf; [done|].
  assert (x ∈ filter (fun p => p = (a, b) \/ p = (b, a)) fp) as Hx
    by (rewrite Hf; left).
  apply list_elem_of_filter in Hx as [[->| ->] ?]; done.
Qed.

Lemma canonical_fp_add fp a b : canonical fp -> canonical (fp_add fp a b).
Proof.
  intros [Hnd Hdir]. unfold fp_add.
  destruct (set_mem (b, a) fp) eqn:Hba; simpl; [done|].
  apply set_mem_false in Hba. split; [by apply NoDup_set_add|].
  intros x y [Hxy|Hxy]%elem_of_set_add [Hyx|Hyx]%elem_of_set_add.
  - congruence.
  - injection Hxy as -> ->. done.
  - injection Hyx as -> ->. done.
  - by apply Hdir.
Qed.

Lemma stored_for_fp_add fp a b x y :
  canonical fp -> (x, y) = (a, b) \/ (x, y) = (b, a) ->
  stored_for a b (fp_add fp x y) = 1.
Proof.
  intros Hcan Hc.
  assert (stored_for a b (fp_add fp x y) <= 1) as Hle
    by by apply stored_for_le_1, canonical_fp_add.
  assert (1 <= stored_for a b (fp_add fp x y)); [|lia].
  unfold fp_add. destruct (set_mem (y, x) fp) eqn:Hyx; simpl.
  - apply set_mem_true in Hyx. apply (stored_for_ge_1 _ _ _ (y, x)); [done|].
    destruct Hc as [Hc|Hc]; injection Hc as -> ->; auto.
  - apply (stored_for_ge_1 _ _ _ (x, y)); [|done].
    apply elem_of_set_add. by left.
Qed.

Lemma add_false_paths_pure cs self w :
  exists self', add_false_paths cs self w = (w, inr self').
Proof.
  revert self. induction cs as [|[x y] cs IH]; intros self.
  - by eexists.
  - unfold add_false_paths. simpl. unfold bind at 1.
    rewrite add_false_path_constraint_pure. apply IH.
Qed.

(** C3. [add_false_path_constraint] never raises, and from a false-path
    set as the calls leave it (no pair twice in either direction; the
    empty set of a new toolchain is one), any non-empty series of calls
    for [a, b] in either order leaves exactly one stored pair for the
    unordered pair, and the set stays of that kind. *)
Theorem add_false_path_constraint_one_pair
    (a b : Signal) (cs : list (Signal * Signal))
    (self : Microsemi.MicrosemiLiberoSoCPolarfireToolchain) (w : World) :
  canonical (Microsemi.false_paths self) ->
  cs ≠ [] ->
  Forall (fun c => c = (a, b) \/ c = (b, a)) cs ->
  (forall t x y w0, exists t', Microsemi.add_false_path_constraint t x y w0 = (w0, inr t'))
  /\ canonical (Microsemi.false_paths Microsemi.__init__)
  /\ exists self',
       add_false_paths cs self w = (w, inr self') /\
       stored_for a b (Microsemi.false_paths self') = 1 /\
       canonical (Microsemi.false_paths self').
Proof.
  intros Hcan Hne Hcs. split_and!.
  - intros t x y w0. rewrite add_false_path_constraint_pure. by eexists.
  - split; [apply NoDup_nil_2 | intros ? ? []%elem_of_nil].
  - destruct cs as [|[x y] cs]; [done|]. clear Hne.
    apply Forall_cons in Hcs as [Hc Hcs].
    unfold add_false_paths. simpl. unfold bind at 1.
    rewrite add_false_path_constraint_pure.
    assert (canonical (fp_add (Microsemi.false_paths self) x y)) as Hcan1
      by by apply canonical_fp_add.
    assert (stored_for a b (fp_add (Microsemi.false_paths self) x y) = 1) as H1
      by by apply stored_for_fp_add.
    set (s1 := microsemi_with_false_paths self _).
    assert (canonical (Microsemi.false_paths s1)) as Hs1 by done.
    assert (stored_for a b (Microsemi.false_paths s1) = 1) as Hn1 by done.
    clearbody s1. clear Hcan Hcan1 H1 Hc.
    revert s1 Hs1 Hn1. induction cs as [|[x' y'] cs IH]; intros s1 Hs1 Hn1.
    + by exists s1.
    + apply Forall_cons in Hcs as [Hc Hcs]. simpl. unfold bind at 1.
      rewrite add_false_path_constraint_pure. apply IH; [done| |].
      * by apply canonical_fp_add.
      * by apply stored_for_fp_add.
Qed.

Lemma add_false_path_constraint_one_pair_witness :
  exists self',
    add_false_paths [(Examples.sysclk, Examples.usbclk); (Examples.usbclk, Examples.sysclk)]
      Microsemi.__init__ (Examples.host [] 0) = (Examples.host [] 0, inr self') /\
    stored_for Examples.sysclk Examples.usbclk (Microsemi.false_paths self') = 1 /\
    canonical (Microsemi.false_paths self').
Proof.
  apply (add_false_path_constraint_one_pair Examples.sysclk Examples.usbclk
           [(Examples.sysclk, Examples.usbclk); (Examples.usbclk, Examples.sysclk)]
           Microsemi.__init__ (Examples.host [] 0)).
  - split; [apply NoDup_nil_2 | intros ? ? []%elem_of_nil].
  - discriminate.
  - constructor; [left; reflexivity|].
    constructor; [right; reflexivity|]. constructor.
Defined.

(* ================================================================== *)
(** * Stepping through a computation                                    *)
(* ================================================================== *)

Section WP.
Context {S : Type}.
Implicit Types (s : S) (E : S -> exn -> Prop).

Lemma wp_ret {A} (a : A) (Q : S -> A -> Prop) E s : Q s a -> wp (ret a) Q E s.
Proof. done. Qed.

Lemma wp_raise {A} e (Q : S -> A -> Prop) E s : E s e -> wp (raise e) Q E s.
Proof. done. Qed.

Lemma wp_lift {A} (r : exn + A) (Q : S -> A -> Prop) E s :
  match r with inr a => Q s a | inl e => E s e end -> wp (lift r) Q E s.
Proof. done. Qed.

Lemma wp_gets {A} (f : S -> A) (Q : S -> A -> Prop) E s :
  Q s (f s) -> wp (gets f) Q E s.
Proof. done. Qed.

Lemma wp_modify (f : S -> S) (Q : S -> unit -> Prop) E s :
  Q (f s) tt -> wp (modify f) Q E s.
Proof. done. Qed.

Lemma wp_bind {A B} (m : SM S A) (k : A -> SM S B) (Q : S -> B -> Prop) E s :
  wp m (fun s' a => wp (k a) Q E s') E s -> wp (bind m k) Q E s.
Proof. unfold wp, bind. destruct (m s) as [s' [e|a]]; done. Qed.

Lemma wp_weaken {A} (m : SM S A) (Q Q' : S -> A -> Prop) E E' s :
  wp m Q E s -> (forall s' a, Q s' a -> Q' s' a) -> (forall s' e, E s' e -> E' s' e) ->
  wp m Q' E' s.
Proof. unfold wp. destruct (m s) as [s' [e|a]]; auto. Qed.

Lemma wp_run {A} (m : SM S A) (Q : S -> A -> Prop) E s :
  wp m Q E s ->
  (exists s' a, m s = (s', inr a) /\ Q s' a) \/ (exists s' e, m s = (s', inl e) /\ E s' e).
Proof. unfold wp. destruct (m s) as [s' [e|a]]; eauto. Qed.

Lemma wp_returns {A} (m : SM S A) (Q : S -> A -> Prop) s :
  wp m Q (fun _ _ => False) s -> exists s' a, m s = (s', inr a) /\ Q s' a.
Proof. intros [?|(? & ? & _ & [])]%wp_run; done. Qed.

Lemma wp_raises {A} (m : SM S A) E s :
  wp m (fun _ _ => False) E s -> exists s' e, m s = (s', inl e) /\ E s' e.
Proof. intros [(? & ? & _ & [])|?]%wp_run; done. Qed.
End WP.

Lemma wp_chdir p (Q : World -> unit -> Prop) E w :
  (resolve (cwd w) p ∈ dirs w -> Q (set_cwd (resolve (cwd w) p) w) tt) ->
  (resolve (cwd w) p ∉ dirs w -> E w (FileNotFoundError p)) ->
  wp (chdir p) Q E w.
Proof.
  intros HQ HE. unfold wp, chdir.
  destruct (set_mem _ _) eqn:Hm; [apply HQ, set_mem_true | apply HE, set_mem_false]; done.
Qed.

Lemma wp_rmtree p (Q : World -> unit -> Prop) E w :
  (resolve (cwd w) p ∈ dirs w ->
   Q (set_files (filter (fun f => negb (below (resolve (cwd w) p) f.1)) (files w))
        (set_dirs (filter (fun x => negb (below (resolve (cwd w) p) x)) (dirs w)) w))
     tt) ->
  (resolve (cwd w) p ∉ dirs w -> resolve (cwd w) p ∈ (files w).*1 ->
   E w (NotADirectoryError p)) ->
  (resolve (cwd w) p ∉ dirs w -> resolve (cwd w) p ∉ (files w).*1 ->
   E w (FileNotFoundError p)) ->
  wp (rmtree p) Q E w.
Proof.
  intros HQ HD HE. unfold wp, rmtree.
  destruct (set_mem _ (dirs w)) eqn:Hm; [by apply HQ, set_mem_true|].
  apply set_mem_false in Hm.
  destruct (set_mem _ (files w).*1) eqn:Hf;
    [apply HD; [done|by apply set_mem_true] | apply HE; [done|by apply set_mem_false]].
Qed.

Lemma wp_listdir p (Q : World -> list string -> Prop) E w :
  (resolve (cwd w) p ∈ dirs w -> forall l, Q w l) ->
  (resolve (cwd w) p ∉ dirs w -> E w (FileNotFoundError p)) ->
  wp (listdir p) Q E w.
Proof.
  intros HQ HE. unfold wp, listdir.
  destruct (set_mem _ _) eqn:Hm; [apply HQ, set_mem_true | apply HE, set_mem_false]; done.
Qed.

Lemma wp_subprocess_call exe args (Q : World -> Z -> Prop) E w :
  (exe ∈ search_path w ->
   Q (set_spawned (spawned w ++ [exe :: args]) w) (exit_status w (exe :: args))) ->
  (exe ∉ search_path w -> E w (FileNotFoundError exe)) ->
  wp (subprocess_call (exe :: args)) Q E w.
Proof.
  intros HQ HE. unfold wp, subprocess_call.
  destruct (set_mem _ _) eqn:Hm; [apply HQ, set_mem_true | apply HE, set_mem_false]; done.
Qed.

(** One step of a computation built from the primitives. *)
Ltac wp_prim :=
  lazymatch goal with
  | |- wp (bind _ _) _ _ _ => apply wp_bind
  | |- wp (ret _) _ _ _ => apply wp_ret
  | |- wp (raise _) _ _ _ => apply wp_raise
  | |- wp (lift _) _ _ _ => apply wp_lift
  | |- wp (gets _) _ _ _ => apply wp_gets
  | |- wp (modify _) _ _ _ => apply wp_modify
  | |- wp getcwd _ _ _ => unfold getcwd
  | |- wp (makedirs _) _ _ _ => unfold makedirs
  | |- wp (which _) _ _ _ => unfold which
  | |- wp (path_exists _) _ _ _ => unfold path_exists
  | |- wp (write_file _ _) _ _ _ => unfold write_file
  | |- wp (write_to_file _ _) _ _ _ => unfold write_to_file
  | |- wp (add_source _ _) _ _ _ => unfold add_source
  | |- wp (attr_add _ _) _ _ _ => unfold attr_add
  | |- wp (do_finalize _) _ _ _ => unfold do_finalize
  end.

(** The components of the world a setter leaves alone. *)
Ltac world_simpl :=
  cbn [cwd dirs files sources sig_attr search_path exit_status spawned now
       sys_platform git_revision
       set_cwd set_dirs set_files set_sources set_sig_attr set_spawned fst snd] in *.

(** Run a build symbolically, one goal per way it can end; the world is
    kept as a record of its components. *)
Ltac world_step :=
  cbn [cwd dirs files sources sig_attr search_path exit_status spawned now
       sys_platform git_revision
       set_cwd set_dirs set_files set_sources set_sig_attr set_spawned].

Ltac wp_go_with tac :=
  repeat (first
    [ wp_prim
    | apply wp_chdir; intros ?
    | apply wp_subprocess_call; intros ?
    | apply wp_listdir; [intros ? ?|intros ?]
    | apply wp_rmtree; [intros ? | intros ? ? | intros ? ?]
    | lazymatch goal with
      | |- wp (subprocess_call ((if ?b then _ else _) ++ _)) _ _ _ =>
          destruct b eqn:?; cbn [app]
      | |- wp (if ?b then _ else _) _ _ _ => destruct b eqn:?
      | |- wp (match ?x with _ => _ end) _ _ _ => destruct x eqn:?
      | |- match ?x with _ => _ end => destruct x eqn:?
      end ]; world_step; tac; world_step).

Ltac wp_go := wp_go_with idtac.

Ltac unfold_emitters :=
  unfold Anlogic._build_adc, Anlogic._build_sdc, Anlogic._build_al, Anlogic._build_tcl,
    OSFPGA._build_sdc, OSFPGA._build_tcl,
    QuickLogic._build_io_pcf, QuickLogic._build_makefile, QuickLogic._run_make,
    Microsemi._build_tcl, Microsemi._build_io_pdc, Microsemi._build_fp_pdc,
    Microsemi._build_timing_sdc, Microsemi._build_script, Microsemi._run_script.

Lemma elem_of_set_add_same {K} `{EqDecision K} (x : K) (s : list K) : x ∈ set_add x s.
Proof. apply elem_of_set_add. by left. Qed.

Lemma elem_of_set_add_old {K} `{EqDecision K} (x y : K) (s : list K) :
  y ∈ s -> y ∈ set_add x s.
Proof. intros. apply elem_of_set_add. by right. Qed.

Lemma resolve_absolute d p : startswith p "/" = true -> resolve d p = p.
Proof. unfold resolve. by intros ->. Qed.

(* ================================================================== *)
(** * The working directory of a build                                  *)
(* ================================================================== *)

(** Ends of a run that the hypotheses exclude, and ends where the
    directory is read off the world. *)
Ltac not_running :=
  lazymatch goal with
  | |- wp _ _ _ _ => fail
  | |- _ => idtac
  end.

Ltac cwd_leaf Habs :=
  not_running; world_simpl;
  first
    [ reflexivity
    | by rewrite (resolve_absolute _ _ Habs)
    | exfalso;
      match goal with
      | H : _ ∉ set_add _ _ |- _ => apply H, elem_of_set_add_same
      end
    | congruence ].

Lemma anlogic_build_cwd `{FloatRepr} self platform build_dir build_name run w :
  startswith (cwd w) "/" = true ->
  leaves_cwd w build_dir (Anlogic.build self platform build_dir build_name run w).
Proof.
  intros Habs.
  change (wp (Anlogic.build self platform build_dir build_name run)
             (fun w' _ => cwd w' = cwd w)
             (fun w' _ => cwd w' = resolve (cwd w) build_dir) w).
  unfold Anlogic.build. unfold_emitters. wp_go; cwd_leaf Habs.
Qed.

Lemma osfpga_build_cwd `{FloatRepr} self platform build_dir build_name run w :
  startswith (cwd w) "/" = true ->
  leaves_cwd w build_dir (OSFPGA.build self platform build_dir build_name run w).
Proof.
  intros Habs.
  change (wp (OSFPGA.build self platform build_dir build_name run)
             (fun w' _ => cwd w' = cwd w)
             (fun w' _ => cwd w' = resolve (cwd w) build_dir) w).
  unfold OSFPGA.build. unfold_emitters. wp_go; cwd_leaf Habs.
Qed.

Lemma quicklogic_build_cwd self platform build_dir build_name run w :
  startswith (cwd w) "/" = true ->
  leaves_cwd w build_dir (QuickLogic.build self platform build_dir build_name run w).
Proof.
  intros Habs.
  change (wp (QuickLogic.build self platform build_dir build_name run)
             (fun w' _ => cwd w' = cwd w)
             (fun w' _ => cwd w' = resolve (cwd w) build_dir) w).
  unfold QuickLogic.build. unfold_emitters. wp_go; cwd_leaf Habs.
Qed.

Lemma microsemi_build_cwd `{FloatRepr} `{Microsemi.SignalRepr}
    self platform build_dir build_name run w :
  startswith (cwd w) "/" = true ->
  leaves_cwd w build_dir (Microsemi.build self platform build_dir build_name run w).
Proof.
  intros Habs.
  change (wp (Microsemi.build self platform build_dir build_name run)
             (fun w' _ => cwd w' = cwd w)
             (fun w' _ => cwd w' = resolve (cwd w) build_dir) w).
  unfold Microsemi.build. unfold_emitters. wp_go; cwd_leaf Habs.
Qed.

(** C4, as the claim states it, fails: a build that raises does not go
    back. Here the Anlogic build stops at Run because [td] is not on the
    search path, and another stops at Finalize; both leave the process in
    the build directory. *)
Lemma build_failure_keeps_build_dir :
  let H := Examples.millis in
  let w := Examples.host [] 0 in
  let at_run := Anlogic.build Anlogic.__init__
                  (Examples.board "EG4S20BG256" [Examples.led]) "build" "top" true w in
  let at_finalize := Anlogic.build Anlogic.__init__
                  Examples.finalized_board "build" "top" true w in
  cwd w = "/home/user/proj" /\
  at_run.2 = inl (OSError Anlogic.not_found_msg) /\
  cwd at_run.1 = "/home/user/proj/build" /\
  at_finalize.2 = inl (Raised "already finalized") /\
  cwd at_finalize.1 = "/home/user/proj/build".
Proof. vm_compute. done. Qed.

(** C4 (amended). Started in a directory given by an absolute path, the
    build of every toolchain is back in that directory when it returns;
    when it raises, at whatever step, the process is left in the build
    directory. *)
Theorem build_restores_cwd_on_return `{FloatRepr} `{Microsemi.SignalRepr}
    (platform : Platform) (build_dir build_name : string) (run : bool) (w : World)
    (ta : Anlogic.TangDinastyToolchain) (to : OSFPGA.OSFPGAToolchain)
    (tq : QuickLogic.SymbiflowToolchain)
    (tm : Microsemi.MicrosemiLiberoSoCPolarfireToolchain) :
  startswith (cwd w) "/" = true ->
  leaves_cwd w build_dir (Anlogic.build ta platform build_dir build_name run w) /\
  leaves_cwd w build_dir (OSFPGA.build to platform build_dir build_name run w) /\
  leaves_cwd w build_dir (QuickLogic.build tq platform build_dir build_name run w) /\
  leaves_cwd w build_dir (Microsemi.build tm platform build_dir build_name run w).
Proof.
  intros Habs. split_and!.
  - by apply anlogic_build_cwd.
  - by apply osfpga_build_cwd.
  - by apply quicklogic_build_cwd.
  - by apply microsemi_build_cwd.
Qed.

Lemma build_restores_cwd_on_return_witness :
  leaves_cwd (Examples.host ["td"] 0) "build"
    (Anlogic.build (H := Examples.millis) Anlogic.__init__
       (Examples.board "EG4S20BG256" [Examples.led]) "build" "top" true
       (Examples.host ["td"] 0)).
Proof.
  exact (proj1 (build_restores_cwd_on_return (H := Examples.millis)
           (H0 := Examples.by_id)
           (Examples.board "EG4S20BG256" [Examples.led]) "build" "top" true
           (Examples.host ["td"] 0) Anlogic.__init__ (OSFPGA.__init__ "foedag")
           QuickLogic.__init__ Microsemi.__init__ eq_refl)).
Defined.

(* ================================================================== *)
(** * Strings inside messages                                           *)
(* ================================================================== *)

Lemma prefix_app (n c : string) : String.prefix n (n +:+ c) = true.
Proof.
  induction n as [|a n IH]; simpl.
  - by destruct c.
  - destruct (ascii_dec a a); [exact IH | congruence].
Qed.

Lemma contains_prefix (n h : string) : String.prefix n h = true -> contains n h = true.
Proof. intros Hp. destruct h; cbn [contains]; rewrite Hp; done. Qed.

Lemma contains_app_r (n a b : string) : contains n b = true -> contains n (a +:+ b) = true.
Proof.
  intros Hb. induction a as [|c a IH]; [done|].
  change (String c a +:+ b) with (String c (a +:+ b)). cbn [contains].
  rewrite IH. apply orb_true_r.
Qed.

Lemma contains_here (n a c : string) : contains n (a +:+ n +:+ c) = true.
Proof. apply contains_app_r, contains_prefix, prefix_app. Qed.

(* ================================================================== *)
(** * The Run step                                                      *)
(* ================================================================== *)

(** An end of a run at which nothing was spawned and, if the earlier
    steps could not fail, the exception is the expected one. *)
Ltac absent_leaf :=
  not_running; world_simpl;
  first
    [ exfalso;
      match goal with
      | H : _ ∉ set_add _ _ |- _ => apply H, elem_of_set_add_same
      end
    | split; [reflexivity|];
      let Hf := fresh in let Hv := fresh in let Hn := fresh in
      first [ intros (? & ? & ? & ? & (Hf & Hv & Hn) & ? & ?)
            | intros (? & ? & ? & (Hf & Hv & Hn) & ?)
            | intros (? & ? & (Hf & Hv & Hn)) ];
      congruence ].

Lemma anlogic_build_absent `{FloatRepr} self platform build_dir build_name w :
  "td" ∉ search_path w ->
  exists w' e,
    Anlogic.build self platform build_dir build_name true w = (w', inl e) /\
    spawned w' = spawned w /\
    (anlogic_ready platform -> e = OSError Anlogic.not_found_msg).
Proof.
  intros Hpath%set_mem_false. apply wp_raises.
  unfold Anlogic.build. unfold_emitters.
  wp_go_with ltac:(rewrite ?Hpath; cbn [negb]); absent_leaf.
Qed.

Lemma osfpga_build_absent `{FloatRepr} self platform build_dir build_name w :
  OSFPGA.toolchain self ∉ search_path w ->
  exists w' e,
    OSFPGA.build self platform build_dir build_name true w = (w', inl e) /\
    spawned w' = spawned w /\
    (osfpga_ready platform ->
     e = OSError (OSFPGA.not_found_msg (OSFPGA.toolchain self))).
Proof.
  intros Hpath%set_mem_false. apply wp_raises.
  unfold OSFPGA.build. unfold_emitters.
  wp_go_with ltac:(rewrite ?Hpath; cbn [negb]); absent_leaf.
Qed.

Lemma quicklogic_build_absent self platform build_dir build_name w :
  "ql_symbiflow" ∉ search_path w ->
  exists w' e,
    QuickLogic.build self platform build_dir build_name true w = (w', inl e) /\
    spawned w' = spawned w /\
    (quicklogic_ready platform -> e = OSError QuickLogic.not_found_msg).
Proof.
  intros Hpath%set_mem_false. apply wp_raises.
  unfold QuickLogic.build. unfold_emitters.
  wp_go_with ltac:(rewrite ?Hpath; cbn [negb]); absent_leaf.
Qed.

(** C8, as the claim states it, fails on the Microsemi toolchain, which
    never consults the search path: with nothing but [bash] on it the
    build runs the generated script and returns; with an empty search
    path it raises what the spawn raises, not a message about PATH. *)
Lemma microsemi_build_no_path_check :
  let H := Examples.millis in
  let H0 := Examples.by_id in
  let board := Examples.board "MPF300TS-FCG484-1" [Examples.led] in
  let found := Microsemi.build Microsemi.__init__ board "/home/user/proj/build" "top"
                 true (Examples.host ["bash"] 0) in
  let lost := Microsemi.build Microsemi.__init__ board "/home/user/proj/build" "top"
                 true (Examples.host [] 0) in
  (exists ns, found.2 = inr ns) /\
  spawned found.1 = [["bash"; "build_top.sh"]] /\
  lost.2 = inl (FileNotFoundError "bash").
Proof. vm_compute. split; [by eexists | done]. Qed.

(** C8 (amended). On the Anlogic, OSFPGA and QuickLogic toolchains a
    build with run requested, on a search path without the vendor
    executable, raises and spawns no process; when the steps before Run
    raise nothing, what it raises is the [OSError] whose message names
    the step "Add ... toolchain to your $PATH". (The Microsemi toolchain
    makes no such check.) *)
Theorem build_toolchain_not_found `{FloatRepr}
    (platform : Platform) (build_dir build_name : string) (w : World)
    (ta : Anlogic.TangDinastyToolchain) (to : OSFPGA.OSFPGAToolchain)
    (tq : QuickLogic.SymbiflowToolchain) :
  "td" ∉ search_path w ->
  OSFPGA.toolchain to ∉ search_path w ->
  "ql_symbiflow" ∉ search_path w ->
  (exists w' e,
      Anlogic.build ta platform build_dir build_name true w = (w', inl e) /\
      spawned w' = spawned w /\
      (anlogic_ready platform -> e = OSError Anlogic.not_found_msg))
  /\ (exists w' e,
      OSFPGA.build to platform build_dir build_name true w = (w', inl e) /\
      spawned w' = spawned w /\
      (osfpga_ready platform ->
       e = OSError (OSFPGA.not_found_msg (OSFPGA.toolchain to))))
  /\ (exists w' e,
      QuickLogic.build tq platform build_dir build_name true w = (w', inl e) /\
      spawned w' = spawned w /\
      (quicklogic_ready platform -> e = OSError QuickLogic.not_found_msg))
  /\ contains "toolchain to your $PATH" Anlogic.not_found_msg = true
  /\ contains "toolchain to your $PATH" (OSFPGA.not_found_msg (OSFPGA.toolchain to)) = true
  /\ contains "toolchain to your $PATH" QuickLogic.not_found_msg = true.
Proof.
  intros Ha Ho Hq. split_and!.
  - by apply anlogic_build_absent.
  - by apply osfpga_build_absent.
  - by apply quicklogic_build_absent.
  - reflexivity.
  - unfold OSFPGA.not_found_msg.
    do 6 apply contains_app_r. reflexivity.
  - reflexivity.
Qed.

Lemma build_toolchain_not_found_witness :
  exists w' e,
    Anlogic.build (H := Examples.millis) Anlogic.__init__
      (Examples.board "EG4S20BG256" [Examples.led]) "build" "top" true
      (Examples.host [] 0) = (w', inl e) /\
    spawned w' = spawned (Examples.host [] 0) /\
    (anlogic_ready (Examples.board "EG4S20BG256" [Examples.led]) ->
     e = OSError Anlogic.not_found_msg).
Proof.
  assert (forall x : string, x ∉ search_path (Examples.host [] 0)) as Hno
    by (intros x; apply not_elem_of_nil).
  exact (proj1 (build_toolchain_not_found (H := Examples.millis)
           (Examples.board "EG4S20BG256" [Examples.led]) "build" "top"
           (Examples.host [] 0) Anlogic.__init__ (OSFPGA.__init__ "foedag")
           QuickLogic.__init__ (Hno _) (Hno _) (Hno _))).
Defined.

(** Ends of a run that the hypotheses exclude: a directory that was just
    made is missing, the start directory is missing, or a program on the
    search path is not found. *)
Ltac runs_leaf Hwf :=
  not_running; world_simpl;
  first
    [ done
    | exfalso;
      match goal with
      | H : _ ∉ set_add _ _ |- _ => apply H, elem_of_set_add_same
      end
    | exfalso; destruct Hwf as [Habs Hin];
      match goal with
      | H : resolve _ (cwd _) ∉ _ |- _ =>
          rewrite (resolve_absolute _ _ Habs) in H;
          apply H; repeat apply elem_of_set_add_old; exact Hin
      end
    | exfalso; solve [eauto] ].

Ltac use_ready Hready :=
  let Hf := fresh "Hf" in let Hv := fresh "Hv" in let Hn := fresh "Hn" in
  first [ destruct Hready as (? & ? & ? & ? & (Hf & Hv & Hn) & ? & ?)
        | destruct Hready as (? & ? & ? & (Hf & Hv & Hn) & ?)
        | destruct Hready as (? & ? & (Hf & Hv & Hn)) ].

(** Rewrite with every equation among the hypotheses that applies. *)
Ltac rewrite_known :=
  repeat match goal with
         | H : ?l = _ |- context [?l] => rewrite H
         end.

Lemma Zeqb_nonzero (z : Z) : z ≠ 0%Z -> (z =? 0)%Z = false.
Proof. apply Z.eqb_neq. Qed.

Lemma anlogic_build_status `{FloatRepr} self platform build_dir build_name w :
  well_formed w -> anlogic_ready platform -> "td" ∈ search_path w ->
  (exit_status w ["td"; "run.tcl"] ≠ 0%Z ->
   exists w', Anlogic.build self platform build_dir build_name true w
              = (w', inl (OSError Anlogic.failed_msg)))
  /\ (exit_status w ["td"; "run.tcl"] = 0%Z ->
      exists w' ns, Anlogic.build self platform build_dir build_name true w
                    = (w', inr ns))
  /\ (exists w' ns, Anlogic.build self platform build_dir build_name false w
                    = (w', inr ns)).
Proof.
  intros Hwf Hready Hpath. use_ready Hready.
  assert (set_mem "td" (search_path w) = true) as Hmem by by apply set_mem_true.
  split_and!.
  - intros Hst%Zeqb_nonzero.
    enough (wp (Anlogic.build self platform build_dir build_name true)
               (fun _ _ => False) (fun _ e => e = OSError Anlogic.failed_msg) w) as Hwp.
    { apply wp_raises in Hwp as (w' & e & Hb & ->). by exists w'. }
    unfold Anlogic.build. unfold_emitters.
    wp_go_with ltac:(rewrite_known; cbn [negb]); runs_leaf Hwf.
  - intros Hst.
    enough (wp (Anlogic.build self platform build_dir build_name true)
               (fun _ _ => True) (fun _ _ => False) w) as Hwp.
    { apply wp_returns in Hwp as (w' & ns & Hb & _). by exists w', ns. }
    unfold Anlogic.build. unfold_emitters.
    wp_go_with ltac:(rewrite_known; cbn [negb Z.eqb]); runs_leaf Hwf.
  - enough (wp (Anlogic.build self platform build_dir build_name false)
               (fun _ _ => True) (fun _ _ => False) w) as Hwp.
    { apply wp_returns in Hwp as (w' & ns & Hb & _). by exists w', ns. }
    unfold Anlogic.build. unfold_emitters.
    wp_go_with ltac:(rewrite_known; cbn [negb]); runs_leaf Hwf.
Qed.

Lemma osfpga_build_status `{FloatRepr} self platform build_dir build_name w :
  well_formed w -> osfpga_ready platform -> OSFPGA.toolchain self ∈ search_path w ->
  let argv := [OSFPGA.toolchain self; "--batch"; "--script"; "build.tcl"] in
  (exit_status w argv ≠ 0%Z ->
   exists w', OSFPGA.build self platform build_dir build_name true w
              = (w', inl (OSError (OSFPGA.failed_msg (OSFPGA.toolchain self)))))
  /\ (exit_status w argv = 0%Z ->
      exists w' ns, OSFPGA.build self platform build_dir build_name true w
                    = (w', inr ns))
  /\ (exists w' ns, OSFPGA.build self platform build_dir build_name false w
                    = (w', inr ns)).
Proof.
  intros Hwf Hready Hpath argv. subst argv. use_ready Hready.
  assert (set_mem (OSFPGA.toolchain self) (search_path w) = true) as Hmem
    by by apply set_mem_true.
  split_and!.
  - intros Hst%Zeqb_nonzero.
    enough (wp (OSFPGA.build self platform build_dir build_name true)
               (fun _ _ => False)
               (fun _ e => e = OSError (OSFPGA.failed_msg (OSFPGA.toolchain self))) w)
      as Hwp.
    { apply wp_raises in Hwp as (w' & e & Hb & ->). by exists w'. }
    unfold OSFPGA.build. unfold_emitters.
    wp_go_with ltac:(rewrite_known; cbn [negb]); runs_leaf Hwf.
  - intros Hst.
    enough (wp (OSFPGA.build self platform build_dir build_name true)
               (fun _ _ => True) (fun _ _ => False) w) as Hwp.
    { apply wp_returns in Hwp as (w' & ns & Hb & _). by exists w', ns. }
    unfold OSFPGA.build. unfold_emitters.
    wp_go_with ltac:(rewrite_known; cbn [negb Z.eqb]); runs_leaf Hwf.
  - enough (wp (OSFPGA.build self platform build_dir build_name false)
               (fun _ _ => True) (fun _ _ => False) w) as Hwp.
    { apply wp_returns in Hwp as (w' & ns & Hb & _). by exists w', ns. }
    unfold OSFPGA.build. unfold_emitters.
    wp_go_with ltac:(rewrite_known; cbn [negb]); runs_leaf Hwf.
Qed.

Lemma quicklogic_build_status self platform build_dir build_name w :
  well_formed w -> quicklogic_ready platform ->
  "ql_symbiflow" ∈ search_path w -> "make" ∈ search_path w ->
  (exit_status w ["make"; "-j1"] ≠ 0%Z ->
   exists w', QuickLogic.build self platform build_dir build_name true w
              = (w', inl (OSError QuickLogic.failed_msg)))
  /\ (exit_status w ["make"; "-j1"] = 0%Z ->
      exists w' ns, QuickLogic.build self platform build_dir build_name true w
                    = (w', inr ns))
  /\ (exists w' ns, QuickLogic.build self platform build_dir build_name false w
                    = (w', inr ns)).
Proof.
  intros Hwf Hready Hpath Hmake. use_ready Hready.
  assert (set_mem "ql_symbiflow" (search_path w) = true) as Hmem
    by by apply set_mem_true.
  split_and!.
  - intros Hst%Zeqb_nonzero.
    enough (wp (QuickLogic.build self platform build_dir build_name true)
               (fun _ _ => False) (fun _ e => e = OSError QuickLogic.failed_msg) w)
      as Hwp.
    { apply wp_raises in Hwp as (w' & e & Hb & ->). by exists w'. }
    unfold QuickLogic.build. unfold_emitters.
    wp_go_with ltac:(rewrite_known; cbn [negb]); runs_leaf Hwf.
  - intros Hst.
    enough (wp (QuickLogic.build self platform build_dir build_name true)
               (fun _ _ => True) (fun _ _ => False) w) as Hwp.
    { apply wp_returns in Hwp as (w' & ns & Hb & _). by exists w', ns. }
    unfold QuickLogic.build. unfold_emitters.
    wp_go_with ltac:(rewrite_known; cbn [negb Z.eqb]); runs_leaf Hwf.
  - enough (wp (QuickLogic.build self platform build_dir build_name false)
               (fun _ _ => True) (fun _ _ => False) w) as Hwp.
    { apply wp_returns in Hwp as (w' & ns & Hb & _). by exists w', ns. }
    unfold QuickLogic.build. unfold_emitters.
    wp_go_with ltac:(rewrite_known; cbn [negb]); runs_leaf Hwf.
Qed.

(** [_run_script] on a host where the shell is found. *)
Lemma microsemi_run_script script w :
  sys_platform w = "linux" -> "bash" ∈ search_path w ->
  Microsemi._run_script script w
  = (set_spawned (spawned w ++ [["bash"; script]]) w,
     if (exit_status w ["bash"; script] =? 0)%Z then inr tt
     else inl (OSError "Subprocess failed")).
Proof.
  intros Hplat Hbash%set_mem_true.
  unfold Microsemi._run_script, bind, gets, subprocess_call. rewrite Hplat. simpl.
  rewrite Hbash. by destruct (_ =? _)%Z.
Qed.

(** ** The Microsemi build and the [impl] directory *)

Lemma string_length_app (a b : string) :
  String.length (a +:+ b) = String.length a + String.length b.
Proof. induction a as [|c a IH]; simpl; [done | by rewrite IH]. Qed.

Lemma last2_app (a b : string) : 2 <= String.length b -> last2 (a +:+ b) = last2 b.
Proof.
  intros Hb. induction a as [|c a IH]; [done|].
  change (String c a +:+ b) with (String c (a +:+ b)). cbn [last2].
  pose proof (string_length_app a b) as Hlen.
  destruct (a +:+ b) as [|x [|y r]]; simpl in Hlen; [lia..|]. exact IH.
Qed.

Lemma last2_resolve (d k : string) :
  2 <= String.length k -> last2 (resolve d k) = last2 k.
Proof.
  intros Hk. unfold resolve. destruct (startswith k "/"); [done|].
  rewrite !last2_app; [done..|]. rewrite string_length_app. lia.
Qed.

Lemma elem_of_dict_set_keys {V} (x k : string) (v : V) (d : list (string * V)) :
  x ∈ (dict_set k v d).*1 -> x = k \/ x ∈ d.*1.
Proof.
  induction d as [|[k' v'] d IH]; simpl.
  - intros ->%list_elem_of_singleton. by left.
  - destruct (decide (k = k')) as [->|Hne]; simpl.
    + rewrite !elem_of_cons. tauto.
    + rewrite !elem_of_cons. intros [->|Hx]; [tauto|]. destruct (IH Hx); tauto.
Qed.

(** The [impl] entry of a directory is none of the files a build
    writes there: their names end differently. *)
Ltac not_impl :=
  let Heq := fresh in
  intros Heq; apply (f_equal last2) in Heq;
  rewrite !last2_resolve, ?last2_app in Heq
    by (rewrite ?string_length_app; simpl; lia);
  vm_compute in Heq; discriminate.

Ltac impl_leaf Hwf Himpl Hout :=
  not_running; world_simpl; exfalso;
  lazymatch goal with
  | H : resolve _ (cwd _) ∉ filter _ _ |- False =>
      destruct Hwf as [Habs Hin]; rewrite (resolve_absolute _ _ Habs) in H;
      apply H, list_elem_of_filter; split;
      [by rewrite Hout | by apply elem_of_set_add_old]
  | H : resolve _ "impl" ∉ set_add _ _, Hb : (_ || _) = true |- False =>
      unfold Microsemi.script_ext in Hb;
      repeat match goal with
             | Hw : Microsemi.is_windows _ = _ |- _ => rewrite Hw in Hb
             end;
      try match type of Hb with
          | context [Microsemi.is_windows ?p] => destruct (Microsemi.is_windows p)
          end;
      apply orb_true_iff in Hb as [Hb|Hb]; apply set_mem_true in Hb;
      first
        [ done
        | repeat (apply elem_of_dict_set_keys in Hb as [Hb|Hb];
                  [by (revert Hb; not_impl)|]);
          destruct Himpl as [?|?]; [apply H; by apply elem_of_set_add_old | done] ]
  end.

Lemma microsemi_build_status `{FloatRepr} `{Microsemi.SignalRepr}
    self platform build_dir build_name w :
  well_formed w -> microsemi_ready platform self ->
  startswith build_dir "/" = true ->
  let script := "build_" +:+ build_name +:+ Microsemi.script_ext (sys_platform w) in
  (exists w' ns, Microsemi.build self platform build_dir build_name false w
                 = (w', inr ns))
  /\ (microsemi_host w build_dir ->
      (exit_status w (shell_of w ++ [script]) ≠ 0%Z ->
       exists w', Microsemi.build self platform build_dir build_name true w
                  = (w', inl (OSError Microsemi.failed_msg)))
      /\ (exit_status w (shell_of w ++ [script]) = 0%Z ->
          exists w' ns, Microsemi.build self platform build_dir build_name true w
                        = (w', inr ns))).
Proof.
  intros Hwf Hready Hbd script. subst script. use_ready Hready.
  unfold shell_of in *. split; [|intros (Hshell & Himpl & Hout); split].
  - enough (wp (Microsemi.build self platform build_dir build_name false)
               (fun _ _ => True) (fun _ _ => False) w) as Hwp.
    { apply wp_returns in Hwp as (w' & ns & Hb & _). by exists w', ns. }
    unfold Microsemi.build. unfold_emitters.
    wp_go_with ltac:(rewrite ?(resolve_absolute _ _ Hbd); rewrite_known; cbn [negb]);
      rewrite ?(resolve_absolute _ _ Hbd) in *; runs_leaf Hwf.
  - intros Hst%Zeqb_nonzero.
    enough (wp (Microsemi.build self platform build_dir build_name true)
               (fun _ _ => False) (fun _ e => e = OSError Microsemi.failed_msg) w)
      as Hwp.
    { apply wp_raises in Hwp as (w' & e & Hb & ->). by exists w'. }
    unfold Microsemi.build. unfold_emitters.
    wp_go_with ltac:(rewrite ?(resolve_absolute _ _ Hbd); cbn [app] in Hst;
                     rewrite_known; cbn [negb]);
      rewrite ?(resolve_absolute _ _ Hbd) in *;
      first [runs_leaf Hwf | impl_leaf Hwf Himpl Hout].
  - intros Hst.
    enough (wp (Microsemi.build self platform build_dir build_name true)
               (fun _ _ => True) (fun _ _ => False) w) as Hwp.
    { apply wp_returns in Hwp as (w' & ns & Hb & _). by exists w', ns. }
    unfold Microsemi.build. unfold_emitters.
    wp_go_with ltac:(rewrite ?(resolve_absolute _ _ Hbd); cbn [app] in Hst;
                     rewrite_known; cbn [negb Z.eqb]);
      rewrite ?(resolve_absolute _ _ Hbd) in *;
      first [runs_leaf Hwf | impl_leaf Hwf Himpl Hout].
Qed.

(** C9, as the claim states it, fails on the Microsemi toolchain: when
    the script exits with a non-zero status the build raises
    [OSError("Subprocess failed")], a message that names no vendor. *)
Lemma microsemi_failure_names_no_vendor :
  let H := Examples.millis in
  let H0 := Examples.by_id in
  let failed := Microsemi.build Microsemi.__init__
                  (Examples.board "MPF300TS-FCG484-1" [Examples.led])
                  "/home/user/proj/build" "top" true (Examples.host ["bash"] 1) in
  failed.2 = inl (OSError "Subprocess failed") /\
  spawned failed.1 = [["bash"; "build_top.sh"]] /\
  Forall (fun vendor => contains vendor (upper "Subprocess failed") = false)
         ["MICROSEMI"; "LIBERO"; "POLARFIRE"; "MICROCHIP"].
Proof. vm_compute. split_and!; [done..|]. repeat constructor. Qed.

(** C9 (amended). From a process whose working directory exists, when
    the steps before Run raise nothing and the programs Run starts are on
    the search path: on the Anlogic, OSFPGA and QuickLogic toolchains a
    non-zero exit status of the vendor process makes build raise the
    [OSError] whose message names the vendor, and build returns when the
    status is 0 or run was not requested. On the Microsemi toolchain
    (build directory given by an absolute path; with run requested, its
    [impl] entry not a plain file and the start directory not inside it)
    build returns in the same two cases, and a non-zero status makes it
    raise the [OSError] of [_run_script]. *)
Theorem build_exit_status `{FloatRepr} `{Microsemi.SignalRepr}
    (platform : Platform) (build_dir build_name : string) (w : World)
    (ta : Anlogic.TangDinastyToolchain) (to : OSFPGA.OSFPGAToolchain)
    (tq : QuickLogic.SymbiflowToolchain)
    (tm : Microsemi.MicrosemiLiberoSoCPolarfireToolchain) :
  well_formed w ->
  (anlogic_ready platform -> "td" ∈ search_path w ->
     (exit_status w ["td"; "run.tcl"] ≠ 0%Z ->
      exists w', Anlogic.build ta platform build_dir build_name true w
                 = (w', inl (OSError Anlogic.failed_msg)))
     /\ (exit_status w ["td"; "run.tcl"] = 0%Z ->
         exists w' ns, Anlogic.build ta platform build_dir build_name true w
                       = (w', inr ns))
     /\ (exists w' ns, Anlogic.build ta platform build_dir build_name false w
                       = (w', inr ns)))
  /\ (osfpga_ready platform -> OSFPGA.toolchain to ∈ search_path w ->
      let argv := [OSFPGA.toolchain to; "--batch"; "--script"; "build.tcl"] in
      (exit_status w argv ≠ 0%Z ->
       exists w', OSFPGA.build to platform build_dir build_name true w
                  = (w', inl (OSError (OSFPGA.failed_msg (OSFPGA.toolchain to)))))
      /\ (exit_status w argv = 0%Z ->
          exists w' ns, OSFPGA.build to platform build_dir build_name true w
                        = (w', inr ns))
      /\ (exists w' ns, OSFPGA.build to platform build_dir build_name false w
                        = (w', inr ns)))
  /\ (quicklogic_ready platform ->
      "ql_symbiflow" ∈ search_path w -> "make" ∈ search_path w ->
      (exit_status w ["make"; "-j1"] ≠ 0%Z ->
       exists w', QuickLogic.build tq platform build_dir build_name true w
                  = (w', inl (OSError QuickLogic.failed_msg)))
      /\ (exit_status w ["make"; "-j1"] = 0%Z ->
          exists w' ns, QuickLogic.build tq platform build_dir build_name true w
                        = (w', inr ns))
      /\ (exists w' ns, QuickLogic.build tq platform build_dir build_name false w
                        = (w', inr ns)))
  /\ (microsemi_ready platform tm -> startswith build_dir "/" = true ->
      let script := "build_" +:+ build_name +:+ Microsemi.script_ext (sys_platform w) in
      (exists w' ns, Microsemi.build tm platform build_dir build_name false w
                     = (w', inr ns))
      /\ (microsemi_host w build_dir ->
          (exit_status w (shell_of w ++ [script]) ≠ 0%Z ->
           exists w', Microsemi.build tm platform build_dir build_name true w
                      = (w', inl (OSError Microsemi.failed_msg)))
          /\ (exit_status w (shell_of w ++ [script]) = 0%Z ->
              exists w' ns, Microsemi.build tm platform build_dir build_name true w
                            = (w', inr ns))))
  /\ contains "Tang Dinasty" Anlogic.failed_msg = true
  /\ contains (upper (OSFPGA.toolchain to)) (OSFPGA.failed_msg (OSFPGA.toolchain to)) = true
  /\ contains "QuickLogic Symbiflow" QuickLogic.failed_msg = true.
Proof.
  intros Hwf. split_and!.
  - intros. by apply anlogic_build_status.
  - intros. by apply osfpga_build_status.
  - intros. by apply quicklogic_build_status.
  - intros. by apply microsemi_build_status.
  - reflexivity.
  - unfold OSFPGA.failed_msg. apply contains_here.
  - reflexivity.
Qed.

Lemma build_exit_status_witness :
  exists w',
    Anlogic.build (H := Examples.millis) Anlogic.__init__
      (Examples.board "EG4S20BG256" [Examples.led]) "build" "top" true
      (Examples.host ["td"] 1)
    = (w', inl (OSError Anlogic.failed_msg)).
Proof.
  assert (well_formed (Examples.host ["td"] 1)) as Hwf
    by (split; [reflexivity | apply list_elem_of_singleton; reflexivity]).
  assert (anlogic_ready (Examples.board "EG4S20BG256" [Examples.led])) as Hready
    by (unfold anlogic_ready, converts; do 4 eexists; split_and!; reflexivity).
  assert ("td" ∈ search_path (Examples.host ["td"] 1)) as Hpath
    by (apply list_elem_of_singleton; reflexivity).
  destruct (build_exit_status (H := Examples.millis) (H0 := Examples.by_id)
              (Examples.board "EG4S20BG256" [Examples.led]) "build" "top"
              (Examples.host ["td"] 1) Anlogic.__init__ (OSFPGA.__init__ "foedag")
              QuickLogic.__init__ Microsemi.__init__ Hwf) as [Ha _].
  destruct (Ha Hready Hpath) as [Hfail _].
  apply Hfail. discriminate.
Defined.

(* ================================================================== *)
(** * What the emitters write                                           *)
(* ================================================================== *)

Lemma emitted_write_file name text w :
  emitted (write_file name text) name w = inr (Some text).
Proof.
  unfold emitted, write_file, modify, read_file. simpl.
  by rewrite dict_get_set_eq.
Qed.

Lemma emitted_lift_write_file (r : exn + string) name w :
  emitted (text <- lift r ;; write_file name text) name w
  = match r with inl e => inl e | inr text => inr (Some text) end.
Proof.
  destruct r as [e|text]; [done|].
  unfold emitted, bind, lift. apply emitted_write_file.
Qed.

Lemma emitted_build_al name family device files w :
  emitted (Anlogic._build_al name family device files) (name +:+ ".al") w
  = inr (Some (Anlogic.al_text (now w) name family device files)).
Proof. unfold Anlogic._build_al, emitted, bind, gets. apply emitted_write_file. Qed.

Lemma emitted_microsemi_build_tcl platform sources build_dir build_name w :
  emitted (Microsemi._build_tcl platform sources build_dir build_name)
          (build_name +:+ ".tcl") w
  = match Microsemi.split_device (device platform), (listdir build_dir w).2 with
    | inl e, _ => inl e
    | inr _, inl e => inl e
    | inr (die, package, speed), inr listing =>
        inr (Some (Microsemi.tcl_text die package speed sources listing build_name))
    end.
Proof.
  unfold Microsemi._build_tcl, emitted, bind, lift.
  destruct (Microsemi.split_device _) as [e|[[die package] speed]]; [done|].
  destruct (listdir build_dir w) as [w' [e|listing]] eqn:Hl; simpl; [done|].
  assert (w' = w) as ->.
  { unfold listdir in Hl. destruct (set_mem _ _); by injection Hl. }
  apply emitted_write_file.
Qed.

Lemma emitted_build_script build_name device w :
  emitted (Microsemi._build_script build_name device)
          ("build_" +:+ build_name +:+ Microsemi.script_ext (sys_platform w)) w
  = inr (Some (Microsemi.script_contents (sys_platform w) (git_revision w))).
Proof.
  unfold Microsemi._build_script, emitted, bind, gets, write_to_file, write_file,
    modify, ret, read_file. simpl. by rewrite dict_get_set_eq.
Qed.

(** C5, as the claim states it, fails on the Anlogic project file: it
    embeds the time of the run, so the same inputs give different bytes
    a second later. *)
Lemma build_al_depends_on_time :
  let project w := emitted (Anlogic._build_al "top" "EG4" "EG4S20BG256" []) "top.al" w in
  project (Examples.host [] 0) ≠ project (Examples.host_later [] 0).
Proof. vm_compute. discriminate. Qed.

(** C5 (amended). Run in any two states of the process, every emitter
    but three leaves the same bytes in its file for the same arguments
    (or raises the same exception). The Anlogic project file also embeds
    the current time, the Microsemi project script also lists the build
    directory, and the Microsemi build script also depends on the host
    platform and the git revision: each of them writes the same bytes
    when that too is the same. *)
Theorem emitters_deterministic `{FloatRepr} `{Microsemi.SignalRepr}
    (named_sc : list NamedSC) (named_pc : list string)
    (clocks : list (Signal * Q)) (false_paths : list (Signal * Signal))
    (vns : Namespace) (sources : list SourceFile) (platform : Platform)
    (name family architecture package build_dir build_name : string)
    (io_extra fp_extra timing_extra include_paths : list string)
    (w1 w2 : World) :
  let same {A} (m : M A) (file : string) := emitted m file w1 = emitted m file w2 in
  same (Anlogic._build_adc named_sc named_pc) "top.adc"
  /\ same (Anlogic._build_sdc clocks vns) "top.sdc"
  /\ same (Anlogic._build_tcl name architecture package) "run.tcl"
  /\ same (Microsemi._build_io_pdc named_sc named_pc build_name io_extra)
          (build_name +:+ "_io.pdc")
  /\ same (Microsemi._build_fp_pdc build_name fp_extra) (build_name +:+ "_fp.pdc")
  /\ same (Microsemi._build_timing_sdc vns clocks false_paths build_name timing_extra)
          (build_name +:+ ".sdc")
  /\ same (OSFPGA._build_sdc clocks vns build_name) (build_name +:+ ".sdc")
  /\ same (OSFPGA._build_tcl name (device platform) sources build_name include_paths)
          "build.tcl"
  /\ same (QuickLogic._build_io_pcf named_sc named_pc build_name) (build_name +:+ ".pcf")
  /\ same (QuickLogic._build_makefile platform sources build_dir build_name) "Makefile"
  /\ (now w1 = now w2 ->
      same (Anlogic._build_al name family (device platform) sources) (name +:+ ".al"))
  /\ ((listdir build_dir w1).2 = (listdir build_dir w2).2 ->
      same (Microsemi._build_tcl platform sources build_dir build_name)
           (build_name +:+ ".tcl"))
  /\ (sys_platform w1 = sys_platform w2 -> git_revision w1 = git_revision w2 ->
      same (Microsemi._build_script build_name (device platform))
           ("build_" +:+ build_name +:+ Microsemi.script_ext (sys_platform w1))).
Proof.
  intros same. subst same. cbv beta. unfold_emitters. unfold write_to_file.
  rewrite !emitted_lift_write_file, !emitted_write_file. split_and!; try done.
  - intros Hnow. fold (Anlogic._build_al name family (device platform) sources).
    by rewrite !emitted_build_al, Hnow.
  - intros Hls.
    pose proof (emitted_microsemi_build_tcl platform sources build_dir build_name) as He.
    unfold Microsemi._build_tcl, write_to_file in He. by rewrite !He, Hls.
  - intros Hplat Hrev.
    pose proof (emitted_build_script build_name (device platform)) as He.
    unfold Microsemi._build_script, write_to_file in He.
    rewrite (He w1), Hplat, (He w2), Hrev. done.
Qed.

Lemma emitters_deterministic_witness :
  emitted (Anlogic._build_al "top" "EG4" "EG4S20BG256" []) "top.al" (Examples.host [] 0)
  = emitted (Anlogic._build_al "top" "EG4" "EG4S20BG256" []) "top.al"
            (Examples.host ["td"] 1).
Proof.
  pose proof (emitters_deterministic (H := Examples.millis) (H0 := Examples.by_id)
                [] [] [] [] Examples.names []
                (Examples.board "EG4S20BG256" []) "top" "EG4" "eagle_s20" "BG256"
                "build" "top" [] [] [] []
                (Examples.host [] 0) (Examples.host ["td"] 1)) as Hall.
  cbv zeta in Hall.
  destruct Hall as (_ & _ & _ & _ & _ & _ & _ & _ & _ & _ & Hal & _).
  exact (Hal eq_refl).
Defined.

(* ================================================================== *)
(** * Multi-bit signals in the IO constraint files                      *)
(* ================================================================== *)

Lemma prefix_empty (s : string) : String.prefix EmptyString s = true.
Proof. by destruct s. Qed.

Lemma prefix_app_l (n a b : string) :
  String.prefix n a = true -> String.prefix n (a +:+ b) = true.
Proof.
  revert a. induction n as [|c n IH]; intros a; [intros _; apply prefix_empty|].
  destruct a as [|c' a]; simpl; [done|].
  destruct (ascii_dec c c'); [apply IH | done].
Qed.

Lemma contains_app_l (n a b : string) :
  contains n a = true -> contains n (a +:+ b) = true.
Proof.
  induction a as [|c a IH].
  - cbn [contains]. rewrite orb_false_r. intros Hp.
    destruct n; [|by destruct (EmptyString +:+ b)].
    apply contains_prefix, prefix_empty.
  - change (String c a +:+ b) with (String c (a +:+ b)). cbn [contains].
    intros [Hp|Hc]%orb_true_iff.
    + apply orb_true_iff. left. exact (prefix_app_l _ (String c a) b Hp).
    + rewrite (IH Hc). apply orb_true_r.
Qed.

Lemma string_app_empty_r (s : string) : s +:+ EmptyString = s.
Proof.
  induction s as [|c s IH]; [done|].
  change (String c (s +:+ EmptyString) = String c s). by rewrite IH.
Qed.

Lemma contains_concat (n x : string) (l : list string) :
  x ∈ l -> contains n x = true -> contains n (String.concat EmptyString l) = true.
Proof.
  intros Hin Hx. induction l as [|y l IH]; [by apply elem_of_nil in Hin|].
  assert (String.concat EmptyString (y :: l) = y +:+ String.concat EmptyString l) as ->.
  { destruct l; simpl; [|done]. by rewrite string_app_empty_r. }
  apply elem_of_cons in Hin as [->|Hin].
  - by apply contains_app_l.
  - by apply contains_app_r, IH.
Qed.

Lemma map_exn_total {A B} (f : A -> exn + B) (g : A -> B) (l : list A) :
  Forall (fun x => f x = inr (g x)) l -> map_exn f l = inr (g <$> l).
Proof.
  induction 1 as [|x l Hx _ IH]; simpl; [done|]. by rewrite Hx, IH.
Qed.

Lemma Forall_imap_pair {A} (P : nat * A -> Prop) (l : list A) :
  (forall i x, P (i, x)) -> Forall P (imap pair l).
Proof.
  intros HP. apply Forall_forall. intros [i x] _. apply HP.
Qed.

Lemma imap_pair_fmap {A B} (f : nat -> A -> B) (l : list A) :
  (fun ix : nat * A => f ix.1 ix.2) <$> imap pair l = imap f l.
Proof. rewrite fmap_imap. by apply imap_ext. Qed.

Lemma format_io_pdc_formattable signame pin others :
  Forall (fun c => formattable c = true) others ->
  Microsemi._format_io_pdc signame pin others = inr (pdc_entry signame pin others).
Proof.
  intros Hall. unfold Microsemi._format_io_pdc.
  rewrite (map_exn_total _ (fun c => match c with
                                     | Pins (i :: _) => "-pin_name " +:+ i +:+ " "
                                     | c => io_attr_text c
                                     end) (Pins [pin] :: others)).
  - rewrite fmap_cons. unfold pdc_entry. do 6 f_equal. f_equal. f_equal.
    apply list_fmap_ext. intros i c Hc.
    pose proof (proj1 (Forall_lookup _ _) Hall i c Hc). by destruct c.
  - constructor; [done|]. eapply Forall_impl; [exact Hall|].
    intros [] Hc; done.
Qed.

Lemma pdc_entry_carries signame pin others c :
  c ∈ others -> formattable c = true -> carries (pdc_entry signame pin others) c = true.
Proof.
  intros Hin Hc. unfold carries, pdc_entry.
  do 4 apply contains_app_r. apply contains_app_l.
  apply contains_concat with (x := io_attr_text c).
  - right. by apply list_elem_of_fmap_2.
  - destruct c; try done; cbn [io_attr_text attr_value]; apply contains_here.
Qed.

Lemma adc_line_carries name pin others n :
  IOStandard n ∈ others ->
  carries (Anlogic.adc_line (name, pin, others)) (IOStandard n) = true.
Proof.
  intros Hin. unfold carries, Anlogic.adc_line.
  do 5 apply contains_app_r. apply contains_app_l.
  apply contains_concat with (x := Anlogic.adc_constraint (IOStandard n)).
  - by apply list_elem_of_fmap_2.
  - cbn [Anlogic.adc_constraint attr_value]. apply contains_here.
Qed.

(** C7, as the claim states it, fails on two of the three emitters: the
    QuickLogic entries carry no attribute at all, and the Anlogic
    entries carry the IO standard but not the pull resistor. *)
Lemma io_entries_without_attributes :
  (exists es, QuickLogic.io_pcf_row Examples.leds = inr es /\ length es = 3 /\
              Forall (fun e => carries e (IOStandard "LVCMOS33") = false) es)
  /\ (exists es, adc_entries Examples.leds = inr es /\ length es = 3 /\
                 Forall (fun e => carries e (Misc "UP") = false) es).
Proof.
  split; eexists; (split; [reflexivity|]); (split; [reflexivity|]);
    repeat constructor.
Qed.

(** An attribute of a class without a format stops the Microsemi
    emitter, on every pin. *)
Lemma format_io_constraints_other (others : list Constraint) (kind : string) :
  Other kind ∈ others -> (forall ids, Pins ids ∉ others) ->
  map_exn Microsemi._format_io_constraint others = inl NotImplementedError.
Proof.
  induction others as [|c others IH]; [by intros ?%elem_of_nil|].
  intros Hin Hpins. cbn [map_exn].
  destruct c as [ids|n|m|k]; cbn [Microsemi._format_io_constraint]; [|..|done].
  - destruct (Hpins ids). left.
  - rewrite IH; [done| |].
    + by apply elem_of_cons in Hin as [[=]|?].
    + intros ids Hids. apply (Hpins ids). by right.
  - rewrite IH; [done| |].
    + by apply elem_of_cons in Hin as [[=]|?].
    + intros ids Hids. apply (Hpins ids). by right.
Qed.

Lemma format_io_pdc_other signame pin (others : list Constraint) (kind : string) :
  Other kind ∈ others -> (forall ids, Pins ids ∉ others) ->
  Microsemi._format_io_pdc signame pin others = inl NotImplementedError.
Proof.
  intros Hin Hpins. unfold Microsemi._format_io_pdc.
  cbn [map_exn Microsemi._format_io_constraint].
  by rewrite (format_io_constraints_other _ _ Hin Hpins).
Qed.

(** C7 (amended). A signal bound to more than one pin yields one entry
    per pin, in input order, named [sig[i]] (Anlogic, Microsemi) or
    [sig(i)] (QuickLogic) and bound to the i-th pin. A Microsemi entry
    carries every IO-standard and pull attribute of the signal when
    these are its only attributes; with an attribute of any other class
    the Microsemi emitter raises [NotImplementedError] and writes
    nothing. An Anlogic entry carries the signal's IO standards only, a
    QuickLogic entry carries no attribute. *)
Theorem multi_bit_expansion
    (sig resource : string) (pins : list string) (others : list Constraint) :
  1 < length pins ->
  let row : NamedSC := (sig, pins, others, resource) in
  (adc_entries row
     = inr (imap (fun i p => Anlogic.adc_line (sig +:+ "[" +:+ str_nat i +:+ "]", p, others))
                 pins)
   /\ forall name p n, IOStandard n ∈ others ->
        carries (Anlogic.adc_line (name, p, others)) (IOStandard n) = true)
  /\ (Forall (fun c => formattable c = true) others ->
      Microsemi.io_pdc_row row
        = inr (imap (fun i p => pdc_entry (sig +:+ "[" +:+ str_nat i +:+ "]") p others)
                    pins)
      /\ forall name p c, c ∈ others -> carries (pdc_entry name p others) c = true)
  /\ (forall kind, Other kind ∈ others -> (forall ids, Pins ids ∉ others) ->
      Microsemi.io_pdc_row row = inl NotImplementedError
      /\ forall named_pc build_name extra w,
           Microsemi._build_io_pdc [row] named_pc build_name extra w
           = (w, inl NotImplementedError))
  /\ QuickLogic.io_pcf_row row
       = inr (imap (fun i p => "set_io " +:+ (sig +:+ "(" +:+ str_nat i +:+ ")")
                               +:+ " " +:+ p +:+ nl) pins)
  /\ (forall named_pc, Anlogic.adc_text [row] named_pc
        = match adc_entries row with
          | inl e => inl e
          | inr entries => inr (join nl (entries ++ named_pc))
          end)
  /\ (forall named_pc extra, Microsemi.io_pdc_text [row] named_pc extra
        = match Microsemi.io_pdc_row row with
          | inl e => inl e
          | inr entries => inr (String.concat EmptyString entries +:+ join nl extra)
          end)
  /\ (forall named_pc, QuickLogic.io_pcf_text [row] named_pc
        = match QuickLogic.io_pcf_row row with
          | inl e => inl e
          | inr entries => inr (String.concat EmptyString entries)
          end).
Proof.
  intros Hlen%Nat.ltb_lt row. subst row.
  refine (conj _ (conj _ (conj _ (conj _ (conj _ (conj _ _)))))).
  - split.
    + unfold adc_entries, Anlogic.flat_sc. rewrite Hlen, app_nil_r.
      unfold Anlogic.indexed. by rewrite fmap_imap.
    + intros. by apply adc_line_carries.
  - intros Hall. split.
    + unfold Microsemi.io_pdc_row. rewrite Hlen.
      rewrite (map_exn_total _
                 (fun ip => pdc_entry (sig +:+ "[" +:+ str_nat ip.1 +:+ "]") ip.2 others)).
      * f_equal.
        apply (imap_pair_fmap
                 (fun i p => pdc_entry (sig +:+ "[" +:+ str_nat i +:+ "]") p others)).
      * apply Forall_forall. intros [i p] _. by apply format_io_pdc_formattable.
    + intros name p c Hc. apply pdc_entry_carries; [done|].
      by apply (proj1 (Forall_forall _ _) Hall).
  - intros kind Hin Hpins.
    assert (Microsemi.io_pdc_row (sig, pins, others, resource)
            = inl NotImplementedError) as Hrow.
    { unfold Microsemi.io_pdc_row. rewrite Hlen.
      destruct pins as [|p pins]; [done|]. cbn [imap map_exn fst snd].
      by rewrite (format_io_pdc_other _ _ _ _ Hin Hpins). }
    split; [done|]. intros named_pc build_name extra w.
    unfold Microsemi._build_io_pdc, Microsemi.io_pdc_text, bind, lift.
    cbn [map_exn]. by rewrite Hrow.
  - unfold QuickLogic.io_pcf_row. by rewrite Hlen.
  - intros named_pc. unfold Anlogic.adc_text, adc_entries.
    by destruct (Anlogic.flat_sc _).
  - intros named_pc extra. unfold Microsemi.io_pdc_text. cbn [map_exn].
    destruct (Microsemi.io_pdc_row _); [done|]. cbn [concat]. by rewrite app_nil_r.
  - intros named_pc. unfold QuickLogic.io_pcf_text. cbn [map_exn].
    destruct (QuickLogic.io_pcf_row _); [done|]. cbn [concat]. by rewrite app_nil_r.
Qed.

Lemma multi_bit_expansion_witness :
  Microsemi.io_pdc_row Examples.leds
  = inr [ pdc_entry "led[0]" "A1" [IOStandard "LVCMOS33"; Misc "UP"];
          pdc_entry "led[1]" "A2" [IOStandard "LVCMOS33"; Misc "UP"];
          pdc_entry "led[2]" "A3" [IOStandard "LVCMOS33"; Misc "UP"] ].
Proof.
  assert (1 < length ["A1"; "A2"; "A3"]) as Hlen by (simpl; lia).
  destruct (multi_bit_expansion "led" "user_led" ["A1"; "A2"; "A3"]
              [IOStandard "LVCMOS33"; Misc "UP"] Hlen) as (_ & Hm & _).
  destruct Hm as [Hrow _]; [by repeat constructor|].
  exact Hrow.
Defined.

(* ================================================================== *)
(** * Clock outputs of the Efinix PLL                                   *)
(* ================================================================== *)

Lemma insert_same_name i b b' (bs : list Efinix.Block) :
  bs !! i = Some b -> Efinix.b_name b' = Efinix.b_name b ->
  Efinix.b_name <$> <[i := b']> bs = Efinix.b_name <$> bs.
Proof.
  intros Hi Hname. rewrite list_fmap_insert, Hname.
  apply list_insert_id. by rewrite list_lookup_fmap, Hi.
Qed.

Lemma create_clkout_full `{FloatRepr} cd freq phase margin name with_reset s :
  Efinix.nclkouts_max (Efinix.cls (Efinix.self s)) <= Efinix.nclkouts (Efinix.self s) ->
  Efinix.create_clkout cd freq phase margin name with_reset s = (s, inl AssertionError).
Proof.
  intros Hfull%Nat.ltb_ge. unfold Efinix.create_clkout, bind, gets. by rewrite Hfull.
Qed.

Ltac efinix_step :=
  cbn [Efinix.self Efinix.platform Efinix.cls Efinix.type Efinix.nclkouts Efinix.name
       Efinix.comb Efinix.specials Efinix.additional_sdc_commands Efinix.excluded_ios
       Efinix.blocks Efinix.iface_ios Efinix.request Efinix.get_block].

(** What one call made below the bound does to the counter. *)
Lemma create_clkout_counts `{FloatRepr} cd freq phase margin name with_reset s :
  Efinix.nclkouts (Efinix.self s) < Efinix.nclkouts_max (Efinix.cls (Efinix.self s)) ->
  wp (Efinix.create_clkout cd freq phase margin name with_reset)
     (fun s' _ => counted s s' 1)
     (fun s' e => e ≠ AssertionError
                  /\ (counted s s' 0 \/ (counted s s' 1 /\ ~ found s))) s.
Proof.
  intros Hlt%Nat.ltb_lt.
  unfold Efinix.create_clkout, Efinix.set_platform, Efinix.set_self.
  wp_go_with ltac:(efinix_step; rewrite ?Hlt).
  all: efinix_step; unfold counted, same_pll, found; efinix_step.
  all: try match goal with
           | Hf : Efinix.append_clk_out _ _ _ = _ |- _ =>
               unfold Efinix.append_clk_out in Hf; efinix_step;
               revert Hf; efinix_step;
               destruct (Efinix.get_block _ _ _) as [i|] eqn:Hg;
                 [destruct (_ !! i) as [b|] eqn:Hi|]; intros Hf; simplify_eq
           end.
  all: try (split; [done|]).
  all: try (left; split_and!; (done || lia)).
  all: try (right; split; [split_and!; (done || lia)|];
            intros (j & Hj & Hlen); simplify_eq;
            try (apply lookup_lt_is_Some in Hlen as [? ?]; congruence)).
  all: try (split_and!; try (done || lia); by eapply insert_same_name).
Qed.

Lemma same_pll_refl s : same_pll s s.
Proof. by unfold same_pll. Qed.

Lemma same_pll_trans s1 s2 s3 : same_pll s1 s2 -> same_pll s2 s3 -> same_pll s1 s3.
Proof. unfold same_pll. intros (-> & -> & -> & ->) (-> & -> & -> & ->). done. Qed.

Lemma finds_found s :
  finds (Efinix.get_block (Efinix.platform s)) -> registered s -> found s.
Proof. intros Hfinds Hreg. apply (Hfinds _ _ Hreg). Qed.

Lemma same_pll_finds s s' :
  same_pll s s' ->
  finds (Efinix.get_block (Efinix.platform s)) -> registered s ->
  finds (Efinix.get_block (Efinix.platform s')) /\ registered s'.
Proof. unfold registered. intros (_ & -> & -> & ->). done. Qed.

Lemma init_registered `{Efinix.IfaceIO} c p n version p0 pll :
  Efinix.__init__ c p n version = (p0, inr pll) ->
  registered (Efinix.mkState pll p0)
  /\ Efinix.get_block p0 = Efinix.get_block p
  /\ Efinix.cls pll = c /\ Efinix.nclkouts pll = 0.
Proof.
  unfold Efinix.__init__, registered.
  destruct (bool_decide (version = "V1_V2")); [|destruct (bool_decide (version = "V3"))];
    intros Hi; simplify_eq; (split; [|done]); simpl.
  all: rewrite fmap_app; apply elem_of_app; right; left.
Qed.

Lemma call_counts `{FloatRepr} c s :
  Efinix.nclkouts (Efinix.self s) <= Efinix.nclkouts_max (Efinix.cls (Efinix.self s)) ->
  let out := Efinix.call c s in
  same_pll s out.1
  /\ Efinix.nclkouts (Efinix.self out.1) <= Efinix.nclkouts_max (Efinix.cls (Efinix.self s))
  /\ (if Efinix.returned out.2
      then Efinix.nclkouts (Efinix.self out.1) = Efinix.nclkouts (Efinix.self s) + 1
      else Efinix.nclkouts (Efinix.self out.1) = Efinix.nclkouts (Efinix.self s)
           \/ (Efinix.nclkouts (Efinix.self out.1) = Efinix.nclkouts (Efinix.self s) + 1
               /\ ~ found s))
  /\ (Efinix.nclkouts (Efinix.self s) < Efinix.nclkouts_max (Efinix.cls (Efinix.self s)) ->
      out.2 ≠ inl AssertionError).
Proof.
  intros Hle out. subst out. unfold Efinix.call.
  destruct (decide (Efinix.nclkouts (Efinix.self s)
                    < Efinix.nclkouts_max (Efinix.cls (Efinix.self s)))) as [Hlt|Hge].
  - pose proof (create_clkout_counts (Efinix.c_cd c) (Efinix.c_freq c) (Efinix.c_phase c)
                  (Efinix.c_margin c) (Efinix.c_name c) (Efinix.c_with_reset c)
                  s Hlt) as Hwp.
    unfold wp in Hwp. destruct (Efinix.create_clkout _ _ _ _ _ _ s) as [s' [e|[]]]; simpl.
    + destruct Hwp as (Hne & [[Hs Hn]|[[Hs Hn] Hnot]]);
        (split_and!; [done|lia| |congruence]); [left|right]; (done || lia).
    + destruct Hwp as [Hs Hn]. split_and!; (done || lia).
  - rewrite create_clkout_full by lia. simpl.
    split_and!; [apply same_pll_refl|lia|by left|lia].
Qed.

Lemma calls_count `{FloatRepr} cs s :
  Efinix.nclkouts (Efinix.self s) <= Efinix.nclkouts_max (Efinix.cls (Efinix.self s)) ->
  let out := Efinix.calls cs s in
  same_pll s out.1
  /\ Efinix.nclkouts (Efinix.self out.1) <= Efinix.nclkouts_max (Efinix.cls (Efinix.self s))
  /\ Efinix.nclkouts (Efinix.self s) + Efinix.completed out.2
     <= Efinix.nclkouts (Efinix.self out.1)
  /\ Efinix.nclkouts (Efinix.self out.1) <= Efinix.nclkouts (Efinix.self s) + length cs
  /\ (finds (Efinix.get_block (Efinix.platform s)) -> registered s ->
      Efinix.nclkouts (Efinix.self out.1)
      = Efinix.nclkouts (Efinix.self s) + Efinix.completed out.2).
Proof.
  revert s. induction cs as [|c cs IH]; intros s Hle; simpl.
  - unfold Efinix.completed. simpl.
    split_and!; first [apply same_pll_refl | lia | intros _ _; lia].
  - pose proof (call_counts c s Hle) as Hc. cbv zeta in Hc.
    destruct (Efinix.call c s) as [s1 r]. simpl in Hc.
    destruct Hc as (Hs1 & Hle1 & Hn1 & _).
    assert (Efinix.cls (Efinix.self s1) = Efinix.cls (Efinix.self s)) as Hcls
      by apply Hs1.
    rewrite <- Hcls in Hle1. specialize (IH s1 Hle1). cbv zeta in IH.
    destruct (Efinix.calls cs s1) as [s2 rs]. simpl in *.
    destruct IH as (Hs2 & Hle2 & Hlo & Hhi & Hexact).
    assert (Efinix.completed (r :: rs)
            = (if Efinix.returned r then 1 else 0) + Efinix.completed rs) as Hcons.
    { unfold Efinix.completed. rewrite filter_cons. by destruct r as [e|[]]. }
    rewrite Hcons. split_and!.
    + by eapply same_pll_trans.
    + by rewrite <- Hcls.
    + destruct (Efinix.returned r); [lia|]. destruct Hn1 as [?|[? _]]; lia.
    + destruct (Efinix.returned r); [lia|]. destruct Hn1 as [?|[? _]]; lia.
    + intros Hfinds Hreg.
      destruct (same_pll_finds _ _ Hs1 Hfinds Hreg) as [Hfinds1 Hreg1].
      rewrite (Hexact Hfinds1 Hreg1).
      destruct (Efinix.returned r); [lia|].
      destruct Hn1 as [?|[_ Hnot]]; [lia|]. destruct Hnot. by apply finds_found.
Qed.

Lemma first_named_finds : finds Examples.first_named.
Proof.
  intros name bs (b & -> & Hb)%list_elem_of_fmap.
  destruct (list_find_elem_of (fun b' => Efinix.b_name b' = Efinix.b_name b) bs b Hb eq_refl)
    as [[i b'] Hfind].
  exists i. unfold Examples.first_named. rewrite Hfind. split; [done|].
  apply list_find_Some in Hfind as (Hi & _). by eapply lookup_lt_Some.
Qed.

(** C10. For a PLL object as its constructor leaves it and any series of
    [create_clkout] calls on it: [nclkouts] never exceeds [nclkouts_max],
    nor the number of calls made, and is at least the number of calls
    that returned; where [get_block] finds registered blocks it is
    exactly the number of calls that returned. A call made when the
    counter has reached the bound raises [AssertionError] and changes
    nothing; a call made below the bound (in particular after fewer than
    [nclkouts_max] calls) does not fail the assertion. The bound is 3
    for [TRIONPLL] and 5 for [TITANIUMPLL]. *)
Theorem create_clkout_bounded `{FloatRepr} `{Efinix.IfaceIO}
    (c : Efinix.PLLClass) (p p0 : Efinix.EfxPlatform) (n : nat) (version : string)
    (pll : Efinix.PLL) (cs : list Efinix.Call) (next : Efinix.Call) :
  Efinix.__init__ c p n version = (p0, inr pll) ->
  let s := (Efinix.calls cs (Efinix.mkState pll p0)).1 in
  let rs := (Efinix.calls cs (Efinix.mkState pll p0)).2 in
  Efinix.nclkouts (Efinix.self s) <= Efinix.nclkouts_max c
  /\ Efinix.completed rs <= Efinix.nclkouts (Efinix.self s)
  /\ Efinix.nclkouts (Efinix.self s) <= length cs
  /\ (finds (Efinix.get_block p) -> Efinix.nclkouts (Efinix.self s) = Efinix.completed rs)
  /\ (Efinix.nclkouts_max c <= Efinix.nclkouts (Efinix.self s) ->
      Efinix.call next s = (s, inl AssertionError))
  /\ (Efinix.nclkouts (Efinix.self s) < Efinix.nclkouts_max c ->
      (Efinix.call next s).2 ≠ inl AssertionError)
  /\ (length cs < Efinix.nclkouts_max c ->
      (Efinix.call next s).2 ≠ inl AssertionError)
  /\ Efinix.nclkouts_max Efinix.TRIONPLL = 3
  /\ Efinix.nclkouts_max Efinix.TITANIUMPLL = 5.
Proof.
  intros (Hreg & Hget & Hcls & Hzero)%init_registered s rs.
  assert (Efinix.nclkouts (Efinix.self (Efinix.mkState pll p0))
          <= Efinix.nclkouts_max (Efinix.cls (Efinix.self (Efinix.mkState pll p0))))
    as Hle0 by (simpl; lia).
  pose proof (calls_count cs _ Hle0) as Hcs. cbv zeta in Hcs.
  fold s rs in Hcs. simpl in Hcs. rewrite Hcls, Hzero, Hget in Hcs. simpl in Hcs.
  destruct Hcs as (Hsame & Hle & Hlo & Hhi & Hexact).
  assert (Efinix.cls (Efinix.self s) = c) as Hcls' by (rewrite <- Hcls; apply Hsame).
  pose proof (call_counts next s) as Hnext. cbv zeta in Hnext. rewrite Hcls' in Hnext.
  destruct (Hnext Hle) as (_ & _ & _ & Hassert).
  split_and!; try done.
  - intros Hfinds. by apply Hexact.
  - intros Hfull. unfold Efinix.call. apply create_clkout_full. by rewrite Hcls'.
  - intros Hfew. apply Hassert. lia.
Qed.

Lemma create_clkout_bounded_witness :
  let H := Examples.millis in
  let pll := Efinix.mkPLL Efinix.TRIONPLL "TRIONPLL" 0 "pll0"
               ["pll0_rstn"; "pll0_locked"] [] in
  let p0 := Efinix.mkEfx [] ["pll0_rstn"; "pll0_locked"]
              [Efinix.mkBlock "pll0" "V1_V2" []]
              ["pll0_rstn"; "pll0_locked"] (fun _ => None) Examples.first_named in
  let cs := [Examples.clkout 100; Examples.clkout 50; Examples.clkout 25] in
  let s := (Efinix.calls cs (Efinix.mkState pll p0)).1 in
  Efinix.nclkouts (Efinix.self s) = 3
  /\ Efinix.completed (Efinix.calls cs (Efinix.mkState pll p0)).2 = 3
  /\ Efinix.call (Examples.clkout 10) s = (s, inl AssertionError).
Proof.
  intros H pll p0 cs s.
  destruct (create_clkout_bounded (H := H) (H0 := Examples.noted) Efinix.TRIONPLL
              Examples.no_requests p0 0
              "V1_V2" pll cs (Examples.clkout 10) eq_refl)
    as (_ & _ & _ & Hn & Hfull & _).
  specialize (Hn first_named_finds).
  split_and!.
  - etransitivity; [exact Hn|]. vm_compute. reflexivity.
  - vm_compute. reflexivity.
  - apply Hfull. vm_compute. lia.
Defined.

(* ================================================================== *)
(** * Sorting                                                           *)
(* ================================================================== *)

Section SortFacts.
Context {A : Type} (lt : A -> A -> bool).
Hypothesis lt_asym : forall x y, lt x y = true -> lt y x = false.
Hypothesis lt_le_trans : forall x y z, lt x y = true -> lt z y = false -> lt z x = false.

Lemma insert_last_perm x l : insert_last lt x l ≡ₚ x :: l.
Proof.
  induction l as [|y l IH]; simpl; [done|].
  destruct (lt x y); [done|]. rewrite IH. apply Permutation_swap.
Qed.

Lemma insert_last_sorted x l :
  StronglySorted (no_later lt) l -> StronglySorted (no_later lt) (insert_last lt x l).
Proof.
  induction l as [|y l IH]; simpl; [repeat constructor|].
  intros [Hy Hl]%StronglySorted_cons. destruct (lt x y) eqn:Hxy.
  - apply StronglySorted_cons. split; [|by apply StronglySorted_cons].
    constructor; [by apply lt_asym|].
    eapply Forall_impl; [exact Hy|]. intros z Hz. by eapply lt_le_trans.
  - apply StronglySorted_cons. split; [|by apply IH].
    rewrite insert_last_perm. by constructor.
Qed.

Lemma sorted_from acc l :
  StronglySorted (no_later lt) acc ->
  StronglySorted (no_later lt) (fold_left (fun acc x => insert_last lt x acc) l acc)
  /\ fold_left (fun acc x => insert_last lt x acc) l acc ≡ₚ acc ++ l.
Proof.
  revert acc. induction l as [|x l IH]; intros acc Hacc; simpl.
  - by rewrite app_nil_r.
  - destruct (IH (insert_last lt x acc)) as [Hs Hp]; [by apply insert_last_sorted|].
    split; [done|]. rewrite Hp, insert_last_perm. simpl. apply Permutation_middle.
Qed.

Lemma sorted_sorted l : StronglySorted (no_later lt) (sorted lt l).
Proof. apply sorted_from. constructor. Qed.

Lemma sorted_perm l : sorted lt l ≡ₚ l.
Proof. apply (sorted_from []). constructor. Qed.

End SortFacts.




Lemma sorted_by_duid_ascending (clocks : list (Signal * Q)) :
  sorted by_duid clocks ≡ₚ clocks
  /\ StronglySorted (fun x y => duid x.1 <= duid y.1) (sorted by_duid clocks).
Proof.
  assert (forall x y : Signal * Q, by_duid x y = true -> by_duid y x = false) as Hasym.
  { unfold by_duid. intros x y ?%Nat.ltb_lt. apply Nat.ltb_ge. lia. }
  assert (forall x y z : Signal * Q,
             by_duid x y = true -> by_duid z y = false -> by_duid z x = false) as Htrans.
  { unfold by_duid. intros x y z ?%Nat.ltb_lt ?%Nat.ltb_ge. apply Nat.ltb_ge. lia. }
  split; [by apply sorted_perm|].
  pose proof (sorted_sorted by_duid Hasym Htrans clocks) as Hs.
  induction Hs as [|x l Hl IH Hx]; constructor; [done|].
  eapply Forall_impl; [exact Hx|]. unfold no_later, by_duid.
  intros y ?%Nat.ltb_ge. lia.
Qed.

Lemma sorted_by_duid_pair_ascending (fps : list (Signal * Signal)) :
  sorted by_duid_pair fps ≡ₚ fps
  /\ StronglySorted (fun x y => duid x.1 < duid y.1
                               \/ (duid x.1 = duid y.1 /\ duid x.2 <= duid y.2))
       (sorted by_duid_pair fps).
Proof.
  assert (forall x y : Signal * Signal,
             by_duid_pair x y = true -> by_duid_pair y x = false) as Hasym.
  { unfold by_duid_pair. intros [[a1] [b1]] [[a2] [b2]]. simpl.
    destruct (Nat.ltb_spec a1 a2), (Nat.ltb_spec a2 a1), (Nat.eqb_spec a1 a2),
      (Nat.eqb_spec a2 a1), (Nat.ltb_spec b1 b2), (Nat.ltb_spec b2 b1);
      simpl; (done || lia). }
  assert (forall x y z : Signal * Signal,
             by_duid_pair x y = true -> by_duid_pair z y = false ->
             by_duid_pair z x = false) as Htrans.
  { unfold by_duid_pair. intros [[a1] [b1]] [[a2] [b2]] [[a3] [b3]]. simpl.
    destruct (Nat.ltb_spec a1 a2), (Nat.ltb_spec a3 a2), (Nat.ltb_spec a3 a1),
      (Nat.eqb_spec a1 a2), (Nat.eqb_spec a3 a2), (Nat.eqb_spec a3 a1),
      (Nat.ltb_spec b1 b2), (Nat.ltb_spec b3 b2), (Nat.ltb_spec b3 b1);
      simpl; (done || lia). }
  split; [by apply sorted_perm|].
  pose proof (sorted_sorted by_duid_pair Hasym Htrans fps) as Hs.
  induction Hs as [|x l Hl IH Hx]; constructor; [done|].
  eapply Forall_impl; [exact Hx|]. unfold no_later, by_duid_pair.
  intros [[a2] [b2]]. destruct x as [[a1] [b1]]. simpl.
  destruct (Nat.ltb_spec a2 a1), (Nat.eqb_spec a2 a1), (Nat.ltb_spec b2 b1);
    simpl; intros; (done || lia).
Qed.

(* ================================================================== *)
(** * Timing constraints do not depend on the insertion order           *)
(* ================================================================== *)











(* ================================================================== *)
(** * Series of timing constraints                                     *)
(* ================================================================== *)

Section RecordFacts.
Variable f : Q -> Q.

Lemma record_period_Some clocks c p clocks' :
  record_period f clocks (c, p) = Some clocks' <->
  (forall r, dict_get c clocks = Some r -> (f p == r)%Q)
  /\ clocks' = dict_set c (f p) clocks.
Proof.
  unfold record_period, conflicting. simpl.
  destruct (dict_get c clocks) as [old|] eqn:Hd.
  - destruct (Qeq_bool (f p) old) eqn:Hq; simpl.
    + apply Qeq_bool_true in Hq. split.
      * intros [= <-]. split; [by intros r [= <-] | done].
      * by intros [_ ->].
    + apply Qeq_bool_false in Hq. split; [done|]. intros [Hr _].
      destruct Hq. by apply Hr.
  - split; [intros [= <-]; by split | by intros [_ ->]].
Qed.

Lemma dict_get_dict_set {V} (d : list (Signal * V)) k k' v :
  dict_get k' (dict_set k v d) = if decide (k' = k) then Some v else dict_get k' d.
Proof.
  destruct (decide (k' = k)) as [->|Hne]; [apply dict_get_set_eq|].
  by apply dict_get_set_ne.
Qed.

Lemma dict_get_is_Some {V} (d : list (Signal * V)) k :
  is_Some (dict_get k d) <-> k ∈ d.*1.
Proof.
  rewrite <- not_eq_None_Some, dict_get_None.
  destruct (decide (k ∈ d.*1)); tauto.
Qed.

Lemma record_periods_Some pcs clocks :
  is_Some (record_periods f pcs clocks) <-> agree f pcs /\ fits f pcs clocks.
Proof.
  revert clocks. induction pcs as [|[c p] pcs IH]; intros clocks; simpl.
  - split; [intros _|by eexists]. split.
    + intros ? ? ? []%elem_of_nil.
    + intros ? ? ? []%elem_of_nil.
  - destruct (record_period f clocks (c, p)) as [clocks'|] eqn:Hr.
    + apply record_period_Some in Hr as [Hold ->]. rewrite IH. split.
      * intros [Hag Hfit]. split.
        -- intros c' x y Hx Hy.
           apply elem_of_cons in Hx as [Hx|Hx], Hy as [Hy|Hy]; simplify_eq.
           ++ reflexivity.
           ++ symmetry. apply (Hfit c y (f p) Hy). apply dict_get_set_eq.
           ++ apply (Hfit c x (f p) Hx). apply dict_get_set_eq.
           ++ by apply (Hag c').
        -- intros c' x r Hx Hd. apply elem_of_cons in Hx as [Hx|Hx]; simplify_eq.
           { by apply Hold. }
           destruct (decide (c' = c)) as [->|Hne].
           ++ rewrite <- (Hold r Hd). apply (Hfit c x (f p) Hx), dict_get_set_eq.
           ++ apply (Hfit c' x r Hx). by rewrite dict_get_set_ne.
      * intros [Hag Hfit]. split.
        -- intros c' x y Hx Hy. apply (Hag c'); by right.
        -- intros c' x r Hx. rewrite dict_get_dict_set.
           destruct (decide (c' = c)) as [->|Hne].
           ++ intros [= <-]. apply (Hag c); [by right | left].
           ++ intros Hd. apply (Hfit c' x r); [by right | done].
    + split; [by intros [? [=]]|]. intros [Hag Hfit]. exfalso.
      assert (is_Some (record_period f clocks (c, p))) as [? Hs]; [|congruence].
      eexists. apply record_period_Some. split; [|done].
      intros r Hd. apply (Hfit c p r); [left | done].
Qed.

(** What a series that does not raise leaves in the dict. *)
Lemma record_periods_lookup pcs clocks clocks' :
  record_periods f pcs clocks = Some clocks' ->
  (forall c p, (c, p) ∈ pcs -> exists r, dict_get c clocks' = Some r /\ (r == f p)%Q)
  /\ (forall c r, dict_get c clocks' = Some r ->
        dict_get c clocks = Some r \/ exists p, (c, p) ∈ pcs /\ r = f p)
  /\ (forall c, c ∈ clocks'.*1 <-> c ∈ clocks.*1 \/ c ∈ pcs.*1).
Proof.
  revert clocks. induction pcs as [|[c p] pcs IH]; intros clocks; simpl.
  - intros [= <-]. split_and!.
    + intros ? ? []%elem_of_nil.
    + auto.
    + intros c. rewrite elem_of_nil. tauto.
  - destruct (record_period f clocks (c, p)) as [clocks1|] eqn:Hr; [|done].
    apply record_period_Some in Hr as [Hold ->]. intros Hrest.
    pose proof (proj1 (record_periods_Some pcs _) (mk_is_Some _ _ Hrest)) as [Hag Hfit].
    destruct (IH _ Hrest) as (Hin & Hval & Hkeys). split_and!.
    + intros c' x Hx. apply elem_of_cons in Hx as [Hx|Hx]; simplify_eq; [|by apply Hin].
      assert (is_Some (dict_get c clocks')) as [r Hr].
      { apply dict_get_is_Some, Hkeys. left. apply dict_get_is_Some.
        rewrite dict_get_set_eq. by eexists. }
      exists r. split; [done|].
      destruct (Hval c r Hr) as [Hd|(y & Hy & ->)].
      * rewrite dict_get_set_eq in Hd. by injection Hd as <-.
      * apply (Hfit c y (f p) Hy), dict_get_set_eq.
    + intros c' r Hd. destruct (Hval c' r Hd) as [Hd1|(y & Hy & ->)].
      * rewrite dict_get_dict_set in Hd1. destruct (decide (c' = c)) as [->|Hne].
        -- injection Hd1 as <-. right. exists p. split; [left | done].
        -- by left.
      * right. exists y. split; [by right | done].
    + intros c'. rewrite Hkeys, ?fmap_cons. simpl. rewrite elem_of_cons.
      assert (c' ∈ (dict_set c (f p) clocks).*1 <-> c' = c \/ c' ∈ clocks.*1) as ->; [|tauto].
      rewrite <- !dict_get_is_Some. rewrite dict_get_dict_set.
      destruct (decide (c' = c)); [split; [auto | by eexists] | tauto].
Qed.
End RecordFacts.

Lemma NoDup_dict_set_keys {V} (d : list (Signal * V)) k v :
  NoDup d.*1 -> NoDup (dict_set k v d).*1.
Proof.
  induction d as [|[k' v'] d IH]; simpl; [intros _; apply NoDup_singleton|].
  intros [Hk Hd]%NoDup_cons. destruct (decide (k = k')) as [->|Hne]; simpl.
  - by apply NoDup_cons.
  - apply NoDup_cons. split; [|by apply IH].
    rewrite <- dict_get_is_Some, dict_get_set_ne, dict_get_is_Some by done. done.
Qed.

Lemma record_periods_NoDup f pcs clocks clocks' :
  record_periods f pcs clocks = Some clocks' -> NoDup clocks.*1 -> NoDup clocks'.*1.
Proof.
  revert clocks. induction pcs as [|[c p] pcs IH]; intros clocks; simpl.
  - by intros [= <-].
  - destruct (record_period f clocks (c, p)) as [clocks1|] eqn:Hr; [|done].
    apply record_period_Some in Hr as [_ ->]. intros Hrest Hnd.
    apply (IH _ Hrest). by apply NoDup_dict_set_keys.
Qed.

(** The three toolchains through a series of calls. *)
Lemma anlogic_add_periods_cons c p pcs self w :
  anlogic_add_periods ((c, p) :: pcs) self w
  = match round_ps p with
    | inl e => (kept c w, inl e)
    | inr r =>
        match conflicting (Anlogic.clocks self) c r with
        | Some old => (kept c w, inl (ValueError (conflict_msg old r)))
        | None => anlogic_add_periods pcs
                    (Anlogic.mk (dict_set c r (Anlogic.clocks self))) (kept c w)
        end
    end.
Proof.
  unfold anlogic_add_periods. cbn [foldM]. unfold bind at 1. cbn [fst snd].
  destruct (round_ps p) as [e|r] eqn:Hr.
  - by rewrite (anlogic_add_period_overflow _ _ _ e).
  - destruct (conflicting _ _ _) as [old|] eqn:Hc.
    + by rewrite (anlogic_add_period_conflict _ _ _ r old).
    + by rewrite (anlogic_add_period_ok _ _ _ r).
Qed.

Lemma osfpga_add_periods_cons c p pcs self w :
  osfpga_add_periods ((c, p) :: pcs) self w
  = match round_ps p with
    | inl e => (kept c w, inl e)
    | inr r =>
        match conflicting (OSFPGA.clocks self) c r with
        | Some old => (kept c w, inl (ValueError (conflict_msg old r)))
        | None => osfpga_add_periods pcs
                    (OSFPGA.mk (OSFPGA.toolchain self)
                               (dict_set c r (OSFPGA.clocks self))) (kept c w)
        end
    end.
Proof.
  unfold osfpga_add_periods. cbn [foldM]. unfold bind at 1. cbn [fst snd].
  destruct (round_ps p) as [e|r] eqn:Hr.
  - by rewrite (osfpga_add_period_overflow _ _ _ e).
  - destruct (conflicting _ _ _) as [old|] eqn:Hc.
    + by rewrite (osfpga_add_period_conflict _ _ _ r old).
    + by rewrite (osfpga_add_period_ok _ _ _ r).
Qed.

Lemma microsemi_add_periods_cons c p pcs self w :
  microsemi_add_periods ((c, p) :: pcs) self w
  = match conflicting (Microsemi.clocks self) c p with
    | Some old => (w, inl (ValueError (conflict_msg old p)))
    | None => microsemi_add_periods pcs (microsemi_with_clock self c p) w
    end.
Proof.
  unfold microsemi_add_periods. cbn [foldM]. unfold bind at 1. cbn [fst snd].
  destruct (conflicting _ _ _) as [old|] eqn:Hc.
  - by rewrite (microsemi_add_period_conflict _ _ _ old).
  - by rewrite microsemi_add_period_ok.
Qed.

(** A series on a toolchain that rounds goes through exactly when every
    period has a rounded value and the rounded values can be recorded
    one after the other. *)
Lemma anlogic_add_periods_record pcs self w :
  (Forall (fun cp => rounds cp.2) pcs
   /\ exists clocks' w',
        record_periods rounded_period pcs (Anlogic.clocks self) = Some clocks'
        /\ anlogic_add_periods pcs self w = (w', inr (Anlogic.mk clocks')))
  \/ ((~ Forall (fun cp => rounds cp.2) pcs
       \/ record_periods rounded_period pcs (Anlogic.clocks self) = None)
      /\ exists w' e, anlogic_add_periods pcs self w = (w', inl e)).
Proof.
  revert self w. induction pcs as [|[c p] pcs IH]; intros self w.
  - left. split; [constructor|]. exists (Anlogic.clocks self), w. by destruct self.
  - rewrite anlogic_add_periods_cons. cbn [record_periods]. unfold record_period.
    cbn [fst snd]. destruct (round_ps p) as [e|r] eqn:Hr.
    { right. split; [|by do 2 eexists]. left.
      intros [[r Hr'] _]%Forall_cons. simpl in Hr'. congruence. }
    rewrite (rounded_period_eq _ _ Hr).
    destruct (conflicting _ _ _) as [old|]; [right; split; [by right | by do 2 eexists]|].
    destruct (IH (Anlogic.mk (dict_set c r (Anlogic.clocks self))) (kept c w))
      as [(Hall & clocks' & w' & Hrec & Hrun)|([Hno|Hno] & Hrun)].
    + left. split; [apply Forall_cons; split; [by exists r | done]|]. by exists clocks', w'.
    + right. split; [|done]. left. by intros [_ ?]%Forall_cons.
    + right. split; [|done]. by right.
Qed.

Lemma osfpga_add_periods_record pcs self w :
  (Forall (fun cp => rounds cp.2) pcs
   /\ exists clocks' w',
        record_periods rounded_period pcs (OSFPGA.clocks self) = Some clocks'
        /\ osfpga_add_periods pcs self w
           = (w', inr (OSFPGA.mk (OSFPGA.toolchain self) clocks')))
  \/ ((~ Forall (fun cp => rounds cp.2) pcs
       \/ record_periods rounded_period pcs (OSFPGA.clocks self) = None)
      /\ exists w' e, osfpga_add_periods pcs self w = (w', inl e)).
Proof.
  revert self w. induction pcs as [|[c p] pcs IH]; intros self w.
  - left. split; [constructor|]. exists (OSFPGA.clocks self), w. by destruct self.
  - rewrite osfpga_add_periods_cons. cbn [record_periods]. unfold record_period.
    cbn [fst snd]. destruct (round_ps p) as [e|r] eqn:Hr.
    { right. split; [|by do 2 eexists]. left.
      intros [[r Hr'] _]%Forall_cons. simpl in Hr'. congruence. }
    rewrite (rounded_period_eq _ _ Hr).
    destruct (conflicting _ _ _) as [old|]; [right; split; [by right | by do 2 eexists]|].
    destruct (IH (OSFPGA.mk (OSFPGA.toolchain self) (dict_set c r (OSFPGA.clocks self)))
                (kept c w))
      as [(Hall & clocks' & w' & Hrec & Hrun)|([Hno|Hno] & Hrun)].
    + left. split; [apply Forall_cons; split; [by exists r | done]|]. by exists clocks', w'.
    + right. split; [|done]. left. by intros [_ ?]%Forall_cons.
    + right. split; [|done]. by right.
Qed.

Lemma microsemi_add_periods_record pcs self w :
  match record_periods (fun p => p) pcs (Microsemi.clocks self) with
  | Some clocks' =>
      microsemi_add_periods pcs self w
      = (w, inr (Microsemi.mk clocks' (Microsemi.false_paths self)
                   (Microsemi.additional_io_constraints self)
                   (Microsemi.additional_fp_constraints self)
                   (Microsemi.additional_timing_constraints self)))
  | None => exists e, microsemi_add_periods pcs self w = (w, inl e)
  end.
Proof.
  revert self. induction pcs as [|[c p] pcs IH]; intros self.
  - by destruct self.
  - rewrite microsemi_add_periods_cons. cbn [record_periods]. unfold record_period.
    cbn [fst snd]. destruct (conflicting _ _ _) as [old|]; [by eexists|].
    apply (IH (microsemi_with_clock self c p)).
Qed.

Lemma agree_fits_nil f pcs : fits f pcs [].
Proof. by intros c p r _ [=]. Qed.

(** The rounded values recorded for a series of periods that all have
    one. *)
Lemma rounded_periods_recorded pcs clocks' :
  Forall (fun cp => rounds cp.2) pcs ->
  record_periods rounded_period pcs [] = Some clocks' ->
  (forall c p, (c, p) ∈ pcs ->
     exists r, round_ps p = inr r /\ dict_get c clocks' = Some r)
  /\ (forall c r, dict_get c clocks' = Some r ->
        exists p, (c, p) ∈ pcs /\ round_ps p = inr r).
Proof.
  intros Hall Hrec.
  assert (forall c p, (c, p) ∈ pcs -> round_ps p = inr (rounded_period p)) as Hround.
  { intros c p Hin. destruct (proj1 (Forall_forall _ _) Hall _ Hin) as [r Hr].
    simpl in Hr. by rewrite (rounded_period_eq _ _ Hr). }
  destruct (record_periods_lookup _ _ _ _ Hrec) as (Hin & Hval & _).
  assert (forall c r, dict_get c clocks' = Some r ->
            exists p, (c, p) ∈ pcs /\ round_ps p = inr r) as Hfrom.
  { intros c r Hd. destruct (Hval c r Hd) as [[=]|(p & Hp & ->)].
    exists p. split; [done | by eapply Hround]. }
  split; [|done].
  intros c p Hp. destruct (Hin c p Hp) as (r & Hd & Heq).
  destruct (Hfrom c r Hd) as (q & Hq & Hr).
  exists r. split; [|done]. rewrite (Hround c p Hp). f_equal. symmetry.
  eapply round_ps_same; [exact Hr | by eapply Hround | done].
Qed.

(** X1. A series of [add_period_constraint] calls on a new toolchain goes
    through exactly when the periods can all be recorded: on the Anlogic
    and OSFPGA toolchains when every period has a rounded value
    ([math.floor(period*1e3)/1e3] in binary64 arithmetic does not
    overflow) and the rounded values asked for each clock are equal, on
    the Microsemi toolchain when the periods asked for each clock are
    equal as they are given. Otherwise one of the calls raises. *)
Theorem add_period_constraints_succeed_iff
    (pcs : list (Signal * Q)) (toolchain : string) (w : World) :
  ((exists w' t, anlogic_add_periods pcs Anlogic.__init__ w = (w', inr t))
   <-> Forall (fun cp => rounds cp.2) pcs /\ agree rounded_period pcs)
  /\ ((exists w' t, osfpga_add_periods pcs (OSFPGA.__init__ toolchain) w = (w', inr t))
      <-> Forall (fun cp => rounds cp.2) pcs /\ agree rounded_period pcs)
  /\ ((exists w' t, microsemi_add_periods pcs Microsemi.__init__ w = (w', inr t))
      <-> agree (fun p => p) pcs)
  /\ (forall w' e, anlogic_add_periods pcs Anlogic.__init__ w = (w', inl e) ->
        e = OverflowError \/ exists msg, e = ValueError msg).
Proof.
  pose proof (record_periods_Some rounded_period pcs []) as Hiff.
  split_and!.
  - destruct (anlogic_add_periods_record pcs Anlogic.__init__ w)
      as [(Hall & clocks' & w' & Hrec & Hrun)|([Hno|Hno] & w' & e & Hrun)];
      simpl in *.
    + split; [intros _|by eexists _, _]. split; [done|].
      apply Hiff. by rewrite Hrec.
    + split; [intros (? & ? & Hok); congruence | by intros [? _]].
    + split; [intros (? & ? & Hok); congruence|]. intros [_ Hag].
      destruct (proj2 Hiff) as [? Hs]; [|congruence]. split; [done|apply agree_fits_nil].
  - destruct (osfpga_add_periods_record pcs (OSFPGA.__init__ toolchain) w)
      as [(Hall & clocks' & w' & Hrec & Hrun)|([Hno|Hno] & w' & e & Hrun)];
      simpl in *.
    + split; [intros _|by eexists _, _]. split; [done|].
      apply Hiff. by rewrite Hrec.
    + split; [intros (? & ? & Hok); congruence | by intros [? _]].
    + split; [intros (? & ? & Hok); congruence|]. intros [_ Hag].
      destruct (proj2 Hiff) as [? Hs]; [|congruence]. split; [done|apply agree_fits_nil].
  - pose proof (microsemi_add_periods_record pcs Microsemi.__init__ w) as Hrun.
    pose proof (record_periods_Some (fun p => p) pcs []) as Hiff'. simpl in Hrun.
    destruct (record_periods (fun p => p) pcs []) as [clocks'|].
    + split; [intros _; by apply Hiff' | by eexists _, _].
    + destruct Hrun as (e & Hrun). split.
      * intros (? & ? & Hok). congruence.
      * intros Hag. destruct (proj2 Hiff') as [? [=]]. split; [done|apply agree_fits_nil].
  - clear Hiff. generalize Anlogic.__init__ as self. revert w.
    induction pcs as [|[c p] pcs IH]; intros w self w' e; [done|].
    rewrite anlogic_add_periods_cons.
    destruct (round_ps p) as [e'|r] eqn:Hr.
    + intros [= <- <-]. left. by eapply round_ps_raises.
    + destruct (conflicting _ _ _) as [old|]; [intros [= <- <-]; right; by eexists|].
      apply IH.
Qed.

(** X2. After a series of calls that all went through, the Anlogic and
    OSFPGA toolchains hold the same periods: exactly the clocks that
    were constrained, each once, every clock with the rounded value of
    each period asked for it, and every recorded period is the rounded
    value of a period asked for its clock. *)
Theorem add_period_constraints_recorded
    (pcs : list (Signal * Q)) (toolchain : string) (w wa wo : World)
    (ta : Anlogic.TangDinastyToolchain) (to : OSFPGA.OSFPGAToolchain) :
  anlogic_add_periods pcs Anlogic.__init__ w = (wa, inr ta) ->
  osfpga_add_periods pcs (OSFPGA.__init__ toolchain) w = (wo, inr to) ->
  Anlogic.clocks ta = OSFPGA.clocks to
  /\ NoDup (Anlogic.clocks ta).*1
  /\ (forall c, c ∈ (Anlogic.clocks ta).*1 <-> c ∈ pcs.*1)
  /\ (forall c p, (c, p) ∈ pcs ->
        exists r, round_ps p = inr r /\ dict_get c (Anlogic.clocks ta) = Some r)
  /\ (forall c r, dict_get c (Anlogic.clocks ta) = Some r ->
        exists p, (c, p) ∈ pcs /\ round_ps p = inr r).
Proof.
  intros Ha Ho.
  destruct (anlogic_add_periods_record pcs Anlogic.__init__ w)
    as [(Hall & clocks' & w1 & Hrec & Hra)|(_ & ? & ? & Hra)]; [|congruence].
  destruct (osfpga_add_periods_record pcs (OSFPGA.__init__ toolchain) w)
    as [(_ & clocks2 & w2 & Hrec2 & Hro)|(_ & ? & ? & Hro)]; [|congruence].
  simpl in *. rewrite Ha in Hra. rewrite Ho in Hro. simplify_eq. simpl.
  destruct (record_periods_lookup _ _ _ _ Hrec) as (_ & _ & Hkeys).
  destruct (rounded_periods_recorded _ _ Hall Hrec) as (Hin & Hfrom).
  split_and!; [done| | |done|done].
  - eapply record_periods_NoDup; [exact Hrec | constructor].
  - intros c. rewrite Hkeys. simpl. rewrite elem_of_nil. tauto.
Qed.

Lemma add_period_constraints_recorded_witness :
  exists wa ta,
    anlogic_add_periods [(Examples.sysclk, 10.0005%Q); (Examples.usbclk, 20.8339%Q);
                         (Examples.sysclk, 10%Q)] Anlogic.__init__ (Examples.host [] 0)
      = (wa, inr ta)
    /\ dict_get Examples.sysclk (Anlogic.clocks ta) = Some 10%Q
    /\ dict_get Examples.usbclk (Anlogic.clocks ta)
       = Some (732996023726637 # 35184372088832).
Proof.
  set (pcs := [(Examples.sysclk, 10.0005%Q); (Examples.usbclk, 20.8339%Q);
               (Examples.sysclk, 10%Q)]).
  destruct (anlogic_add_periods pcs Anlogic.__init__ (Examples.host [] 0))
    as [wa [e|ta]] eqn:Ha; [by vm_compute in Ha|].
  destruct (osfpga_add_periods pcs (OSFPGA.__init__ "foedag") (Examples.host [] 0))
    as [wo [e|to]] eqn:Ho; [by vm_compute in Ho|].
  destruct (add_period_constraints_recorded pcs "foedag" _ wa wo ta to Ha Ho)
    as (_ & _ & _ & Hget & _).
  exists wa, ta. split; [done|]. split.
  - destruct (Hget Examples.sysclk 10.0005%Q) as (r & Hr & ->); [by left|].
    f_equal. by vm_compute in Hr; injection Hr as <-.
  - destruct (Hget Examples.usbclk 20.8339%Q) as (r & Hr & ->); [right; by left|].
    f_equal. by vm_compute in Hr; injection Hr as <-.
Defined.

(** X3. The Microsemi toolchain records periods as they are given: after
    a series of calls that all went through it holds exactly the clocks
    that were constrained, each once, with a period that was asked for
    it and that every period asked for it equals; the world and the
    false paths are as before. *)
Theorem microsemi_add_period_constraints_recorded
    (pcs : list (Signal * Q)) (w w' : World)
    (t : Microsemi.MicrosemiLiberoSoCPolarfireToolchain) :
  microsemi_add_periods pcs Microsemi.__init__ w = (w', inr t) ->
  w' = w
  /\ NoDup (Microsemi.clocks t).*1
  /\ (forall c, c ∈ (Microsemi.clocks t).*1 <-> c ∈ pcs.*1)
  /\ (forall c p, (c, p) ∈ pcs ->
        exists r, dict_get c (Microsemi.clocks t) = Some r /\ (r == p)%Q)
  /\ (forall c r, dict_get c (Microsemi.clocks t) = Some r -> (c, r) ∈ pcs)
  /\ Microsemi.false_paths t = [].
Proof.
  intros Hm.
  pose proof (microsemi_add_periods_record pcs Microsemi.__init__ w) as Hr. simpl in Hr.
  destruct (record_periods (fun p => p) pcs []) as [clocks'|] eqn:Hrec.
  2: { destruct Hr as (? & Hr). congruence. }
  rewrite Hm in Hr. simplify_eq. simpl.
  destruct (record_periods_lookup _ _ _ _ Hrec) as (Hin & Hval & Hkeys).
  split_and!; [done| | |done| |done].
  - eapply record_periods_NoDup; [exact Hrec | constructor].
  - intros c. rewrite Hkeys. simpl. rewrite elem_of_nil. tauto.
  - intros c r Hd. by destruct (Hval c r Hd) as [[=]|(p & Hp & ->)].
Qed.

Lemma microsemi_add_period_constraints_recorded_witness :
  exists t,
    microsemi_add_periods [(Examples.sysclk, 10.0005%Q); (Examples.sysclk, 10.0005%Q)]
      Microsemi.__init__ (Examples.host [] 0) = (Examples.host [] 0, inr t)
    /\ dict_get Examples.sysclk (Microsemi.clocks t) = Some 10.0005%Q.
Proof.
  set (pcs := [(Examples.sysclk, 10.0005%Q); (Examples.sysclk, 10.0005%Q)]).
  destruct (microsemi_add_periods pcs Microsemi.__init__ (Examples.host [] 0))
    as [w' [e|t]] eqn:Hm; [by vm_compute in Hm|].
  destruct (microsemi_add_period_constraints_recorded pcs _ w' t Hm)
    as (-> & _ & _ & Hget & Hin & _).
  exists t. split; [done|].
  destruct (Hget Examples.sysclk 10.0005%Q) as (r & Hd & _); [by left|].
  rewrite Hd. f_equal.
  apply Hin in Hd. apply elem_of_cons in Hd as [Hd|Hd]; [congruence|].
  apply list_elem_of_singleton in Hd. congruence.
Defined.

Lemma fp_add_extends fp a b :
  exists added, fp_add fp a b = fp ++ added /\ forall x, x ∈ added -> x = (a, b).
Proof.
  unfold fp_add, set_add.
  destruct (set_mem (b, a) fp); simpl.
  - exists []. rewrite app_nil_r. split; [done|]. by intros x ?%elem_of_nil.
  - destruct (set_mem (a, b) fp).
    + exists []. rewrite app_nil_r. split; [done|]. by intros x ?%elem_of_nil.
    + exists [(a, b)]. split; [done|]. by intros x ->%list_elem_of_singleton.
Qed.

Lemma stored_for_kept a b fp added :
  canonical (fp ++ added) -> stored_for a b fp = 1 -> stored_for a b (fp ++ added) = 1.
Proof.
  intros Hcan H1. pose proof (stored_for_le_1 a b _ Hcan) as Hle.
  unfold stored_for in *. rewrite filter_app, length_app in *. lia.
Qed.

(** X4. Any series of [add_false_path_constraint] calls goes through
    and leaves the world as it is. The pairs stored before stay; what
    is added are pairs the calls named; every pair a call named is
    stored once, in one direction only, and no pair is stored twice or
    in both directions. *)
Theorem add_false_path_constraints_series
    (cs : list (Signal * Signal)) (self : Microsemi.MicrosemiLiberoSoCPolarfireToolchain)
    (w : World) :
  canonical (Microsemi.false_paths self) ->
  exists added,
    add_false_paths cs self w
    = (w, inr (microsemi_with_false_paths self (Microsemi.false_paths self ++ added)))
    /\ canonical (Microsemi.false_paths self ++ added)
    /\ (forall x, x ∈ added -> x ∈ cs)
    /\ (forall a b, (a, b) ∈ cs ->
          stored_for a b (Microsemi.false_paths self ++ added) = 1).
Proof.
  revert self. induction cs as [|[x y] cs IH]; intros self Hcan.
  - exists []. rewrite app_nil_r. split_and!; [by destruct self | done | done |].
    intros a b Hin. by apply elem_of_nil in Hin.
  - destruct (fp_add_extends (Microsemi.false_paths self) x y) as (add1 & Hadd & Hnew).
    assert (canonical (fp_add (Microsemi.false_paths self) x y)) as Hcan1
      by by apply canonical_fp_add.
    assert (stored_for x y (fp_add (Microsemi.false_paths self) x y) = 1) as Hxy
      by (apply stored_for_fp_add; auto).
    destruct (IH (microsemi_with_false_paths self
                    (fp_add (Microsemi.false_paths self) x y)) Hcan1)
      as (add2 & Hrun & Hcan2 & Hfrom & Hall).
    cbn [Microsemi.false_paths microsemi_with_false_paths] in Hrun, Hcan2, Hall.
    exists (add1 ++ add2). rewrite app_assoc, <- Hadd. split_and!.
    + unfold add_false_paths. simpl. unfold bind at 1.
      rewrite add_false_path_constraint_pure. exact Hrun.
    + exact Hcan2.
    + intros c [Hc|Hc]%elem_of_app; [rewrite (Hnew c Hc); left | right; auto].
    + intros a b [Hab|Hab]%elem_of_cons.
      * injection Hab as -> ->. by apply stored_for_kept.
      * by apply Hall.
Qed.

Lemma add_false_path_constraints_series_witness :
  exists added,
    add_false_paths [(Examples.sysclk, Examples.usbclk); (Examples.usbclk, Examples.sysclk);
                     (Examples.usbclk, Examples.usbclk)] Microsemi.__init__
                    (Examples.host [] 0)
    = (Examples.host [] 0, inr (microsemi_with_false_paths Microsemi.__init__ added))
    /\ stored_for Examples.usbclk Examples.sysclk added = 1.
Proof.
  assert (canonical (Microsemi.false_paths Microsemi.__init__)) as Hcan.
  { split; [constructor | intros a b Hin; by apply elem_of_nil in Hin]. }
  destruct (add_false_path_constraints_series
              [(Examples.sysclk, Examples.usbclk); (Examples.usbclk, Examples.sysclk);
               (Examples.usbclk, Examples.usbclk)] Microsemi.__init__
              (Examples.host [] 0) Hcan) as (added & Hrun & _ & _ & Hall).
  exists added. split; [exact Hrun|]. apply Hall. right. left.
Defined.

(** X5. On the Anlogic and OSFPGA toolchains [add_period_constraint]
    marks the clock signal with the attribute [keep] before it compares
    periods, so also when it then raises, and changes nothing else of
    the world. The Microsemi toolchain leaves the signal as it is. *)
Theorem add_period_constraint_marks_keep
    (ta : Anlogic.TangDinastyToolchain) (to : OSFPGA.OSFPGAToolchain)
    (tm : Microsemi.MicrosemiLiberoSoCPolarfireToolchain)
    (clk : Signal) (p : Q) (w : World) :
  let wa := (Anlogic.add_period_constraint ta clk p w).1 in
  let wo := (OSFPGA.add_period_constraint to clk p w).1 in
  wa = wo
  /\ (forall a, a ∈ sig_attr wa <-> a = (duid clk, "keep") \/ a ∈ sig_attr w)
  /\ (cwd wa, dirs wa, files wa, sources wa, spawned wa)
     = (cwd w, dirs w, files w, sources w, spawned w)
  /\ (Microsemi.add_period_constraint tm clk p w).1 = w.
Proof.
  intros wa wo. subst wa wo.
  assert ((Anlogic.add_period_constraint ta clk p w).1 = kept clk w) as ->.
  { destruct (round_ps p) as [e|r] eqn:Hr.
    - by rewrite (anlogic_add_period_overflow _ _ _ e).
    - destruct (conflicting (Anlogic.clocks ta) clk r) as [old|] eqn:Hc.
      + by rewrite (anlogic_add_period_conflict _ _ _ r old).
      + by rewrite (anlogic_add_period_ok _ _ _ r). }
  assert ((OSFPGA.add_period_constraint to clk p w).1 = kept clk w) as ->.
  { destruct (round_ps p) as [e|r] eqn:Hr.
    - by rewrite (osfpga_add_period_overflow _ _ _ e).
    - destruct (conflicting (OSFPGA.clocks to) clk r) as [old|] eqn:Hc.
      + by rewrite (osfpga_add_period_conflict _ _ _ r old).
      + by rewrite (osfpga_add_period_ok _ _ _ r). }
  split_and!; [done| |done|].
  - intros a. unfold kept, attr_add, modify. simpl. apply elem_of_set_add.
  - destruct (conflicting (Microsemi.clocks tm) clk p) as [old|] eqn:Hc.
    + by rewrite (microsemi_add_period_conflict _ _ _ old).
    + by rewrite microsemi_add_period_ok.
Qed.

Lemma flat_sc_cons name pins other resource rest :
  Anlogic.flat_sc ((name, pins, other, resource) :: rest)
  = match pins with
    | [] => inl IndexError
    | p :: pins' =>
        match Anlogic.flat_sc rest with
        | inl e => inl e
        | inr rows' =>
            inr ((if 1 <? length pins then Anlogic.indexed name pins other
                  else [(name, p, other)]) ++ rows')
        end
    end.
Proof.
  cbn [Anlogic.flat_sc]. destruct pins as [|p [|q pins]]; simpl; [done| |];
    by destruct (Anlogic.flat_sc rest).
Qed.

Lemma flat_sc_ok named_sc :
  match Anlogic.flat_sc named_sc with
  | inr rows =>
      Forall (fun row => has_pin row = true) named_sc
      /\ rows.*1.*2 = mjoin (pins_of <$> named_sc)
  | inl e => e = IndexError /\ ~ Forall (fun row => has_pin row = true) named_sc
  end.
Proof.
  induction named_sc as [|[[[name pins] other] resource] rest IH].
  - simpl. split; [constructor | done].
  - rewrite flat_sc_cons. destruct pins as [|p pins'].
    + split; [done|]. by intros [[=] _]%Forall_cons.
    + destruct (Anlogic.flat_sc rest) as [e|rows'].
      * destruct IH as [-> Hno]. split; [done|]. by intros [_ ?]%Forall_cons.
      * destruct IH as [Hall Hpins]. split; [by constructor|].
        rewrite !fmap_app, Hpins, fmap_cons. cbn [mjoin list_join pins_of fst snd].
        f_equal. destruct pins' as [|q pins']; [done|].
        change (1 <? length (p :: q :: pins')) with true. cbv iota.
        unfold Anlogic.indexed. rewrite !fmap_imap.
        clear. generalize (p :: q :: pins'). intros l.
        rewrite <- (list_fmap_id l) at 2. rewrite <- (imap_const id l).
        by apply imap_ext.
Qed.

Lemma Forall_has_pin_forallb (named_sc : list NamedSC) :
  forallb has_pin named_sc = true <-> Forall (fun row => has_pin row = true) named_sc.
Proof.
  induction named_sc as [|row rest IH]; simpl; [split; [constructor|done]|].
  rewrite andb_true_iff, Forall_cons, IH. done.
Qed.

(** X6. [_build_adc] writes [top.adc] exactly when every row of the
    signal table has a pin: the file then has one line per pin, in the
    order of the table, and the platform commands behind them. A row
    without a pin raises [IndexError], and no file is written. *)
Theorem build_adc_needs_pins
    (named_sc : list NamedSC) (named_pc : list string) (w : World) :
  if forallb has_pin named_sc
  then exists rows,
         Anlogic.flat_sc named_sc = inr rows
         /\ rows.*1.*2 = mjoin (pins_of <$> named_sc)
         /\ Anlogic._build_adc named_sc named_pc w
            = (set_files (dict_set (resolve (cwd w) "top.adc")
                            (join nl ((Anlogic.adc_line <$> rows) ++ named_pc)) (files w)) w,
               inr tt)
  else Anlogic._build_adc named_sc named_pc w = (w, inl IndexError).
Proof.
  pose proof (flat_sc_ok named_sc) as Hflat.
  pose proof (Forall_has_pin_forallb named_sc) as Hall.
  unfold Anlogic._build_adc, Anlogic.adc_text, bind, lift.
  destruct (Anlogic.flat_sc named_sc) as [e|rows].
  - destruct Hflat as [-> Hno]. destruct (forallb has_pin named_sc); [|done].
    destruct Hno. by apply Hall.
  - destruct Hflat as [Hpins Heq]. rewrite (proj2 Hall Hpins). by exists rows.
Qed.

Lemma io_pcf_rows_ok named_sc :
  match map_exn QuickLogic.io_pcf_row named_sc with
  | inr rows =>
      Forall (fun row => has_pin row = true) named_sc
      /\ length <$> rows = (fun row => length (pins_of row)) <$> named_sc
  | inl e => e = IndexError /\ ~ Forall (fun row => has_pin row = true) named_sc
  end.
Proof.
  induction named_sc as [|[[[name pins] other] resource] rest IH]; cbn [map_exn].
  - split; [constructor | done].
  - unfold QuickLogic.io_pcf_row at 1. destruct pins as [|p [|q pins']].
    + simpl. split; [done|]. by intros [[=] _]%Forall_cons.
    + simpl. destruct (map_exn QuickLogic.io_pcf_row rest) as [e|rows'].
      * destruct IH as [-> Hno]. split; [done|]. by intros [_ ?]%Forall_cons.
      * destruct IH as [Hall Hlen]. split; [by constructor|]. by rewrite !fmap_cons, Hlen.
    + change (1 <? length (p :: q :: pins')) with true. cbv iota.
      destruct (map_exn QuickLogic.io_pcf_row rest) as [e|rows'].
      * destruct IH as [-> Hno]. split; [done|]. by intros [_ ?]%Forall_cons.
      * destruct IH as [Hall Hlen]. split; [by constructor|].
        rewrite !fmap_cons, Hlen, length_imap. done.
Qed.

(** X7. [_build_io_pcf] writes the [.pcf] file exactly when every row
    of the signal table has a pin: the file then has one entry per pin
    of every row. A row without a pin raises [IndexError], and no file
    is written. The platform commands are not written. *)
Theorem build_io_pcf_needs_pins
    (named_sc : list NamedSC) (named_pc : list string) (build_name : string) (w : World) :
  if forallb has_pin named_sc
  then exists rows,
         map_exn QuickLogic.io_pcf_row named_sc = inr rows
         /\ length <$> rows = (fun row => length (pins_of row)) <$> named_sc
         /\ QuickLogic._build_io_pcf named_sc named_pc build_name w
            = (set_files (dict_set (resolve (cwd w) (build_name +:+ ".pcf"))
                            (String.concat EmptyString (concat rows)) (files w)) w,
               inr tt)
  else QuickLogic._build_io_pcf named_sc named_pc build_name w = (w, inl IndexError).
Proof.
  pose proof (io_pcf_rows_ok named_sc) as Hrows.
  pose proof (Forall_has_pin_forallb named_sc) as Hall.
  unfold QuickLogic._build_io_pcf, QuickLogic.io_pcf_text, bind, lift.
  destruct (map_exn QuickLogic.io_pcf_row named_sc) as [e|rows].
  - destruct Hrows as [-> Hno]. destruct (forallb has_pin named_sc); [|done].
    destruct Hno. by apply Hall.
  - destruct Hrows as [Hpins Heq]. rewrite (proj2 Hall Hpins). by exists rows.
Qed.

(** [_format_io_pdc] has a result exactly on the attributes it has a
    format for. *)
Lemma format_io_pdc_ok signame pin others :
  match Microsemi._format_io_pdc signame pin others with
  | inr _ => forallb pdc_ok others = true
  | inl e => (e = IndexError \/ e = NotImplementedError) /\ forallb pdc_ok others = false
  end.
Proof.
  unfold Microsemi._format_io_pdc. cbn [map_exn Microsemi._format_io_constraint].
  induction others as [|c others IH]; [done|]. cbn [map_exn forallb].
  destruct c as [[|i ids]|n|m|k]; cbn [Microsemi._format_io_constraint pdc_ok andb];
    try (split; [auto | done]);
    destruct (map_exn Microsemi._format_io_constraint others); done.
Qed.

Lemma map_exn_length {A B} (f : A -> exn + B) (l : list A) ys :
  map_exn f l = inr ys -> length ys = length l.
Proof.
  revert ys. induction l as [|x l IH]; intros ys; cbn [map_exn]; [by intros [= <-]|].
  destruct (f x); [done|]. destruct (map_exn f l); [done|].
  intros [= <-]. simpl. by rewrite (IH _ eq_refl).
Qed.

Lemma map_exn_inl {A B} (f : A -> exn + B) (l : list A) e :
  map_exn f l = inl e -> exists x, x ∈ l /\ f x = inl e.
Proof.
  induction l as [|x l IH]; cbn [map_exn]; [done|].
  destruct (f x) as [e'|y] eqn:Hx.
  - intros [= <-]. exists x. split; [left | done].
  - destruct (map_exn f l); [|done]. intros [= <-].
    destruct IH as (x' & Hin & Hf); [done|]. exists x'. split; [by right | done].
Qed.

Lemma map_exn_inr {A B} (f : A -> exn + B) (l : list A) ys :
  map_exn f l = inr ys -> forall x, x ∈ l -> exists y, f x = inr y.
Proof.
  revert ys. induction l as [|x l IH]; intros ys; cbn [map_exn].
  - intros _ x []%elem_of_nil.
  - destruct (f x) as [e|y] eqn:Hx; [done|].
    destruct (map_exn f l) as [e|ys']; [done|]. intros _ x' [->|Hin]%elem_of_cons.
    + by eexists.
    + by apply (IH ys').
Qed.

Lemma io_pdc_row_ok row :
  match Microsemi.io_pdc_row row with
  | inr entries =>
      has_pin row && forallb pdc_ok (others_of row) = true
      /\ length entries = length (pins_of row)
  | inl e => (e = IndexError \/ e = NotImplementedError)
             /\ has_pin row && forallb pdc_ok (others_of row) = false
  end.
Proof.
  destruct row as [[[name pins] others] resource].
  unfold Microsemi.io_pdc_row, has_pin, others_of, pins_of. cbn [fst snd].
  destruct pins as [|p [|q pins']].
  - simpl. auto.
  - simpl. pose proof (format_io_pdc_ok name p others) as Hf.
    destruct (Microsemi._format_io_pdc name p others); [done|]. by split.
  - change (1 <? length (p :: q :: pins')) with true. cbv iota. cbn [andb].
    destruct (map_exn _ (imap pair (p :: q :: pins'))) as [e|entries] eqn:Hm.
    + apply map_exn_inl in Hm as ([i x] & _ & Hf).
      pose proof (format_io_pdc_ok (name +:+ "[" +:+ str_nat i +:+ "]") x others) as Hok.
      cbn [fst snd] in Hf. by rewrite Hf in Hok.
    + split.
      * destruct (map_exn_inr _ _ _ Hm (0, p)) as [y Hy]; [left|].
        pose proof (format_io_pdc_ok (name +:+ "[" +:+ str_nat 0 +:+ "]") p others) as Hok.
        cbn [fst snd] in Hy. by rewrite Hy in Hok.
      * rewrite (map_exn_length _ _ _ Hm). apply length_imap.
Qed.

Lemma io_pdc_rows_ok named_sc :
  match map_exn Microsemi.io_pdc_row named_sc with
  | inr rows =>
      forallb (fun row => has_pin row && forallb pdc_ok (others_of row)) named_sc = true
      /\ length <$> rows = (fun row => length (pins_of row)) <$> named_sc
  | inl e =>
      (e = IndexError \/ e = NotImplementedError)
      /\ forallb (fun row => has_pin row && forallb pdc_ok (others_of row)) named_sc = false
  end.
Proof.
  induction named_sc as [|row rest IH]; cbn [map_exn forallb]; [done|].
  pose proof (io_pdc_row_ok row) as Hrow.
  destruct (Microsemi.io_pdc_row row) as [e|entries].
  - destruct Hrow as [He ->]. done.
  - destruct Hrow as [-> Hlen]. cbn [andb].
    destruct (map_exn Microsemi.io_pdc_row rest) as [e|rows]; [done|].
    destruct IH as [-> Hlens]. split; [done|]. by rewrite !fmap_cons, Hlen, Hlens.
Qed.

(** X8. [_build_io_pdc] writes the [_io.pdc] file exactly when every
    row of the signal table has a pin and only attributes that
    [_format_io_constraint] has a format for ([Pins] with an
    identifier, [IOStandard], [Misc]): the file then has one entry per
    pin of every row and the additional constraints behind them.
    Otherwise it raises [IndexError] or [NotImplementedError], and no
    file is written. *)
Theorem build_io_pdc_needs_formats
    (named_sc : list NamedSC) (named_pc extra : list string) (build_name : string)
    (w : World) :
  if forallb (fun row => has_pin row && forallb pdc_ok (others_of row)) named_sc
  then exists rows,
         map_exn Microsemi.io_pdc_row named_sc = inr rows
         /\ length <$> rows = (fun row => length (pins_of row)) <$> named_sc
         /\ Microsemi._build_io_pdc named_sc named_pc build_name extra w
            = (set_files (dict_set (resolve (cwd w) (build_name +:+ "_io.pdc"))
                            (String.concat EmptyString (concat rows) +:+ join nl extra)
                            (files w)) w,
               inr tt)
  else exists e,
         Microsemi._build_io_pdc named_sc named_pc build_name extra w = (w, inl e)
         /\ (e = IndexError \/ e = NotImplementedError).
Proof.
  pose proof (io_pdc_rows_ok named_sc) as Hrows.
  unfold Microsemi._build_io_pdc, Microsemi.io_pdc_text, bind, lift.
  destruct (map_exn Microsemi.io_pdc_row named_sc) as [e|rows].
  - destruct Hrows as [He ->]. by exists e.
  - destruct Hrows as [-> Hlen]. by exists rows.
Qed.

(* ================================================================== *)
(** * The lines of the timing files                                    *)
(* ================================================================== *)

(** X9. The timing files list the recorded clocks once each, in
    ascending order of [duid]; the Microsemi file then lists the stored
    false paths once each, in ascending order of the pair of [duid]s, and
    the additional constraints last. *)
Theorem timing_lines_ascending `{FloatRepr} `{Microsemi.SignalRepr}
    (clocks : list (Signal * Q)) (false_paths : list (Signal * Signal))
    (extra : list string) (vns : Namespace) :
  exists cs fs,
    cs ≡ₚ clocks
    /\ StronglySorted (fun x y => duid x.1 <= duid y.1) cs
    /\ fs ≡ₚ false_paths
    /\ StronglySorted (fun x y => duid x.1 < duid y.1
                                  \/ (duid x.1 = duid y.1 /\ duid x.2 <= duid y.2)) fs
    /\ Anlogic.sdc_text clocks vns = join nl (Anlogic.sdc_line vns <$> cs)
    /\ OSFPGA.sdc_text clocks vns = join nl (OSFPGA.sdc_line vns <$> cs)
    /\ Microsemi.timing_sdc_text vns clocks false_paths extra
       = join nl ((Microsemi.create_clock_line vns <$> cs)
                  ++ (Microsemi.clock_groups_line <$> fs) ++ extra).
Proof.
  destruct (sorted_by_duid_ascending clocks) as [Hp Hs].
  destruct (sorted_by_duid_pair_ascending false_paths) as [Hp2 Hs2].
  exists (sorted by_duid clocks), (sorted by_duid_pair false_paths).
  split_and!; done.
Qed.

(** X10. In the Microsemi timing file every clock is created under the
    name [{clk}] as it is written, since [format] reaches the last
    literal only; the file depends on the namespace through the net
    names of the recorded clocks alone. *)
Theorem microsemi_timing_names `{FloatRepr} `{Microsemi.SignalRepr}
    (vns1 vns2 : Namespace) (clocks : list (Signal * Q))
    (false_paths : list (Signal * Signal)) (extra : list string) :
  (forall c, c ∈ clocks.*1 -> vns1 c = vns2 c) ->
  Microsemi.timing_sdc_text vns1 clocks false_paths extra
  = Microsemi.timing_sdc_text vns2 clocks false_paths extra
  /\ Forall (fun item =>
       String.prefix "create_clock -name {clk} -period "
                     (Microsemi.create_clock_line vns1 item) = true) clocks.
Proof.
  intros Hagree. split.
  - unfold Microsemi.timing_sdc_text. f_equal. f_equal.
    apply Forall_fmap_ext_1. apply Forall_forall. intros [c p] Hin.
    unfold Microsemi.create_clock_line. rewrite (Hagree c); [done|].
    apply list_elem_of_fmap. exists (c, p). split; [done|].
    by rewrite <- (proj1 (sorted_by_duid_ascending clocks)).
  - apply Forall_forall. intros [c p] _. unfold Microsemi.create_clock_line.
    apply (prefix_app "create_clock -name {clk} -period ").
Qed.

Lemma microsemi_timing_names_witness :
  let H := Examples.millis in
  let H0 := Examples.by_id in
  Microsemi.timing_sdc_text Examples.names [(Examples.sysclk, 10%Q)]
    [(Examples.sysclk, Examples.usbclk)] []
  = Microsemi.timing_sdc_text (fun s => if decide (s = Examples.sysclk) then "sysclk"
                                        else "other")
      [(Examples.sysclk, 10%Q)] [(Examples.sysclk, Examples.usbclk)] [].
Proof.
  intros H H0.
  apply (microsemi_timing_names (H := H) (H0 := H0) Examples.names _
           [(Examples.sysclk, 10%Q)] [(Examples.sysclk, Examples.usbclk)] []).
  intros c Hc. apply list_elem_of_singleton in Hc. subst c. reflexivity.
Defined.

(* ================================================================== *)
(** * Device names                                                     *)
(* ================================================================== *)

Lemma string_app_assoc (a b c : string) : (a +:+ b) +:+ c = a +:+ (b +:+ c).
Proof.
  induction a as [|x a IH]; [done|].
  change (String x ((a +:+ b) +:+ c) = String x (a +:+ (b +:+ c))). by rewrite IH.
Qed.

Lemma rev_app_app (s1 s2 : string) : String.rev_app s1 s2 = String.rev s1 +:+ s2.
Proof.
  revert s2. induction s1 as [|a s1 IH]; intros s2; [done|].
  unfold String.rev. cbn [String.rev_app].
  rewrite (IH (String a s2)), (IH (String a EmptyString)), string_app_assoc. done.
Qed.

Lemma rev_snoc (c : ascii) (acc : string) :
  String.rev (String c acc) = String.rev acc +:+ String c EmptyString.
Proof. unfold String.rev at 1. cbn [String.rev_app]. apply rev_app_app. Qed.

Lemma split_go_acc sep acc s :
  exists h t, split_go sep EmptyString s = h :: t
              /\ split_go sep acc s = (String.rev acc +:+ h) :: t.
Proof.
  revert acc. induction s as [|c s IH]; intros acc; cbn [split_go].
  - exists EmptyString, []. split; [done|]. by rewrite string_app_empty_r.
  - destruct (Ascii.eqb c sep).
    + exists EmptyString, (split_go sep EmptyString s). split; [done|].
      by rewrite string_app_empty_r.
    + destruct (IH (String c EmptyString)) as (h & t & Hs & Hc).
      destruct (IH (String c acc)) as (h' & t' & Hs' & Hc').
      rewrite Hs in Hs'. injection Hs' as <- <-.
      exists (String c h), t. split; [by rewrite Hc|].
      rewrite Hc', rev_snoc, string_app_assoc. done.
Qed.

(** [split] read from the left. *)
Lemma split_nil sep : split sep EmptyString = [EmptyString].
Proof. done. Qed.

Lemma split_sep sep s : split sep (String sep s) = EmptyString :: split sep s.
Proof. unfold split. cbn [split_go]. by rewrite Ascii.eqb_refl. Qed.

Lemma split_other sep c s :
  c ≠ sep ->
  exists h t, split sep s = h :: t /\ split sep (String c s) = String c h :: t.
Proof.
  intros Hne. unfold split. cbn [split_go].
  destruct (Ascii.eqb_spec c sep) as [|_]; [done|].
  destruct (split_go_acc sep (String c EmptyString) s) as (h & t & Hs & Hc).
  exists h, t. split; [done|]. by rewrite Hc.
Qed.

Lemma split_join sep s : join (String sep EmptyString) (split sep s) = s.
Proof.
  induction s as [|c s IH]; [done|].
  destruct (decide (c = sep)) as [->|Hne].
  - rewrite split_sep. unfold join in *. cbn [String.concat].
    destruct (split sep s) eqn:Hs; [|by rewrite <- IH].
    destruct (split_go_acc sep EmptyString s) as (? & ? & Hs' & _).
    unfold split in Hs. congruence.
  - destruct (split_other sep c s Hne) as (h & t & Hs & ->).
    rewrite Hs in IH. unfold join in *. cbn [String.concat] in *.
    destruct t; by rewrite <- IH.
Qed.

Lemma split_no_sep sep s : Forall (fun part => has_char sep part = false) (split sep s).
Proof.
  induction s as [|c s IH]; [by repeat constructor|].
  destruct (decide (c = sep)) as [->|Hne].
  - rewrite split_sep. by constructor.
  - destruct (split_other sep c s Hne) as (h & t & Hs & ->).
    rewrite Hs in IH. apply Forall_cons in IH as [Hh Ht]. constructor; [|done].
    cbn [has_char]. rewrite Hh. by destruct (Ascii.eqb_spec c sep).
Qed.

Lemma split_app_sep sep a s :
  has_char sep a = false -> split sep (a +:+ String sep s) = a :: split sep s.
Proof.
  induction a as [|c a IH]; intros Ha.
  - apply split_sep.
  - cbn [has_char] in Ha. apply orb_false_iff in Ha as [Hc Ha].
    change (String c a +:+ String sep s) with (String c (a +:+ String sep s)).
    destruct (split_other sep c (a +:+ String sep s)) as (h & t & Hs & ->).
    { intros ->. by rewrite Ascii.eqb_refl in Hc. }
    rewrite (IH Ha) in Hs. by injection Hs as <- <-.
Qed.

Lemma split_whole sep a : has_char sep a = false -> split sep a = [a].
Proof.
  induction a as [|c a IH]; intros Ha; [done|].
  cbn [has_char] in Ha. apply orb_false_iff in Ha as [Hc Ha].
  destruct (split_other sep c a) as (h & t & Hs & ->).
  { intros ->. by rewrite Ascii.eqb_refl in Hc. }
  rewrite (IH Ha) in Hs. by injection Hs as <- <-.
Qed.

(** X11. [_build_tcl] takes a device apart into die, package and speed
    exactly when the device is these three joined by [-] and none of
    them holds a [-]; the parts are then unique. *)
Theorem split_device_round_trip (device die package speed : string) :
  Microsemi.split_device device = inr (die, package, speed)
  <-> device = die +:+ "-" +:+ package +:+ "-" +:+ speed
      /\ has_char "-" die = false /\ has_char "-" package = false
      /\ has_char "-" speed = false.
Proof.
  unfold Microsemi.split_device. split.
  - pose proof (split_join "-" device) as Hj. pose proof (split_no_sep "-" device) as Hn.
    destruct (split "-" device) as [|a [|b [|c [|d l]]]]; try done.
    intros [= <- <- <-]. unfold join in Hj. cbn [String.concat] in Hj.
    apply Forall_cons in Hn as [Ha Hn]. apply Forall_cons in Hn as [Hb Hn].
    apply Forall_cons in Hn as [Hc _]. done.
  - intros (-> & Hd & Hp & Hs).
    change (die +:+ "-" +:+ package +:+ "-" +:+ speed)
      with (die +:+ String "-" (package +:+ String "-" speed)).
    by rewrite (split_app_sep _ _ _ Hd), (split_app_sep _ _ _ Hp), (split_whole _ _ Hs).
Qed.

(* ================================================================== *)
(** * The Makefile                                                     *)
(* ================================================================== *)

Lemma contains_between (n a c text : string) :
  text = a +:+ n +:+ c -> contains n text = true.
Proof. intros ->. apply contains_here. Qed.

(** X12. [_build_makefile] writes a [Makefile] whose compile line names
    the device, the top file and the [.pcf] file of the build; the part
    is PU64 for the device ql-eos-s3 and the text [None] for any other
    device. It does not raise. *)
Theorem build_makefile_part (platform : Platform) (sources : list SourceFile)
    (build_dir build_name : string) (w : World) :
  let part := if bool_decide (device platform = "ql-eos-s3") then "PU64" else "None" in
  let line := tab +:+ "ql_symbiflow -compile -d " +:+ device platform +:+ " -P " +:+ part
              +:+ " -v " +:+ build_name +:+ ".v" +:+ " -t " +:+ build_name
              +:+ " -p " +:+ build_name +:+ ".pcf" in
  exists text,
    QuickLogic._build_makefile platform sources build_dir build_name w
    = (set_files (dict_set (resolve (cwd w) "Makefile") text (files w)) w, inr tt)
    /\ contains (nl +:+ line +:+ nl) text = true.
Proof.
  intros part line. eexists. split; [reflexivity|].
  assert (QuickLogic.part_of (device platform) = part) as Hpart.
  { unfold QuickLogic.part_of, part. cbn [dict_get].
    destruct (decide (device platform = "ql-eos-s3")) as [Hd|Hd];
      [by rewrite bool_decide_eq_true_2 | by rewrite bool_decide_eq_false_2]. }
  unfold QuickLogic.makefile_text. rewrite Hpart. subst line. generalize part. intros q.
  apply (contains_between _
           (join nl
              [ "mkfile_path := $(abspath $(lastword $(MAKEFILE_LIST)))";
                "current_dir := $(patsubst %/,%,$(dir $(mkfile_path)))";
                "TOP_F=" +:+ build_name;
                "all: " +:+ build_name +:+ "_bit.h " +:+ build_name +:+ ".bin build/"
                  +:+ build_name +:+ ".bit";
                "build/" +:+ build_name +:+ ".bit:" ])
           (join nl
              [ build_name +:+ "_bit.h: build/" +:+ build_name +:+ ".bit";
                tab +:+ "(cd build; TOP_F=$(TOP_F) symbiflow_write_bitheader)";
                build_name +:+ ".bin: build/" +:+ build_name +:+ ".bit";
                tab +:+ "(cd build; TOP_F=$(TOP_F) symbiflow_write_binary)" ])).
  unfold join. cbn [String.concat]. rewrite !string_app_assoc. reflexivity.
Qed.

(* ================================================================== *)
(** * What a build writes                                              *)
(* ================================================================== *)

Lemma host_well_formed programs status : well_formed (Examples.host programs status).
Proof. split; [reflexivity | apply list_elem_of_singleton; reflexivity]. Qed.

Lemma board_converts device table :
  converts (Examples.board device table) ("module top();", Examples.names) (table, []).
Proof. done. Qed.

Lemma string_app_inv_head (a b c : string) : a +:+ b = a +:+ c -> b = c.
Proof.
  induction a as [|x a IH]; [done|].
  change (String x (a +:+ b) = String x (a +:+ c) -> b = c). intros [= Heq]. by apply IH.
Qed.

Lemma startswith_app_rel (n a : string) :
  startswith a "/" = false -> startswith (n +:+ a) "/" = startswith n "/".
Proof.
  unfold startswith. destruct n as [|c n]; [done|]. intros _.
  change (String c n +:+ a) with (String c (n +:+ a)). cbn [String.prefix].
  destruct (ascii_dec _ _); [|done]. by rewrite !prefix_empty.
Qed.

(** Two names made of one stem and different endings name different
    files. *)
Lemma resolve_stem_ne d n a b :
  startswith a "/" = false -> startswith b "/" = false -> a ≠ b ->
  resolve d (n +:+ a) ≠ resolve d (n +:+ b).
Proof.
  intros Ha Hb Hne. unfold resolve.
  rewrite (startswith_app_rel n a Ha), (startswith_app_rel n b Hb).
  destruct (startswith n "/").
  - by intros ?%string_app_inv_head.
  - intros Heq. rewrite <- !string_app_assoc in Heq. by apply string_app_inv_head in Heq.
Qed.

Lemma resolve_last2_ne d a b :
  2 <= String.length a -> 2 <= String.length b -> last2 a ≠ last2 b ->
  resolve d a ≠ resolve d b.
Proof.
  intros Ha Hb Hne Heq. apply Hne. by rewrite <- (last2_resolve d a), <- (last2_resolve d b), Heq.
Qed.

Ltac names_differ :=
  first
    [ apply (resolve_stem_ne _ EmptyString); [reflexivity | reflexivity | discriminate]
    | apply resolve_stem_ne; [reflexivity | reflexivity | discriminate]
    | apply resolve_last2_ne;
      [ rewrite ?string_length_app; simpl; lia
      | rewrite ?string_length_app; simpl; lia
      | rewrite ?last2_app by (rewrite ?string_length_app; simpl; lia);
        vm_compute; discriminate ] ].

Ltac read_back :=
  repeat first
    [ rewrite dict_get_set_eq; reflexivity
    | rewrite dict_get_set_ne by names_differ ].

(** A build that goes through, as a statement [post] on the world it
    leaves and the namespace it returns. *)
Ltac build_returns post :=
  lazymatch goal with
  | |- exists w', ?build ?w = (w', inr ?ns) /\ _ =>
      let Hwp := fresh "Hwp" in
      enough (wp build (fun w' r => r = ns /\ post w') (fun _ _ => False) w) as Hwp;
      [ apply wp_returns in Hwp as (w' & ? & ? & -> & ?); by exists w' | ]
  end.

(** X13. An Anlogic build for the device EG4S20BG256 whose signal table
    has a pin in every row returns the namespace of the design, back in
    the directory it started from. The build directory exists and no
    directory is gone; the top file is added to the sources; the top
    file, [top.adc], [top.sdc], the project file and [run.tcl] are in
    the build directory, each with the emitter's text; [td run.tcl] has
    been started, once, when [run] is set (the tool is then on the path
    and exits with 0) and nothing otherwise. *)
Theorem anlogic_build_writes `{FloatRepr} (self : Anlogic.TangDinastyToolchain)
    (platform : Platform) (build_dir build_name : string) (run : bool) (w : World)
    (v : string * Namespace) (named : list NamedSC * list string) (adc : string) :
  well_formed w ->
  converts platform v named ->
  Anlogic.adc_text named.1 named.2 = inr adc ->
  device platform = "EG4S20BG256" ->
  (run = true -> "td" ∈ search_path w /\ exit_status w ["td"; "run.tcl"] = 0%Z) ->
  let bd := resolve (cwd w) build_dir in
  exists w',
    Anlogic.build self platform build_dir build_name run w = (w', inr v.2)
    /\ cwd w' = cwd w
    /\ bd ∈ dirs w' /\ (forall d, d ∈ dirs w -> d ∈ dirs w')
    /\ spawned w' = spawned w ++ (if run then [["td"; "run.tcl"]] else [])
    /\ sources w' = sources w ++ [source_entry platform bd (build_name +:+ ".v")]
    /\ dict_get (resolve bd (build_name +:+ ".v")) (files w') = Some v.1
    /\ dict_get (resolve bd "top.adc") (files w') = Some adc
    /\ dict_get (resolve bd "top.sdc") (files w')
       = Some (Anlogic.sdc_text (Anlogic.clocks self) v.2)
    /\ dict_get (resolve bd (build_name +:+ ".al")) (files w')
       = Some (Anlogic.al_text (now w) build_name "EG4" "EG4S20BG256" (sources w'))
    /\ dict_get (resolve bd "run.tcl") (files w')
       = Some (Anlogic.tcl_text build_name "eagle_s20" "BG256").
Proof.
  intros Hwf (Hf & Hv & Hn) Hadc Hdev Hrun bd. subst bd.
  assert (Anlogic.parse_device (device platform) = inr ("eagle_s20", "EG4", "BG256"))
    as Hparse by by rewrite Hdev.
  rewrite <- Hdev.
  build_returns
    (fun w' =>
       cwd w' = cwd w
       /\ (resolve (cwd w) build_dir) ∈ dirs w' /\ (forall d, d ∈ dirs w -> d ∈ dirs w')
       /\ spawned w' = spawned w ++ (if run then [["td"; "run.tcl"]] else [])
       /\ sources w' = sources w ++ [source_entry platform (resolve (cwd w) build_dir)
                                       (build_name +:+ ".v")]
       /\ dict_get (resolve (resolve (cwd w) build_dir) (build_name +:+ ".v")) (files w')
          = Some v.1
       /\ dict_get (resolve (resolve (cwd w) build_dir) "top.adc") (files w') = Some adc
       /\ dict_get (resolve (resolve (cwd w) build_dir) "top.sdc") (files w')
          = Some (Anlogic.sdc_text (Anlogic.clocks self) v.2)
       /\ dict_get (resolve (resolve (cwd w) build_dir) (build_name +:+ ".al")) (files w')
          = Some (Anlogic.al_text (now w) build_name "EG4" (device platform) (sources w'))
       /\ dict_get (resolve (resolve (cwd w) build_dir) "run.tcl") (files w')
          = Some (Anlogic.tcl_text build_name "eagle_s20" "BG256")).
  destruct run.
  - destruct (Hrun eq_refl) as [Hfound Hst].
    pose proof (proj2 (set_mem_true _ _) Hfound) as Hpath.
    unfold Anlogic.build. unfold_emitters.
    wp_go_with ltac:(rewrite_known; cbn [negb Z.eqb]); try runs_leaf Hwf.
    world_simpl. destruct Hwf as [Habs Hin].
    split_and!; first [done | by apply resolve_absolute | apply elem_of_set_add_same
                | by intros ?; apply elem_of_set_add_old | read_back].
  - unfold Anlogic.build. unfold_emitters.
    wp_go_with ltac:(rewrite_known; cbn [negb]); try runs_leaf Hwf.
    world_simpl. destruct Hwf as [Habs Hin]. rewrite app_nil_r.
    split_and!; first [done | by apply resolve_absolute | apply elem_of_set_add_same
                | by intros ?; apply elem_of_set_add_old | read_back].
Qed.

Lemma anlogic_build_writes_witness :
  exists w',
    Anlogic.build (H := Examples.millis) Anlogic.__init__
      (Examples.board "EG4S20BG256" [Examples.led]) "build" "top" true
      (Examples.host ["td"] 0) = (w', inr Examples.names)
    /\ spawned w' = [["td"; "run.tcl"]]
    /\ dict_get "/home/user/proj/build/top.adc" (files w')
       = Some "set_pin_assignment {led} { LOCATION = A1;  IOSTANDARD = LVCMOS33; }}".
Proof.
  destruct (anlogic_build_writes (H := Examples.millis) Anlogic.__init__
              (Examples.board "EG4S20BG256" [Examples.led]) "build" "top" true
              (Examples.host ["td"] 0) _ _
              "set_pin_assignment {led} { LOCATION = A1;  IOSTANDARD = LVCMOS33; }}"
              (host_well_formed _ _) (board_converts _ _) eq_refl eq_refl)
    as (w' & Hb & _ & _ & _ & Hsp & _ & _ & Hadc & _).
  { intros _. split; [apply list_elem_of_singleton; reflexivity | reflexivity]. }
  exists w'. split_and!; [exact Hb | exact Hsp | exact Hadc].
Defined.

(** X14. An OSFPGA build returns the namespace of the design, back in
    the directory it started from. The build directory exists and no
    directory is gone; the top file is added to the sources; three
    files and no other are written: the top file, the [.sdc] file and
    [build.tcl]; the toolchain has been started on [build.tcl], once,
    when [run] is set (the tool is then on the path and exits with 0)
    and nothing otherwise. *)
Theorem osfpga_build_writes `{FloatRepr} (self : OSFPGA.OSFPGAToolchain)
    (platform : Platform) (build_dir build_name : string) (run : bool) (w : World)
    (v : string * Namespace) (named : list NamedSC * list string) :
  well_formed w ->
  converts platform v named ->
  let argv := [OSFPGA.toolchain self; "--batch"; "--script"; "build.tcl"] in
  (run = true -> OSFPGA.toolchain self ∈ search_path w /\ exit_status w argv = 0%Z) ->
  let bd := resolve (cwd w) build_dir in
  exists w',
    OSFPGA.build self platform build_dir build_name run w = (w', inr v.2)
    /\ cwd w' = cwd w
    /\ bd ∈ dirs w' /\ (forall d, d ∈ dirs w -> d ∈ dirs w')
    /\ spawned w' = spawned w ++ (if run then [argv] else [])
    /\ sources w' = sources w ++ [source_entry platform bd (build_name +:+ ".v")]
    /\ files w'
       = dict_set (resolve bd "build.tcl")
           (OSFPGA.tcl_text (devicename platform) (device platform) (sources w')
              build_name (verilog_include_paths platform))
           (dict_set (resolve bd (build_name +:+ ".sdc"))
              (OSFPGA.sdc_text (OSFPGA.clocks self) v.2)
              (dict_set (resolve bd (build_name +:+ ".v")) v.1 (files w)))
    /\ dict_get (resolve bd (build_name +:+ ".v")) (files w') = Some v.1
    /\ dict_get (resolve bd (build_name +:+ ".sdc")) (files w')
       = Some (OSFPGA.sdc_text (OSFPGA.clocks self) v.2)
    /\ dict_get (resolve bd "build.tcl") (files w')
       = Some (OSFPGA.tcl_text (devicename platform) (device platform) (sources w')
                 build_name (verilog_include_paths platform)).
Proof.
  intros Hwf (Hf & Hv & Hn) argv Hrun bd. subst bd argv.
  build_returns
    (fun w' =>
       let bd := resolve (cwd w) build_dir in
       cwd w' = cwd w /\ bd ∈ dirs w' /\ (forall d, d ∈ dirs w -> d ∈ dirs w')
       /\ spawned w'
          = spawned w ++ (if run then [[OSFPGA.toolchain self; "--batch"; "--script";
                                        "build.tcl"]] else [])
       /\ sources w' = sources w ++ [source_entry platform bd (build_name +:+ ".v")]
       /\ files w'
          = dict_set (resolve bd "build.tcl")
              (OSFPGA.tcl_text (devicename platform) (device platform) (sources w')
                 build_name (verilog_include_paths platform))
              (dict_set (resolve bd (build_name +:+ ".sdc"))
                 (OSFPGA.sdc_text (OSFPGA.clocks self) v.2)
                 (dict_set (resolve bd (build_name +:+ ".v")) v.1 (files w)))
       /\ dict_get (resolve bd (build_name +:+ ".v")) (files w') = Some v.1
       /\ dict_get (resolve bd (build_name +:+ ".sdc")) (files w')
          = Some (OSFPGA.sdc_text (OSFPGA.clocks self) v.2)
       /\ dict_get (resolve bd "build.tcl") (files w')
          = Some (OSFPGA.tcl_text (devicename platform) (device platform)
                    (sources w') build_name (verilog_include_paths platform))).
  destruct run.
  - destruct (Hrun eq_refl) as [Hfound Hst].
    pose proof (proj2 (set_mem_true _ _) Hfound) as Hpath.
    unfold OSFPGA.build. unfold_emitters.
    wp_go_with ltac:(rewrite_known; cbn [negb Z.eqb]); try runs_leaf Hwf.
    world_simpl. destruct Hwf as [Habs Hin]. cbv zeta.
    split_and!; first [done | by apply resolve_absolute | apply elem_of_set_add_same
                | by intros ?; apply elem_of_set_add_old | read_back].
  - unfold OSFPGA.build. unfold_emitters.
    wp_go_with ltac:(rewrite_known; cbn [negb]); try runs_leaf Hwf.
    world_simpl. destruct Hwf as [Habs Hin]. cbv zeta. rewrite app_nil_r.
    split_and!; first [done | by apply resolve_absolute | apply elem_of_set_add_same
                | by intros ?; apply elem_of_set_add_old | read_back].
Qed.

Lemma osfpga_build_writes_witness :
  exists w',
    OSFPGA.build (H := Examples.millis)
      (OSFPGA.mk "foedag" [(Examples.sysclk, 10%Q)])
      (Examples.board "gemini" [Examples.led]) "build" "top" false
      (Examples.host [] 0) = (w', inr Examples.names)
    /\ dict_get "/home/user/proj/build/top.sdc" (files w')
       = Some "create_clock -name sysclk -period 10.0 [get_ports {sysclk}]".
Proof.
  destruct (osfpga_build_writes (H := Examples.millis)
              (OSFPGA.mk "foedag" [(Examples.sysclk, 10%Q)])
              (Examples.board "gemini" [Examples.led]) "build" "top" false
              (Examples.host [] 0) _ _
              (host_well_formed _ _) (board_converts _ _))
    as (w' & Hb & _ & _ & _ & _ & _ & _ & _ & Hsdc & _); [done|].
  exists w'. split; [exact Hb | exact Hsdc].
Defined.

(** X15. A QuickLogic build whose signal table has a pin in every row
    returns the namespace of the design, back in the directory it
    started from. The build directory exists and no directory is gone;
    the top file is added to the sources; three files and no other are
    written: the top file, the [.pcf] file and the [Makefile];
    [make -j1] has been started, once, when [run] is set (the tools are
    then on the path and [make] exits with 0) and nothing otherwise. *)
Theorem quicklogic_build_writes (self : QuickLogic.SymbiflowToolchain)
    (platform : Platform) (build_dir build_name : string) (run : bool) (w : World)
    (v : string * Namespace) (named : list NamedSC * list string) (pcf : string) :
  well_formed w ->
  converts platform v named ->
  QuickLogic.io_pcf_text named.1 named.2 = inr pcf ->
  (run = true -> "ql_symbiflow" ∈ search_path w /\ "make" ∈ search_path w
                 /\ exit_status w ["make"; "-j1"] = 0%Z) ->
  let bd := resolve (cwd w) build_dir in
  exists w',
    QuickLogic.build self platform build_dir build_name run w = (w', inr v.2)
    /\ cwd w' = cwd w
    /\ bd ∈ dirs w' /\ (forall d, d ∈ dirs w -> d ∈ dirs w')
    /\ spawned w' = spawned w ++ (if run then [["make"; "-j1"]] else [])
    /\ sources w' = sources w ++ [source_entry platform bd (build_name +:+ ".v")]
    /\ files w'
       = dict_set (resolve bd "Makefile")
           (QuickLogic.makefile_text (device platform) build_name)
           (dict_set (resolve bd (build_name +:+ ".pcf")) pcf
              (dict_set (resolve bd (build_name +:+ ".v")) v.1 (files w)))
    /\ dict_get (resolve bd (build_name +:+ ".v")) (files w') = Some v.1
    /\ dict_get (resolve bd (build_name +:+ ".pcf")) (files w') = Some pcf
    /\ dict_get (resolve bd "Makefile") (files w')
       = Some (QuickLogic.makefile_text (device platform) build_name).
Proof.
  intros Hwf (Hf & Hv & Hn) Hpcf Hrun bd. subst bd.
  build_returns
    (fun w' =>
       let bd := resolve (cwd w) build_dir in
       cwd w' = cwd w /\ bd ∈ dirs w' /\ (forall d, d ∈ dirs w -> d ∈ dirs w')
       /\ spawned w' = spawned w ++ (if run then [["make"; "-j1"]] else [])
       /\ sources w' = sources w ++ [source_entry platform bd (build_name +:+ ".v")]
       /\ files w'
          = dict_set (resolve bd "Makefile")
              (QuickLogic.makefile_text (device platform) build_name)
              (dict_set (resolve bd (build_name +:+ ".pcf")) pcf
                 (dict_set (resolve bd (build_name +:+ ".v")) v.1 (files w)))
       /\ dict_get (resolve bd (build_name +:+ ".v")) (files w') = Some v.1
       /\ dict_get (resolve bd (build_name +:+ ".pcf")) (files w') = Some pcf
       /\ dict_get (resolve bd "Makefile") (files w')
          = Some (QuickLogic.makefile_text (device platform) build_name)).
  destruct run.
  - destruct (Hrun eq_refl) as (Hfound & Hmake & Hst).
    pose proof (proj2 (set_mem_true _ _) Hfound) as Hpath.
    unfold QuickLogic.build. unfold_emitters.
    wp_go_with ltac:(rewrite_known; cbn [negb Z.eqb]); try runs_leaf Hwf.
    world_simpl. destruct Hwf as [Habs Hin]. cbv zeta.
    split_and!; first [done | by apply resolve_absolute | apply elem_of_set_add_same
                | by intros ?; apply elem_of_set_add_old | read_back].
  - unfold QuickLogic.build. unfold_emitters.
    wp_go_with ltac:(rewrite_known; cbn [negb]); try runs_leaf Hwf.
    world_simpl. destruct Hwf as [Habs Hin]. cbv zeta. rewrite app_nil_r.
    split_and!; first [done | by apply resolve_absolute | apply elem_of_set_add_same
                | by intros ?; apply elem_of_set_add_old | read_back].
Qed.

Lemma quicklogic_build_writes_witness :
  exists w',
    QuickLogic.build QuickLogic.__init__
      (Examples.board "ql-eos-s3" [Examples.leds]) "build" "top" false
      (Examples.host [] 0) = (w', inr Examples.names)
    /\ dict_get "/home/user/proj/build/top.pcf" (files w')
       = Some ("set_io led(0) A1" +:+ nl +:+ "set_io led(1) A2" +:+ nl
               +:+ "set_io led(2) A3" +:+ nl).
Proof.
  destruct (quicklogic_build_writes QuickLogic.__init__
              (Examples.board "ql-eos-s3" [Examples.leds]) "build" "top" false
              (Examples.host [] 0) _ _
              ("set_io led(0) A1" +:+ nl +:+ "set_io led(1) A2" +:+ nl
               +:+ "set_io led(2) A3" +:+ nl)
              (host_well_formed _ _) (board_converts _ _) eq_refl)
    as (w' & Hb & _ & _ & _ & _ & _ & _ & _ & Hpcf & _); [done|].
  exists w'. split; [exact Hb | exact Hpcf].
Defined.

Lemma wp_listdir_exact p (Q : World -> list string -> Prop) E w :
  (resolve (cwd w) p ∈ dirs w ->
   Q w (omap (entry_of (resolve (cwd w) p)) ((files w).*1 ++ dirs w))) ->
  (resolve (cwd w) p ∉ dirs w -> E w (FileNotFoundError p)) ->
  wp (listdir p) Q E w.
Proof.
  intros HQ HE. unfold wp, listdir.
  destruct (set_mem _ _) eqn:Hm; [apply HQ, set_mem_true | apply HE, set_mem_false]; done.
Qed.

(** As [wp_go_with], keeping what [os.listdir] returns. *)
Ltac wp_walk tac :=
  repeat (first
    [ wp_prim
    | apply wp_chdir; intros ?
    | apply wp_subprocess_call; intros ?
    | apply wp_listdir_exact; intros ?
    | apply wp_rmtree; [intros ? | intros ? ? | intros ? ?]
    | lazymatch goal with
      | |- wp (subprocess_call ((if ?b then _ else _) ++ _)) _ _ _ =>
          destruct b eqn:?; cbn [app]
      | |- wp (if ?b then _ else _) _ _ _ => destruct b eqn:?
      | |- wp (match ?x with _ => _ end) _ _ _ => destruct x eqn:?
      | |- match ?x with _ => _ end => destruct x eqn:?
      end ]; world_step; tac; world_step).

(** X16. A Microsemi build without [run], with an absolute build
    directory, a device of three parts and a signal table
    [_build_io_pdc] accepts, returns the namespace of the design, back in
    the directory it started from, and has started no program. The top
    file, the [.tcl] script, both [.pdc] files, the [.sdc] file and the
    build script are in the build directory; the [.tcl] script is made
    from the listing of the build directory as it is once the top file
    is written. *)
Theorem microsemi_build_writes `{FloatRepr} `{Microsemi.SignalRepr}
    (self : Microsemi.MicrosemiLiberoSoCPolarfireToolchain)
    (platform : Platform) (build_dir build_name : string) (w : World)
    (v : string * Namespace) (named : list NamedSC * list string)
    (pdc die package speed : string) :
  well_formed w ->
  startswith build_dir "/" = true ->
  converts platform v named ->
  Microsemi.split_device (device platform) = inr (die, package, speed) ->
  Microsemi.io_pdc_text named.1 named.2 (Microsemi.additional_io_constraints self)
    = inr pdc ->
  let script := "build_" +:+ build_name +:+ Microsemi.script_ext (sys_platform w) in
  let top := dict_set (resolve build_dir (build_name +:+ ".v")) v.1 (files w) in
  let listing w' := omap (entry_of build_dir) (top.*1 ++ dirs w') in
  exists w',
    Microsemi.build self platform build_dir build_name false w = (w', inr v.2)
    /\ cwd w' = cwd w
    /\ build_dir ∈ dirs w' /\ (forall d, d ∈ dirs w -> d ∈ dirs w')
    /\ spawned w' = spawned w
    /\ sources w' = sources w ++ [source_entry platform build_dir (build_name +:+ ".v")]
    /\ dict_get (resolve build_dir (build_name +:+ ".v")) (files w') = Some v.1
    /\ dict_get (resolve build_dir (build_name +:+ ".tcl")) (files w')
       = Some (Microsemi.tcl_text die package speed (sources w') (listing w') build_name)
    /\ dict_get (resolve build_dir (build_name +:+ "_io.pdc")) (files w') = Some pdc
    /\ dict_get (resolve build_dir (build_name +:+ "_fp.pdc")) (files w')
       = Some (join nl (Microsemi.additional_fp_constraints self))
    /\ dict_get (resolve build_dir (build_name +:+ ".sdc")) (files w')
       = Some (Microsemi.timing_sdc_text v.2 (Microsemi.clocks self)
                 (Microsemi.false_paths self)
                 (Microsemi.additional_timing_constraints self))
    /\ dict_get (resolve build_dir script) (files w')
       = Some (Microsemi.script_contents (sys_platform w) (git_revision w)).
Proof.
  intros Hwf Hbd (Hf & Hv & Hn) Hdev Hpdc script top listing. subst script top listing.
  enough (wp (Microsemi.build self platform build_dir build_name false)
             (fun w' ns =>
                let script := "build_" +:+ build_name
                              +:+ Microsemi.script_ext (sys_platform w) in
                let top := dict_set (resolve build_dir (build_name +:+ ".v")) v.1 (files w) in
                let listing w' := omap (entry_of build_dir) (top.*1 ++ dirs w') in
                ns = v.2 /\ cwd w' = cwd w /\ build_dir ∈ dirs w' /\ (forall d, d ∈ dirs w -> d ∈ dirs w')
                /\ spawned w' = spawned w
                /\ sources w'
                   = sources w ++ [source_entry platform build_dir (build_name +:+ ".v")]
                /\ dict_get (resolve build_dir (build_name +:+ ".v")) (files w') = Some v.1
                /\ dict_get (resolve build_dir (build_name +:+ ".tcl")) (files w')
                   = Some (Microsemi.tcl_text die package speed (sources w') (listing w')
                             build_name)
                /\ dict_get (resolve build_dir (build_name +:+ "_io.pdc")) (files w')
                   = Some pdc
                /\ dict_get (resolve build_dir (build_name +:+ "_fp.pdc")) (files w')
                   = Some (join nl (Microsemi.additional_fp_constraints self))
                /\ dict_get (resolve build_dir (build_name +:+ ".sdc")) (files w')
                   = Some (Microsemi.timing_sdc_text v.2 (Microsemi.clocks self)
                             (Microsemi.false_paths self)
                             (Microsemi.additional_timing_constraints self))
                /\ dict_get (resolve build_dir script) (files w')
                   = Some (Microsemi.script_contents (sys_platform w) (git_revision w)))
             (fun _ _ => False) w) as Hwp.
  { apply wp_returns in Hwp as (w' & ns & Hb & -> & Hrest). by exists w'. }
  unfold Microsemi.build. unfold_emitters.
  wp_walk ltac:(rewrite ?(resolve_absolute _ _ Hbd); rewrite_known; cbn [negb]);
    rewrite ?(resolve_absolute _ _ Hbd) in *; try runs_leaf Hwf.
  world_simpl. destruct Hwf as [Habs Hin]. cbv zeta.
  unfold Microsemi.script_ext. destruct (Microsemi.is_windows (sys_platform w)).
  all: split_and!; first [done | by apply resolve_absolute | apply elem_of_set_add_same
                | by intros ?; apply elem_of_set_add_old | read_back].
Qed.

Lemma microsemi_build_writes_witness :
  exists w',
    Microsemi.build (H := Examples.millis) (H0 := Examples.by_id) Microsemi.__init__
      (Examples.board "MPF300TS-FCG484-1" [Examples.led]) "/home/user/proj/build" "top"
      false (Examples.host [] 0) = (w', inr Examples.names)
    /\ dict_get "/home/user/proj/build/top_io.pdc" (files w')
       = Some ("set_io -port_name {led} -pin_name A1 -io_std LVCMOS33 -fixed true " +:+ nl).
Proof.
  destruct (microsemi_build_writes (H := Examples.millis) (H0 := Examples.by_id)
              Microsemi.__init__
              (Examples.board "MPF300TS-FCG484-1" [Examples.led]) "/home/user/proj/build"
              "top" (Examples.host [] 0) _ _
              ("set_io -port_name {led} -pin_name A1 -io_std LVCMOS33 -fixed true " +:+ nl)
              "MPF300TS" "FCG484" "1"
              (host_well_formed _ _) eq_refl (board_converts _ _) eq_refl eq_refl)
    as (w' & Hb & _ & _ & _ & _ & _ & _ & _ & Hpdc & _).
  exists w'. split; [exact Hb | exact Hpdc].
Defined.

Lemma dict_get_filter_out {V} (P : string -> bool) (d : list (string * V)) k :
  P k = false -> dict_get k (filter (fun f => P f.1) d) = None.
Proof.
  intros Hk. apply dict_get_None. intros (kv & -> & Hin)%list_elem_of_fmap.
  apply list_elem_of_filter in Hin as [HP _]. rewrite Hk in HP. done.
Qed.

(** X17. A Microsemi build with [run], where the build directory holds
    an [impl] directory of an earlier run: the build removes that
    directory with every directory and file below it and keeps the
    other directories, starts the build script, once, with the shell of
    the platform, and returns in the directory it started from. What
    the script writes is not part of the world here. *)
Theorem microsemi_build_runs `{FloatRepr} `{Microsemi.SignalRepr}
    (self : Microsemi.MicrosemiLiberoSoCPolarfireToolchain)
    (platform : Platform) (build_dir build_name : string) (w : World)
    (v : string * Namespace) (named : list NamedSC * list string)
    (pdc die package speed : string) :
  well_formed w ->
  startswith build_dir "/" = true ->
  converts platform v named ->
  Microsemi.split_device (device platform) = inr (die, package, speed) ->
  Microsemi.io_pdc_text named.1 named.2 (Microsemi.additional_io_constraints self)
    = inr pdc ->
  let script := "build_" +:+ build_name +:+ Microsemi.script_ext (sys_platform w) in
  let impl := resolve build_dir "impl" in
  (if Microsemi.is_windows (sys_platform w) then "cmd" else "bash") ∈ search_path w ->
  exit_status w (shell_of w ++ [script]) = 0%Z ->
  impl ∈ dirs w ->
  below impl (cwd w) = false ->
  exists w',
    Microsemi.build self platform build_dir build_name true w = (w', inr v.2)
    /\ cwd w' = cwd w
    /\ spawned w' = spawned w ++ [shell_of w ++ [script]]
    /\ (forall d, d ∈ dirs w' -> below impl d = false)
    /\ (forall d, d ∈ dirs w -> below impl d = false -> d ∈ dirs w')
    /\ (impl ∉ dirs w')
    /\ (forall path, below impl path = true -> dict_get path (files w') = None).
Proof.
  intros Hwf Hbd (Hf & Hv & Hn) Hdev Hpdc script impl Hshell Hst Himpl Hout.
  subst script impl. unfold shell_of in *.
  assert (resolve build_dir "impl" ∈ dirs w
          \/ resolve build_dir "impl" ∉ (files w).*1) as Himpl' by by left.
  build_returns
    (fun w' =>
       cwd w' = cwd w
       /\ spawned w'
          = spawned w ++ [(if Microsemi.is_windows (sys_platform w)
                           then ["cmd"; "/c"] else ["bash"])
                          ++ ["build_" +:+ build_name
                              +:+ Microsemi.script_ext (sys_platform w)]]
       /\ (forall d, d ∈ dirs w' -> below (resolve build_dir "impl") d = false)
       /\ (forall d, d ∈ dirs w -> below (resolve build_dir "impl") d = false ->
                     d ∈ dirs w')
       /\ (resolve build_dir "impl" ∉ dirs w')
       /\ (forall path, below (resolve build_dir "impl") path = true ->
                        dict_get path (files w') = None)).
  unfold Microsemi.build. unfold_emitters.
  wp_walk ltac:(rewrite ?(resolve_absolute _ _ Hbd); cbn [app] in Hst;
                rewrite_known; cbn [negb Z.eqb]);
    rewrite ?(resolve_absolute _ _ Hbd) in *;
    try first [runs_leaf Hwf | impl_leaf Hwf Himpl' Hout].
  all: world_simpl.
  all: try (exfalso;
            match goal with
            | Hx : _ ∉ set_add _ _ |- _ => by apply Hx, elem_of_set_add_old
            | Hx : (_ || _) = false |- _ =>
                apply orb_false_iff in Hx as [Hx _]; apply set_mem_false in Hx;
                by apply Hx, elem_of_set_add_old
            end).
  all: destruct Hwf as [Habs Hin]; split_and!;
    [ done | by apply resolve_absolute | done | | | |].
  all: try (intros d [Hb _]%list_elem_of_filter;
            by destruct (below (resolve build_dir "impl") d)).
  all: try (intros d Hd Hb; apply list_elem_of_filter;
            split; [by rewrite Hb | by apply elem_of_set_add_old]).
  all: try (intros [Hb _]%list_elem_of_filter; revert Hb;
            unfold below; by rewrite bool_decide_eq_true_2).
  all: intros path Hpath;
    apply (dict_get_filter_out (fun k => negb (below (resolve build_dir "impl") k)));
    by rewrite Hpath.
Qed.

Lemma microsemi_build_runs_witness :
  exists w',
    Microsemi.build (H := Examples.millis) (H0 := Examples.by_id) Microsemi.__init__
      (Examples.board "MPF300TS-FCG484-1" [Examples.led]) "/home/user/proj/build" "top"
      true (MoreExamples.host_with_impl ["bash"] 0) = (w', inr Examples.names)
    /\ spawned w' = [["bash"; "build_top.sh"]]
    /\ dict_get "/home/user/proj/build/impl/top.log" (files w') = None.
Proof.
  assert (well_formed (MoreExamples.host_with_impl ["bash"] 0)) as Hwf.
  { split; [reflexivity | left]. }
  destruct (microsemi_build_runs (H := Examples.millis) (H0 := Examples.by_id)
              Microsemi.__init__
              (Examples.board "MPF300TS-FCG484-1" [Examples.led]) "/home/user/proj/build"
              "top" (MoreExamples.host_with_impl ["bash"] 0) _ _
              ("set_io -port_name {led} -pin_name A1 -io_std LVCMOS33 -fixed true " +:+ nl)
              "MPF300TS" "FCG484" "1"
              Hwf eq_refl (board_converts _ _) eq_refl eq_refl)
    as (w' & Hb & _ & Hsp & _ & _ & _ & Hgone).
  - apply list_elem_of_singleton. reflexivity.
  - reflexivity.
  - right. right. left.
  - reflexivity.
  - exists w'. split_and!; [exact Hb | exact Hsp | apply Hgone; reflexivity].
Defined.

(* ================================================================== *)
(** * Where a build stops                                              *)
(* ================================================================== *)

Lemma enter_build_dir build_dir w :
  (makedirs build_dir ;;; chdir build_dir) w = (entered build_dir w, inr tt).
Proof.
  unfold bind, makedirs, modify, chdir, entered. cbn [cwd dirs set_dirs].
  by rewrite set_mem_set_add.
Qed.

Lemma stopped_entered {A} build_dir e w :
  stopped (A := A) build_dir e w (entered build_dir w, inl e).
Proof.
  unfold stopped, entered. cbn. split_and!; try done. apply elem_of_set_add_same.
Qed.

(** X18. When finalizing the design raises, each of the four builds
    raises the same exception: the build directory has been made and
    is the current one, and no file is written, no source added and no
    program started. *)
Theorem build_stops_at_finalize `{FloatRepr} `{Microsemi.SignalRepr}
    (platform : Platform) (e : exn) (build_dir build_name : string) (run : bool)
    (w : World)
    (ta : Anlogic.TangDinastyToolchain) (to : OSFPGA.OSFPGAToolchain)
    (tq : QuickLogic.SymbiflowToolchain)
    (tm : Microsemi.MicrosemiLiberoSoCPolarfireToolchain) :
  finalize platform = Some e ->
  stopped build_dir e w (Anlogic.build ta platform build_dir build_name run w)
  /\ stopped build_dir e w (OSFPGA.build to platform build_dir build_name run w)
  /\ stopped build_dir e w (QuickLogic.build tq platform build_dir build_name run w)
  /\ stopped build_dir e w (Microsemi.build tm platform build_dir build_name run w).
Proof.
  intros Hf.
  assert (forall w0, do_finalize platform w0 = (w0, inl e)) as Hfin.
  { intros w0. unfold do_finalize. by rewrite Hf. }
  pose proof (enter_build_dir build_dir w) as Henter.
  unfold bind, makedirs, modify, chdir in Henter. cbn [cwd dirs set_dirs] in Henter.
  pose proof (stopped_entered (A := Namespace) build_dir e w) as Hst.
  unfold entered in Hst.
  split_and!.
  - unfold Anlogic.build, bind, getcwd, gets, makedirs, modify, chdir.
    cbn [cwd dirs set_dirs]. rewrite set_mem_set_add. rewrite Hfin. exact Hst.
  - unfold OSFPGA.build, bind, getcwd, gets, makedirs, modify, chdir.
    cbn [cwd dirs set_dirs]. rewrite set_mem_set_add. rewrite Hfin. exact Hst.
  - unfold QuickLogic.build, bind, getcwd, gets, makedirs, modify, chdir.
    cbn [cwd dirs set_dirs]. rewrite set_mem_set_add. rewrite Hfin. exact Hst.
  - unfold Microsemi.build, bind, getcwd, gets, makedirs, modify, chdir.
    cbn [cwd dirs set_dirs]. rewrite set_mem_set_add. rewrite Hfin. exact Hst.
Qed.

Lemma build_stops_at_finalize_witness :
  stopped "build" (Raised "already finalized") (Examples.host ["td"] 0)
    (Anlogic.build (H := Examples.millis) Anlogic.__init__ Examples.finalized_board
       "build" "top" true (Examples.host ["td"] 0)).
Proof.
  exact (proj1 (build_stops_at_finalize (H := Examples.millis) (H0 := Examples.by_id)
                  Examples.finalized_board (Raised "already finalized") "build" "top" true
                  (Examples.host ["td"] 0) Anlogic.__init__ (OSFPGA.__init__ "foedag")
                  QuickLogic.__init__ Microsemi.__init__ eq_refl)).
Defined.

(** X19. An Anlogic build for any other device than EG4S20BG256 raises
    [ValueError] with the device in its message, whatever [run] is. This
    happens after the top file, [top.adc] and [top.sdc] are written and
    before the project file and the script are: these three files are
    the only ones written, no program is started, and the build
    directory stays the current one. *)
Theorem anlogic_build_invalid_device `{FloatRepr} (self : Anlogic.TangDinastyToolchain)
    (platform : Platform) (build_dir build_name : string) (run : bool) (w : World)
    (v : string * Namespace) (named : list NamedSC * list string) (adc : string) :
  converts platform v named ->
  Anlogic.adc_text named.1 named.2 = inr adc ->
  device platform ≠ "EG4S20BG256" ->
  let bd := resolve (cwd w) build_dir in
  exists w',
    Anlogic.build self platform build_dir build_name run w
    = (w', inl (ValueError ("Invalid device " +:+ device platform)))
    /\ cwd w' = bd
    /\ spawned w' = spawned w
    /\ files w'
       = dict_set (resolve bd "top.sdc") (Anlogic.sdc_text (Anlogic.clocks self) v.2)
           (dict_set (resolve bd "top.adc") adc
              (dict_set (resolve bd (build_name +:+ ".v")) v.1 (files w))).
Proof.
  intros (Hf & Hv & Hn) Hadc Hdev bd. subst bd.
  assert (Anlogic.parse_device (device platform)
          = inl (ValueError ("Invalid device " +:+ device platform))) as Hparse.
  { unfold Anlogic.parse_device, Anlogic.devices. cbn [dict_get].
    by rewrite decide_False. }
  enough (wp (Anlogic.build self platform build_dir build_name run)
             (fun _ _ => False)
             (fun w' e =>
                let bd := resolve (cwd w) build_dir in
                e = ValueError ("Invalid device " +:+ device platform)
                /\ cwd w' = bd /\ spawned w' = spawned w
                /\ files w'
                   = dict_set (resolve bd "top.sdc")
                       (Anlogic.sdc_text (Anlogic.clocks self) v.2)
                       (dict_set (resolve bd "top.adc") adc
                          (dict_set (resolve bd (build_name +:+ ".v")) v.1 (files w))))
             w) as Hwp.
  { apply wp_raises in Hwp as (w' & e & Hb & -> & Hrest). by exists w'. }
  unfold Anlogic.build. unfold_emitters.
  wp_go_with ltac:(rewrite_known; cbn [negb]); not_running; world_simpl;
    first [ done
          | exfalso;
            match goal with
            | Hx : _ ∉ set_add _ _ |- _ => apply Hx, elem_of_set_add_same
            end ].
Qed.

Lemma anlogic_build_invalid_device_witness :
  exists w',
    Anlogic.build (H := Examples.millis) Anlogic.__init__
      (Examples.board "EG4S20NG88" [Examples.led]) "build" "top" true
      (Examples.host ["td"] 0)
    = (w', inl (ValueError "Invalid device EG4S20NG88"))
    /\ spawned w' = [].
Proof.
  destruct (anlogic_build_invalid_device (H := Examples.millis) Anlogic.__init__
              (Examples.board "EG4S20NG88" [Examples.led]) "build" "top" true
              (Examples.host ["td"] 0) _ _
              "set_pin_assignment {led} { LOCATION = A1;  IOSTANDARD = LVCMOS33; }}"
              (board_converts _ _) eq_refl)
    as (w' & Hb & _ & Hsp & _); [discriminate|].
  exists w'. split; [exact Hb | exact Hsp].
Defined.

Lemma string_app_longer (a b : string) : b ≠ EmptyString -> a +:+ b ≠ a.
Proof.
  intros Hb Heq. apply (f_equal String.length) in Heq.
  rewrite string_length_app in Heq. destruct b; [done|]. simpl in Heq. lia.
Qed.

(** X20. [_build_tcl] lists [build_dir] after the build has changed
    into it. With a relative build directory of plain names that does
    not hold a directory of its own path the Microsemi build therefore
    raises [FileNotFoundError], whatever [run] is: the top file is
    written and added to the sources, no other file is written, no
    program is started, and the build directory stays the current
    one. *)
Theorem microsemi_build_relative_dir `{FloatRepr} `{Microsemi.SignalRepr}
    (self : Microsemi.MicrosemiLiberoSoCPolarfireToolchain)
    (platform : Platform) (build_dir build_name : string) (run : bool) (w : World)
    (v : string * Namespace) (named : list NamedSC * list string)
    (die package speed : string) :
  converts platform v named ->
  Microsemi.split_device (device platform) = inr (die, package, speed) ->
  plain build_dir = true ->
  startswith build_dir "/" = false ->
  let bd := resolve (cwd w) build_dir in
  resolve bd build_dir ∉ dirs w ->
  exists w',
    Microsemi.build self platform build_dir build_name run w
    = (w', inl (FileNotFoundError build_dir))
    /\ cwd w' = bd
    /\ files w' = dict_set (resolve bd (build_name +:+ ".v")) v.1 (files w)
    /\ sources w' = sources w ++ [source_entry platform bd (build_name +:+ ".v")]
    /\ spawned w' = spawned w.
Proof.
  intros (Hf & Hv & Hn) Hdev _ Hrel bd Hnested. subst bd.
  assert (resolve (resolve (cwd w) build_dir) build_dir
          ∉ set_add (resolve (cwd w) build_dir) (dirs w)) as Hno.
  { intros [Heq|Hin]%elem_of_set_add; [|done]. revert Heq.
    unfold resolve at 1. rewrite Hrel. apply string_app_longer. done. }
  apply set_mem_false in Hno.
  exists (set_sources (sources w ++ [source_entry platform (resolve (cwd w) build_dir)
                                       (build_name +:+ ".v")])
            (set_files (dict_set (resolve (resolve (cwd w) build_dir)
                                    (build_name +:+ ".v")) v.1 (files w))
               (entered build_dir w))).
  split; [|done].
  unfold Microsemi.build, bind, getcwd, gets, makedirs, modify, chdir, do_finalize.
  cbn [cwd dirs set_dirs]. rewrite set_mem_set_add, Hf. unfold ret, lift.
  rewrite Hv, Hn. unfold write_file, add_source, modify. unfold_emitters.
  unfold bind, lift, listdir. rewrite Hdev.
  cbn [cwd dirs files sources set_cwd set_dirs set_files set_sources].
  by rewrite Hno.
Qed.

Lemma microsemi_build_relative_dir_witness :
  exists w',
    Microsemi.build (H := Examples.millis) (H0 := Examples.by_id) Microsemi.__init__
      (Examples.board "MPF300TS-FCG484-1" [Examples.led]) "build" "top" false
      (Examples.host ["bash"] 0)
    = (w', inl (FileNotFoundError "build"))
    /\ cwd w' = "/home/user/proj/build".
Proof.
  assert (converts (Examples.board "MPF300TS-FCG484-1" [Examples.led])
            ("module top();", Examples.names) ([Examples.led], [])) as Hc by done.
  assert (resolve (resolve (cwd (Examples.host ["bash"] 0)) "build") "build"
          ∉ dirs (Examples.host ["bash"] 0)) as Hno.
  { intros Hin%list_elem_of_singleton. discriminate. }
  destruct (microsemi_build_relative_dir (H := Examples.millis) (H0 := Examples.by_id)
              Microsemi.__init__ _ "build" "top" false (Examples.host ["bash"] 0)
              _ _ "MPF300TS" "FCG484" "1" Hc eq_refl eq_refl eq_refl Hno)
    as (w' & Hb & Hcwd & _).
  exists w'. split; [exact Hb | exact Hcwd].
Defined.

(* ================================================================== *)
(** * Outputs of a PLL                                                 *)
(* ================================================================== *)

(** What one call that returns has done. *)
Lemma call_returned `{FloatRepr} c s s' :
  Efinix.call c s = (s', inr tt) ->
  let k := Efinix.nclkouts (Efinix.self s) in
  let n := Efinix.name (Efinix.self s) in
  Efinix.name (Efinix.self s') = n
  /\ Efinix.cls (Efinix.self s') = Efinix.cls (Efinix.self s)
  /\ k < Efinix.nclkouts_max (Efinix.cls (Efinix.self s))
  /\ Efinix.nclkouts (Efinix.self s') = k + 1
  /\ Efinix.additional_sdc_commands (Efinix.platform s')
     = Efinix.additional_sdc_commands (Efinix.platform s) ++ [clkout_sdc n c k]
  /\ Efinix.excluded_ios (Efinix.platform s')
     = Efinix.excluded_ios (Efinix.platform s)
       ++ (if drives c then [clkout_name n c k] else [])
  /\ ~ (Efinix.c_freq c == 0)%Q.
Proof.
  intros Hcall k n. subst k n.
  enough (wp (Efinix.call c)
            (fun s' _ =>
               Efinix.name (Efinix.self s') = Efinix.name (Efinix.self s)
               /\ Efinix.cls (Efinix.self s') = Efinix.cls (Efinix.self s)
               /\ Efinix.nclkouts (Efinix.self s)
                  < Efinix.nclkouts_max (Efinix.cls (Efinix.self s))
               /\ Efinix.nclkouts (Efinix.self s') = Efinix.nclkouts (Efinix.self s) + 1
               /\ Efinix.additional_sdc_commands (Efinix.platform s')
                  = Efinix.additional_sdc_commands (Efinix.platform s)
                    ++ [clkout_sdc (Efinix.name (Efinix.self s)) c
                          (Efinix.nclkouts (Efinix.self s))]
               /\ Efinix.excluded_ios (Efinix.platform s')
                  = Efinix.excluded_ios (Efinix.platform s)
                    ++ (if drives c
                        then [clkout_name (Efinix.name (Efinix.self s)) c
                                (Efinix.nclkouts (Efinix.self s))] else [])
               /\ ~ (Efinix.c_freq c == 0)%Q)
            (fun _ _ => True) s) as Hwp.
  { unfold wp in Hwp. by rewrite Hcall in Hwp. }
  unfold Efinix.call, Efinix.create_clkout, Efinix.set_platform, Efinix.set_self.
  unfold clkout_sdc, clkout_name, drives.
  wp_go_with ltac:(efinix_step); try done.
  all: efinix_step.
  all: repeat match goal with
              | Hq : Qeq_bool _ _ = false |- _ => apply Qeq_bool_false in Hq
              | Hl : (_ <? _) = true |- _ => apply Nat.ltb_lt in Hl
              end.
  all: rewrite ?app_nil_r; split_and!; done.
Qed.

Lemma calls_cons `{FloatRepr} c cs s :
  Efinix.calls (c :: cs) s
  = ((Efinix.calls cs (Efinix.call c s).1).1,
     (Efinix.call c s).2 :: (Efinix.calls cs (Efinix.call c s).1).2).
Proof.
  cbn [Efinix.calls]. destruct (Efinix.call c s) as [s1 r]. cbn [fst snd].
  by destruct (Efinix.calls cs s1).
Qed.

Lemma filter_imap_pair_shift {A} (P : A -> bool) (l : list A) (g : nat -> A -> string)
    (a b : nat -> nat) :
  (forall i, a i + 1 = b i) ->
  (fun ic : nat * A => g (ic.1 + 1) ic.2)
    <$> filter (fun ic => P ic.2 = true) (imap (fun i x => (a i, x)) l)
  = (fun ic : nat * A => g ic.1 ic.2)
      <$> filter (fun ic => P ic.2 = true) (imap (fun i x => (b i, x)) l).
Proof.
  revert a b. induction l as [|x l IH]; intros a b Hab; [done|].
  cbn [imap]. unfold compose. rewrite !filter_cons. cbn [snd].
  specialize (IH (fun i => a (S i)) (fun i => b (S i)) (fun i => Hab (S i))).
  destruct (decide (P x = true)); [|done].
  rewrite !fmap_cons. cbn [fst snd]. by rewrite Hab, IH.
Qed.

Lemma calls_returned_series `{FloatRepr} cs s :
  Forall (fun r => Efinix.returned r = true) (Efinix.calls cs s).2 ->
  let s' := (Efinix.calls cs s).1 in
  let k := Efinix.nclkouts (Efinix.self s) in
  let n := Efinix.name (Efinix.self s) in
  Efinix.name (Efinix.self s') = n
  /\ Efinix.cls (Efinix.self s') = Efinix.cls (Efinix.self s)
  /\ Efinix.nclkouts (Efinix.self s') = k + length cs
  /\ (cs <> [] -> k + length cs <= Efinix.nclkouts_max (Efinix.cls (Efinix.self s)))
  /\ Forall (fun c => ~ (Efinix.c_freq c == 0)%Q) cs
  /\ Efinix.additional_sdc_commands (Efinix.platform s')
     = Efinix.additional_sdc_commands (Efinix.platform s)
       ++ imap (fun i c => clkout_sdc n c (k + i)) cs
  /\ Efinix.excluded_ios (Efinix.platform s')
     = Efinix.excluded_ios (Efinix.platform s)
       ++ ((fun ic => clkout_name n ic.2 (k + ic.1))
             <$> filter (fun ic => drives ic.2 = true) (imap pair cs)).
Proof.
  revert s. induction cs as [|c cs IH]; intros s Hall; cbv zeta.
  - simpl. rewrite !app_nil_r, Nat.add_0_r. split_and!; done.
  - rewrite calls_cons in Hall. cbn [snd] in Hall.
    apply Forall_cons in Hall as [Hr Hall].
    destruct (Efinix.call c s) as [s1 [e|[]]] eqn:Hc; [done|]. cbn [fst snd] in Hall.
    destruct (call_returned c s s1 Hc) as (Hn & Hcl & Hlt & Hk & Hsdc & Hex & Hfreq).
    destruct (IH s1 Hall) as (IHn & IHcl & IHk & IHle & IHf & IHsdc & IHex).
    rewrite calls_cons, Hc. cbn [fst snd length].
    rewrite ?Hn, ?Hcl, ?Hk in *. split_and!.
    + done.
    + done.
    + rewrite IHk. lia.
    + intros _. destruct cs as [|c' cs]; [simpl; lia|].
      assert (Efinix.nclkouts (Efinix.self s) + 1 + length (c' :: cs)
              <= Efinix.nclkouts_max (Efinix.cls (Efinix.self s))) by by apply IHle.
      simpl in *. lia.
    + by constructor.
    + rewrite IHsdc, Hsdc, <- app_assoc. f_equal. cbn [imap app]. f_equal.
      * by rewrite Nat.add_0_r.
      * apply imap_ext. intros i x _. unfold compose. f_equal. lia.
    + rewrite IHex, Hex, <- app_assoc. f_equal. cbn [imap].
      rewrite filter_cons. cbn [snd].
      pose proof (filter_imap_pair_shift drives cs
                    (fun i c => clkout_name (Efinix.name (Efinix.self s)) c
                                  (Efinix.nclkouts (Efinix.self s) + i))
                    (fun i => i) S (fun i => Nat.add_1_r i)) as Hshift.
      cbv beta in Hshift.
      assert (forall l : list (nat * Efinix.Call),
                 (fun ic : nat * Efinix.Call =>
                    clkout_name (Efinix.name (Efinix.self s)) ic.2
                      (Efinix.nclkouts (Efinix.self s) + 1 + ic.1)) <$> l
                 = (fun ic : nat * Efinix.Call =>
                      clkout_name (Efinix.name (Efinix.self s)) ic.2
                        (Efinix.nclkouts (Efinix.self s) + (ic.1 + 1))) <$> l) as Hre.
      { intros l. apply list_fmap_ext. intros _ ic _. f_equal. lia. }
      rewrite Hre. change (imap pair cs) with (imap (fun i x => (i, x)) cs).
      rewrite Hshift.
      destruct (drives c); [|by rewrite decide_False].
      rewrite decide_True by done. rewrite fmap_cons. cbn [app fst snd].
      by rewrite Nat.add_0_r.
Qed.

(** X21. A series of [create_clkout] calls that all return: the
    counter has grown by the number of calls and is within the bound of
    the class, no frequency was 0, the timing commands have grown by
    one [create_clock] per call, in the order of the calls, with the
    period [1e9/freq] and the name of the output, the excluded signals
    by the names of the outputs that drive a clock domain, and outputs
    left to their default names have pairwise different names. *)
Theorem create_clkout_series `{FloatRepr} (cs : list Efinix.Call) (s : Efinix.State) :
  Forall (fun r => Efinix.returned r = true) (Efinix.calls cs s).2 ->
  let s' := (Efinix.calls cs s).1 in
  let k := Efinix.nclkouts (Efinix.self s) in
  let n := Efinix.name (Efinix.self s) in
  Efinix.nclkouts (Efinix.self s') = k + length cs
  /\ (cs <> [] -> k + length cs <= Efinix.nclkouts_max (Efinix.cls (Efinix.self s)))
  /\ Forall (fun c => ~ (Efinix.c_freq c == 0)%Q) cs
  /\ Efinix.additional_sdc_commands (Efinix.platform s')
     = Efinix.additional_sdc_commands (Efinix.platform s)
       ++ imap (fun i c => clkout_sdc n c (k + i)) cs
  /\ Efinix.excluded_ios (Efinix.platform s')
     = Efinix.excluded_ios (Efinix.platform s)
       ++ ((fun ic => clkout_name n ic.2 (k + ic.1))
             <$> filter (fun ic => drives ic.2 = true) (imap pair cs))
  /\ (Forall (fun c => Efinix.c_name c = EmptyString) cs ->
      NoDup (imap (fun i c => clkout_name n c (k + i)) cs)).
Proof.
  intros Hall s' k n. subst s' k n.
  destruct (calls_returned_series cs s Hall) as (_ & _ & Hk & Hle & Hf & Hsdc & Hex).
  split_and!; [done..|].
  intros Hdef. apply NoDup_alt. intros i j x.
  rewrite !list_lookup_imap_Some. intros (ci & Hi & ->) (cj & Hj & Heq).
  unfold clkout_name in Heq.
  rewrite (proj1 (Forall_lookup _ _) Hdef i ci Hi) in Heq.
  rewrite (proj1 (Forall_lookup _ _) Hdef j cj Hj) in Heq.
  rewrite !bool_decide_eq_true_2 in Heq by done.
  do 2 apply string_app_inv_head in Heq. apply pretty_nat_inj in Heq. lia.
Qed.

Lemma create_clkout_series_witness :
  let H := Examples.millis in
  let pll := Efinix.mkPLL Efinix.TRIONPLL "TRIONPLL" 0 "pll0"
               ["pll0_rstn"; "pll0_locked"] [] in
  let p0 := Efinix.mkEfx [] [] [Efinix.mkBlock "pll0" "V1_V2" []]
              ["pll0_rstn"; "pll0_locked"] (fun _ => None) Examples.first_named in
  let cs := [Examples.clkout 100; Examples.clkout 50] in
  Efinix.additional_sdc_commands
    (Efinix.platform (Efinix.calls cs (Efinix.mkState pll p0)).1)
  = ["create_clock -period 10.0 pll0_clkout0"; "create_clock -period 20.0 pll0_clkout1"].
Proof.
  intros H pll p0 cs.
  assert (Forall (fun r => Efinix.returned r = true)
            (Efinix.calls cs (Efinix.mkState pll p0)).2) as Hall.
  { vm_compute. repeat constructor. }
  destruct (create_clkout_series (H := H) cs (Efinix.mkState pll p0) Hall)
    as (_ & _ & _ & Hsdc & _).
  etransitivity; [exact Hsdc|]. vm_compute. reflexivity.
Defined.

(** X22. A [create_clkout] call below the bound of the class with the
    frequency 0 raises [ZeroDivisionError] and changes nothing. One that
    drives a clock domain and whose resource the platform refuses
    raises what the platform raises: its timing command stays
    appended, the counter, the excluded signals and the blocks are as
    before. *)
Theorem create_clkout_raises `{FloatRepr} (c : Efinix.Call) (s : Efinix.State) :
  Efinix.nclkouts (Efinix.self s) < Efinix.nclkouts_max (Efinix.cls (Efinix.self s)) ->
  let k := Efinix.nclkouts (Efinix.self s) in
  let n := Efinix.name (Efinix.self s) in
  let p := Efinix.platform s in
  ((Efinix.c_freq c == 0)%Q -> Efinix.call c s = (s, inl ZeroDivisionError))
  /\ (forall msg,
        ~ (Efinix.c_freq c == 0)%Q -> drives c = true ->
        Efinix.request p (clkout_name n c k) = Some msg ->
        Efinix.call c s
        = (Efinix.mkState (Efinix.self s)
             (Efinix.mkEfx (Efinix.additional_sdc_commands p ++ [clkout_sdc n c k])
                (Efinix.excluded_ios p) (Efinix.blocks p) (Efinix.iface_ios p)
                (Efinix.request p) (Efinix.get_block p)),
           inl (Raised msg))).
Proof.
  intros Hlt%Nat.ltb_lt k n p. subst k n p. split.
  - intros Hz%Qeq_bool_true.
    unfold Efinix.call, Efinix.create_clkout, bind, gets. rewrite Hlt, Hz. done.
  - intros msg Hnz%Qeq_bool_false Hcd Hreq.
    unfold drives in Hcd. destruct (Efinix.c_cd c) as [cd|] eqn:Hc; [|done].
    unfold Efinix.call, Efinix.create_clkout, bind, gets, Efinix.set_platform, modify.
    rewrite Hlt, Hnz, Hc. unfold ret. efinix_step.
    unfold clkout_name, clkout_sdc in *. by rewrite Hreq.
Qed.

Lemma create_clkout_raises_witness :
  let H := Examples.millis in
  let pll := Efinix.mkPLL Efinix.TRIONPLL "TRIONPLL" 0 "pll0"
               ["pll0_rstn"; "pll0_locked"] [] in
  let p0 := Efinix.mkEfx [] [] [Efinix.mkBlock "pll0" "V1_V2" []]
              ["pll0_rstn"; "pll0_locked"] (fun _ => None) Examples.first_named in
  let stopped := Efinix.mkCall (Some "sys") 0 0 0 EmptyString true in
  Efinix.call stopped (Efinix.mkState pll p0)
  = (Efinix.mkState pll p0, inl ZeroDivisionError).
Proof.
  intros H pll p0 stopped.
  assert (Efinix.nclkouts (Efinix.self (Efinix.mkState pll p0))
          < Efinix.nclkouts_max (Efinix.cls (Efinix.self (Efinix.mkState pll p0))))
    as Hlt by (simpl; lia).
  apply (proj1 (create_clkout_raises (H := H) stopped (Efinix.mkState pll p0) Hlt)).
  reflexivity.
Defined.

(** X23. The constructor accepts the versions V1_V2 and V3 only: for
    any other it quits before it has touched the platform. Otherwise
    the new PLL is named [pll<n>] and has no output yet; the interface
    writer has one more block, the last one, named after the PLL, of
    that version and without outputs; the timing commands are as
    before; and the interface and excluded signals are what the
    platform's [add_iface_io] makes of them, called for the PLL's
    [_rstn] and then for its [_locked]. [TRIONPLL] and [TITANIUMPLL]
    always get a PLL, of at most 3 and 5 outputs, and PLLs made with
    different numbers have different names. *)
Theorem efinix_init `{Efinix.IfaceIO} (c : Efinix.PLLClass) (p : Efinix.EfxPlatform)
    (n : nat) (version : string) :
  match Efinix.__init__ c p n version with
  | (p0, inr pll) =>
      (version = "V1_V2" /\ Efinix.type pll = "TRIONPLL"
       \/ version = "V3" /\ Efinix.type pll = "TITANIUMPLL")
      /\ Efinix.name pll = "pll" +:+ str_nat n
      /\ Efinix.cls pll = c /\ Efinix.nclkouts pll = 0
      /\ Efinix.blocks p0 = Efinix.blocks p ++ [Efinix.mkBlock (Efinix.name pll) version []]
      /\ Efinix.additional_sdc_commands p0 = Efinix.additional_sdc_commands p
      /\ (Efinix.iface_ios p0, Efinix.excluded_ios p0)
         = Efinix.add_iface_io (Efinix.name pll +:+ "_locked")
             (Efinix.add_iface_io (Efinix.name pll +:+ "_rstn")
                (Efinix.iface_ios p, Efinix.excluded_ios p))
  | (p0, inl e) =>
      e = SystemExit /\ p0 = p /\ version <> "V1_V2" /\ version <> "V3"
  end
  /\ (exists p0 pll, Efinix.new_TRIONPLL p n = (p0, inr pll)
                     /\ Efinix.nclkouts_max (Efinix.cls pll) = 3)
  /\ (exists p0 pll, Efinix.new_TITANIUMPLL p n = (p0, inr pll)
                     /\ Efinix.nclkouts_max (Efinix.cls pll) = 5)
  /\ (forall c' p' n' version',
        match Efinix.__init__ c p n version, Efinix.__init__ c' p' n' version' with
        | (_, inr pll), (_, inr pll') => Efinix.name pll = Efinix.name pll' <-> n = n'
        | _, _ => True
        end).
Proof.
  split_and!.
  - unfold Efinix.__init__.
    destruct (bool_decide (version = "V1_V2")) eqn:H1.
    + apply bool_decide_eq_true in H1. cbn. split_and!; auto. by destruct (Efinix.add_iface_io _ _).
    + apply bool_decide_eq_false in H1.
      destruct (bool_decide (version = "V3")) eqn:H3.
      * apply bool_decide_eq_true in H3. cbn. split_and!; auto.
        by destruct (Efinix.add_iface_io _ _).
      * apply bool_decide_eq_false in H3. done.
  - by eexists _, _.
  - by eexists _, _.
  - intros c' p' n' version'. unfold Efinix.__init__.
    destruct (bool_decide (version = "V1_V2")), (bool_decide (version = "V3")),
      (bool_decide (version' = "V1_V2")), (bool_decide (version' = "V3"));
      try done; cbn;
      (split; [intros Heq; apply string_app_inv_head in Heq;
               by apply pretty_nat_inj in Heq | by intros ->]).
Qed.
